(** * node-mock-server: a record/replay proxy (src/index.js)

    A shallow embedding of the [MockServer] class and of the platform
    functions it calls, followed by the properties of the record/replay
    engine.  JavaScript strings are modelled by [string] (their UTF-8
    bytes), Buffers by [list Byte.byte], plain objects by association lists
    in insertion order, and the file system by a finite map from paths to
    nodes. *)

From Stdlib Require Import String Ascii ZArith NArith List Bool Lia.
From Stdlib Require Import Permutation.
From stdpp Require Import gmap strings.

Import ListNotations.
Local Open Scope string_scope.
Local Open Scope Z_scope.

(* ================================================================== *)
(** ** JavaScript string primitives *)
(* ================================================================== *)

Module JsString.

(** The double quote character, U+0022, and the backslash, U+005C. *)
Definition DQ : ascii := ascii_of_N 34.
Definition BACKSLASH : ascii := ascii_of_N 92.

(** Readable JSON literals: every apostrophe stands for a double quote. *)
Fixpoint dq (s : string) : string :=
  match s with
  | EmptyString => EmptyString
  | String c s' => String (if Ascii.eqb c "'"%char then DQ else c) (dq s')
  end.

Definition len (s : string) : Z := Z.of_nat (String.length s).

(** [s.startsWith(p)] *)
Fixpoint startsWith (s p : string) {struct p} : bool :=
  match p with
  | EmptyString => true
  | String a p' =>
      match s with
      | String b s' => Ascii.eqb a b && startsWith s' p'
      | EmptyString => false
      end
  end.

(** [s.indexOf(needle)], with [-1] for no occurrence. *)
Fixpoint indexOf_from (needle s : string) (i : Z) : Z :=
  if startsWith s needle then i
  else match s with
       | EmptyString => -1
       | String _ s' => indexOf_from needle s' (i + 1)
       end.

Definition indexOf (s needle : string) : Z := indexOf_from needle s 0.

Fixpoint drop (n : nat) (s : string) : string :=
  match n, s with
  | O, _ => s
  | S _, EmptyString => EmptyString
  | S k, String _ s' => drop k s'
  end.

Fixpoint take (n : nat) (s : string) : string :=
  match n, s with
  | O, _ => EmptyString
  | S _, EmptyString => EmptyString
  | S k, String c s' => String c (take k s')
  end.

(** [s.substring(start)]: a negative start is clamped to 0, one past the
    end to the length. *)
Definition substring (s : string) (start : Z) : string :=
  drop (Z.to_nat start) s.

(** [s.slice(0, stop)] for [0 <= stop]. *)
Definition slice0 (s : string) (stop : Z) : string :=
  take (Z.to_nat stop) s.

(** [s.slice(-1)]: the last character, or the empty string. *)
Fixpoint slice_last (s : string) : string :=
  match s with
  | EmptyString => EmptyString
  | String c EmptyString => s
  | String _ s' => slice_last s'
  end.

(** [s.split(sep)] for a non-empty separator. *)
Fixpoint split_go (sep s : string) (skip : nat) (cur : string) : list string :=
  match skip with
  | S k =>
      match s with
      | EmptyString => [cur]
      | String _ s' => split_go sep s' k cur
      end
  | O =>
      match s with
      | EmptyString => [cur]
      | String c s' =>
          if startsWith s sep
          then cur :: split_go sep s' (String.length sep - 1) EmptyString
          else split_go sep s' O (cur ++ String c EmptyString)
      end
  end.

Definition split (s sep : string) : list string := split_go sep s O EmptyString.

(** [s.replace(pat, rep)] with a string pattern: the first occurrence. *)
Definition replace (s pat rep : string) : string :=
  let i := indexOf s pat in
  if i =? -1 then s
  else slice0 s i ++ rep ++ substring s (i + len pat).

Definition includes (s needle : string) : bool :=
  negb (indexOf s needle =? -1).

Definition is_empty (s : string) : bool :=
  match s with EmptyString => true | _ => false end.

Fixpoint concat (l : list string) : string :=
  match l with
  | [] => EmptyString
  | s :: l' => s ++ concat l'
  end.

Definition code (c : ascii) : N := N_of_ascii c.

Definition is_digit (c : ascii) : bool :=
  ((48 <=? code c) && (code c <=? 57))%N.

Definition is_alpha (c : ascii) : bool :=
  (((65 <=? code c) && (code c <=? 90)) || ((97 <=? code c) && (code c <=? 122)))%N.

Definition to_lower_char (c : ascii) : ascii :=
  if ((65 <=? code c) && (code c <=? 90))%N then ascii_of_N (code c + 32) else c.

Fixpoint toLowerCase (s : string) : string :=
  match s with
  | EmptyString => EmptyString
  | String c s' => String (to_lower_char c) (toLowerCase s')
  end.

Definition hex_digit (n : N) : ascii :=
  if (n <? 10)%N then ascii_of_N (48 + n) else ascii_of_N (87 + n).

Definition hex_value (c : ascii) : option N :=
  let n := code c in
  if ((48 <=? n) && (n <=? 57))%N then Some (n - 48)%N
  else if ((97 <=? n) && (n <=? 102))%N then Some (n - 87)%N
  else if ((65 <=? n) && (n <=? 70))%N then Some (n - 55)%N
  else None.

End JsString.

Import JsString.

(* ================================================================== *)
(** ** JSON values, [JSON.stringify] and [JSON.parse] *)
(* ================================================================== *)

(** Values that survive [JSON.stringify]: objects keep their keys in
    insertion order and hold no key twice; numbers are the integers
    that [JSON.stringify] writes digit by digit, those below 10^21 in
    absolute value (status codes, lengths). *)
Unset Elimination Schemes.
Inductive json : Type :=
| JNull
| JBool (b : bool)
| JNum (z : Z)
| JStr (s : string)
| JArr (elems : list json)
| JObj (members : list (string * json)).
Set Elimination Schemes.

Module Json.

(** *** Serialisation *)

Definition escape_char (c : ascii) : string :=
  let n := code c in
  if (n =? 34)%N then String BACKSLASH (String DQ EmptyString)
  else if (n =? 92)%N then "\\"
  else if (n =? 8)%N then "\b"
  else if (n =? 12)%N then "\f"
  else if (n =? 10)%N then "\n"
  else if (n =? 13)%N then "\r"
  else if (n =? 9)%N then "\t"
  else if (n <? 32)%N then
    "\u00" ++ String (hex_digit (n / 16)) (String (hex_digit (n mod 16)) EmptyString)
  else String c EmptyString.

Fixpoint escape (s : string) : string :=
  match s with
  | EmptyString => EmptyString
  | String c s' => escape_char c ++ escape s'
  end.

Definition quote (s : string) : string :=
  String DQ (escape s ++ String DQ EmptyString).

Definition digit_char (n : N) : ascii := ascii_of_N (48 + n).

Fixpoint digits_go (fuel : nat) (n : N) (acc : string) : string :=
  match fuel with
  | O => acc
  | S f =>
      let acc' := String (digit_char (n mod 10)) acc in
      if (n <? 10)%N then acc' else digits_go f (n / 10) acc'
  end.

(** Decimal digits of a natural number, most significant first. *)
Definition digits (n : N) : string :=
  digits_go (S (N.to_nat (N.log2 n))) n EmptyString.

Definition number (z : Z) : string :=
  if z <? 0 then String "-" (digits (Z.to_N (- z))) else digits (Z.to_N z).

Fixpoint stringify (v : json) : string :=
  match v with
  | JNull => "null"
  | JBool true => "true"
  | JBool false => "false"
  | JNum z => number z
  | JStr s => quote s
  | JArr l =>
      let fix elems (l : list json) : string :=
        match l with
        | [] => EmptyString
        | [x] => stringify x
        | x :: l' => stringify x ++ String "," (elems l')
        end in
      String "[" (elems l ++ "]")
  | JObj l =>
      let fix members (l : list (string * json)) : string :=
        match l with
        | [] => EmptyString
        | [(k, x)] => quote k ++ String ":" (stringify x)
        | (k, x) :: l' => quote k ++ String ":" (stringify x ++ String "," (members l'))
        end in
      String "{" (members l ++ "}")
  end.

(** *** Parsing *)

Definition is_ws (c : ascii) : bool :=
  let n := code c in ((n =? 32) || (n =? 9) || (n =? 10) || (n =? 13))%N.

Fixpoint skip_ws (s : string) : string :=
  match s with
  | String c s' => if is_ws c then skip_ws s' else s
  | EmptyString => s
  end.

(** UTF-8 bytes of a code unit given by a [\uXXXX] escape. *)
Definition utf8_of_code_unit (n : N) : string :=
  if (n <? 128)%N then String (ascii_of_N n) EmptyString
  else if (n <? 2048)%N then
    String (ascii_of_N (192 + n / 64)) (String (ascii_of_N (128 + n mod 64)) EmptyString)
  else
    String (ascii_of_N (224 + n / 4096))
      (String (ascii_of_N (128 + (n / 64) mod 64))
         (String (ascii_of_N (128 + n mod 64)) EmptyString)).

Definition hex4 (a b c d : ascii) : option N :=
  match hex_value a, hex_value b, hex_value c, hex_value d with
  | Some x, Some y, Some z, Some w => Some (((x * 16 + y) * 16 + z) * 16 + w)%N
  | _, _, _, _ => None
  end.

Definition unescape (c : ascii) : option ascii :=
  let n := code c in
  if (n =? 34)%N then Some c
  else if (n =? 92)%N then Some c
  else if (n =? 47)%N then Some c
  else if (n =? 98)%N then Some (ascii_of_N 8)
  else if (n =? 102)%N then Some (ascii_of_N 12)
  else if (n =? 110)%N then Some (ascii_of_N 10)
  else if (n =? 114)%N then Some (ascii_of_N 13)
  else if (n =? 116)%N then Some (ascii_of_N 9)
  else None.

(** The characters of a string literal after its opening quote, up to
    and including the closing quote. *)
Fixpoint parse_chars (s : string) (acc : string) : option (string * string) :=
  match s with
  | EmptyString => None
  | String c s' =>
      if (code c =? 34)%N then Some (acc, s')
      else if (code c =? 92)%N then
        match s' with
        | String "u" (String h1 (String h2 (String h3 (String h4 s'')))) =>
            match hex4 h1 h2 h3 h4 with
            | Some n => parse_chars s'' (acc ++ utf8_of_code_unit n)
            | None => None
            end
        | String e s'' =>
            match unescape e with
            | Some x => parse_chars s'' (acc ++ String x EmptyString)
            | None => None
            end
        | EmptyString => None
        end
      else if (code c <? 32)%N then None
      else parse_chars s' (acc ++ String c EmptyString)
  end.

Fixpoint parse_digits (s : string) (acc : N) : N * string :=
  match s with
  | String c s' =>
      if is_digit c then parse_digits s' (acc * 10 + (code c - 48))%N
      else (acc, s)
  | EmptyString => (acc, s)
  end.

(** An integer literal without sign: no leading zero. *)
Definition parse_nat (s : string) : option (N * string) :=
  match s with
  | String c s' =>
      if (code c =? 48)%N then
        match s' with
        | String d _ => if is_digit d then None else Some (0%N, s')
        | EmptyString => Some (0%N, s')
        end
      else if is_digit c then Some (parse_digits s 0%N)
      else None
  | EmptyString => None
  end.

(** The rest of [s] after its first character, when that has code [n]. *)
Definition eat (n : N) (s : string) : option string :=
  match s with
  | String c r => if (code c =? n)%N then Some r else None
  | EmptyString => None
  end.

Definition parse_number (s : string) : option (Z * string) :=
  match eat 45 s with
  | Some s' =>
      match parse_nat s' with
      | Some (n, r) => Some (- Z.of_N n, r)
      | None => None
      end
  | None =>
      match parse_nat s with
      | Some (n, r) => Some (Z.of_N n, r)
      | None => None
      end
  end.

Definition expect (lit : string) (v : json) (s : string) : option (json * string) :=
  if startsWith s lit then Some (v, drop (String.length lit) s) else None.

(** Codes: 34 double quote, 44 comma, 58 colon, 91 and 93 square
    brackets, 123 and 125 braces, 110 n, 116 t, 102 f. *)
Fixpoint parse_value (fuel : nat) (s : string) : option (json * string) :=
  match fuel with
  | O => None
  | S f =>
      match skip_ws s with
      | EmptyString => None
      | String c r =>
          if (code c =? 110)%N then expect "null" JNull (String c r)
          else if (code c =? 116)%N then expect "true" (JBool true) (String c r)
          else if (code c =? 102)%N then expect "false" (JBool false) (String c r)
          else if (code c =? 34)%N then
            match parse_chars r EmptyString with
            | Some (x, r') => Some (JStr x, r')
            | None => None
            end
          else if (code c =? 91)%N then
            match eat 93 (skip_ws r) with
            | Some r' => Some (JArr [], r')
            | None =>
                match parse_elements f r with
                | Some (l, r') => Some (JArr l, r')
                | None => None
                end
            end
          else if (code c =? 123)%N then
            match eat 125 (skip_ws r) with
            | Some r' => Some (JObj [], r')
            | None =>
                match parse_members f r with
                | Some (l, r') => Some (JObj l, r')
                | None => None
                end
            end
          else
            match parse_number (String c r) with
            | Some (z, r') => Some (JNum z, r')
            | None => None
            end
      end
  end

with parse_elements (fuel : nat) (s : string) : option (list json * string) :=
  match fuel with
  | O => None
  | S f =>
      match parse_value f s with
      | Some (x, r) =>
          match eat 93 (skip_ws r) with
          | Some r' => Some ([x], r')
          | None =>
              match eat 44 (skip_ws r) with
              | Some r' =>
                  match parse_elements f r' with
                  | Some (l, r'') => Some (x :: l, r'')
                  | None => None
                  end
              | None => None
              end
          end
      | None => None
      end
  end

with parse_members (fuel : nat) (s : string) : option (list (string * json) * string) :=
  match fuel with
  | O => None
  | S f =>
      match eat 34 (skip_ws s) with
      | Some r =>
          match parse_chars r EmptyString with
          | Some (k, r1) =>
              match eat 58 (skip_ws r1) with
              | Some r2 =>
                  match parse_value f r2 with
                  | Some (x, r3) =>
                      match eat 125 (skip_ws r3) with
                      | Some r' => Some ([(k, x)], r')
                      | None =>
                          match eat 44 (skip_ws r3) with
                          | Some r' =>
                              match parse_members f r' with
                              | Some (l, r'') => Some ((k, x) :: l, r'')
                              | None => None
                              end
                          | None => None
                          end
                      end
                  | None => None
                  end
              | None => None
              end
          | None => None
          end
      | None => None
      end
  end.

(** [JSON.parse(text)] on the texts of such values: numbers are read
    as integers, without fraction or exponent, and an object keeps each
    member it is given; [None] stands for the [SyntaxError] it throws. *)
Definition parse (s : string) : option json :=
  match parse_value (S (String.length s)) s with
  | Some (v, r) => if is_empty (skip_ws r) then Some v else None
  | None => None
  end.

(** [obj[key]] on a plain object. *)
Fixpoint assoc {A : Type} (k : string) (l : list (string * A)) : option A :=
  match l with
  | [] => None
  | (k', v) :: l' => if String.eqb k k' then Some v else assoc k l'
  end.

End Json.

(* ================================================================== *)
(** ** The [md5] package: RFC 1321 over the UTF-8 bytes of the message *)
(* ================================================================== *)

Module Md5.

Definition W : Z := 2 ^ 32.

Definition add32 (a b : Z) : Z := (a + b) mod W.
Definition not32 (a : Z) : Z := W - 1 - a.
Definition rotl32 (x c : Z) : Z :=
  Z.lor (Z.shiftl x c mod W) (Z.shiftr x (32 - c)).

Definition K : list Z :=
  [ 0xd76aa478; 0xe8c7b756; 0x242070db; 0xc1bdceee;
     0xf57c0faf; 0x4787c62a; 0xa8304613; 0xfd469501;
     0x698098d8; 0x8b44f7af; 0xffff5bb1; 0x895cd7be;
     0x6b901122; 0xfd987193; 0xa679438e; 0x49b40821;
     0xf61e2562; 0xc040b340; 0x265e5a51; 0xe9b6c7aa;
     0xd62f105d; 0x02441453; 0xd8a1e681; 0xe7d3fbc8;
     0x21e1cde6; 0xc33707d6; 0xf4d50d87; 0x455a14ed;
     0xa9e3e905; 0xfcefa3f8; 0x676f02d9; 0x8d2a4c8a;
     0xfffa3942; 0x8771f681; 0x6d9d6122; 0xfde5380c;
     0xa4beea44; 0x4bdecfa9; 0xf6bb4b60; 0xbebfbc70;
     0x289b7ec6; 0xeaa127fa; 0xd4ef3085; 0x04881d05;
     0xd9d4d039; 0xe6db99e5; 0x1fa27cf8; 0xc4ac5665;
     0xf4292244; 0x432aff97; 0xab9423a7; 0xfc93a039;
     0x655b59c3; 0x8f0ccc92; 0xffeff47d; 0x85845dd1;
     0x6fa87e4f; 0xfe2ce6e0; 0xa3014314; 0x4e0811a1;
     0xf7537e82; 0xbd3af235; 0x2ad7d2bb; 0xeb86d391 ].

Definition R : list Z :=
  [ 7; 12; 17; 22; 7; 12; 17; 22; 7; 12; 17; 22; 7; 12; 17; 22;
    5; 9; 14; 20; 5; 9; 14; 20; 5; 9; 14; 20; 5; 9; 14; 20;
    4; 11; 16; 23; 4; 11; 16; 23; 4; 11; 16; 23; 4; 11; 16; 23;
    6; 10; 15; 21; 6; 10; 15; 21; 6; 10; 15; 21; 6; 10; 15; 21 ].

Definition bytes_of_string (s : string) : list Z :=
  List.map (fun c => Z.of_N (N_of_ascii c)) (list_ascii_of_string s).

(** [n] as [k] little-endian bytes. *)
Fixpoint le_bytes (k : nat) (n : Z) : list Z :=
  match k with
  | O => []
  | S k' => n mod 256 :: le_bytes k' (n / 256)
  end.

(** The message followed by the bit 1, zero bits up to 448 modulo 512,
    and the bit length on 64 bits. *)
Definition pad (msg : list Z) : list Z :=
  let n := Z.of_nat (List.length msg) in
  let zeros := Z.to_nat ((55 - n) mod 64) in
  msg ++ 128 :: List.repeat 0 zeros ++ le_bytes 8 ((8 * n) mod 2 ^ 64).

Definition word_of (b0 b1 b2 b3 : Z) : Z :=
  b0 + 256 * (b1 + 256 * (b2 + 256 * b3)).

Fixpoint words (bs : list Z) : list Z :=
  match bs with
  | b0 :: b1 :: b2 :: b3 :: bs' => word_of b0 b1 b2 b3 :: words bs'
  | _ => []
  end.

Definition state : Type := Z * Z * Z * Z.

Definition round (M : list Z) (st : state) (i : nat) : state :=
  let '(a, b, c, d) := st in
  let zi := Z.of_nat i in
  let '(f, g) :=
    if zi <? 16 then (Z.lor (Z.land b c) (Z.land (not32 b) d), zi)
    else if zi <? 32 then (Z.lor (Z.land d b) (Z.land (not32 d) c), (5 * zi + 1) mod 16)
    else if zi <? 48 then (Z.lxor (Z.lxor b c) d, (3 * zi + 5) mod 16)
    else (Z.lxor c (Z.lor b (not32 d)), (7 * zi) mod 16) in
  let x := add32 (add32 (add32 a f) (List.nth i K 0)) (List.nth (Z.to_nat g) M 0) in
  (d, add32 b (rotl32 x (List.nth i R 0)), b, c).

Definition block (st : state) (M : list Z) : state :=
  let '(a0, b0, c0, d0) := st in
  let '(a, b, c, d) := List.fold_left (round M) (List.seq 0 64) st in
  (add32 a0 a, add32 b0 b, add32 c0 c, add32 d0 d).

Fixpoint blocks (n : nat) (ws : list Z) (st : state) : state :=
  match n with
  | O => st
  | S n' => blocks n' (List.skipn 16 ws) (block st (List.firstn 16 ws))
  end.

Definition init : state := (0x67452301, 0xefcdab89, 0x98badcfe, 0x10325476).

Definition digest (s : string) : list Z :=
  let ws := words (pad (bytes_of_string s)) in
  let '(a, b, c, d) := blocks (List.length ws / 16) ws init in
  le_bytes 4 a ++ le_bytes 4 b ++ le_bytes 4 c ++ le_bytes 4 d.

Definition hex_byte (b : Z) : string :=
  String (hex_digit (Z.to_N ((b / 16) mod 16)))
    (String (hex_digit (Z.to_N (b mod 16))) EmptyString).

Fixpoint hex (bs : list Z) : string :=
  match bs with
  | [] => EmptyString
  | b :: bs' => hex_byte b ++ hex bs'
  end.

(** [md5(message)]: the digest in lower-case hexadecimal. *)
Definition md5 (s : string) : string := hex (digest s).

End Md5.

(* ================================================================== *)
(** ** Platform models: [path.dirname], the file system, Buffers, URLs *)
(* ================================================================== *)

Module Path.

(** The loop of [path.dirname] (POSIX): [rev_tail] holds the characters
    at indices [i], [i-1], ..., 1; the result is the index [end], or -1. *)
Fixpoint dirname_scan (rev_tail : list ascii) (i : Z) (matchedSlash : bool) : Z :=
  match rev_tail with
  | [] => -1
  | c :: r =>
      if Ascii.eqb c "/"%char then
        if matchedSlash then dirname_scan r (i - 1) true else i
      else dirname_scan r (i - 1) false
  end.

Definition dirname (path : string) : string :=
  match path with
  | EmptyString => "."
  | String c0 tail =>
      let hasRoot := Ascii.eqb c0 "/"%char in
      let stop := dirname_scan (List.rev (list_ascii_of_string tail)) (len path - 1) true in
      if stop =? -1 then (if hasRoot then "/" else ".")
      else if hasRoot && (stop =? 1) then "//"
      else slice0 path stop
  end.

(** The directories [mkdirSync(path, { recursive: true })] walks through:
    every prefix of [path] that ends before a separator, then [path]. *)
Fixpoint ancestors_go (s cur : string) : list string :=
  match s with
  | EmptyString => if is_empty cur then [] else [cur]
  | String c s' =>
      if Ascii.eqb c "/"%char then
        (if is_empty cur || (slice_last cur =? "/")%string then [] else [cur])
          ++ ancestors_go s' (cur ++ "/")
      else ancestors_go s' (cur ++ String c EmptyString)
  end.

Definition ancestors (path : string) : list string := ancestors_go path EmptyString.

End Path.

Module Buffer.

Definition t : Type := list Byte.byte.

(** [Buffer.from(string)] and [buffer.toString()], UTF-8, on bytes that
    are well-formed UTF-8: a string is the bytes of its encoding, and the
    U+FFFD that [toString] puts for an ill-formed sequence is left out. *)
Definition of_string (s : string) : t := list_byte_of_string s.
Definition toString (b : t) : string := string_of_list_byte b.

Definition byte_of_N (n : N) : Byte.byte :=
  match Byte.of_N (n mod 256) with Some b => b | None => Byte.x00 end.

(** The code units of a string, read from its UTF-8 bytes, each reduced
    to its low byte: [Buffer.from(string, 'binary')]. *)
Fixpoint latin1 (s : string) : t :=
  match s with
  | EmptyString => []
  | String c s' =>
      let n := code c in
      if (n <? 128)%N then byte_of_N n :: latin1 s'
      else if (n <? 224)%N then
        match s' with
        | String c1 s1 => byte_of_N ((n mod 32) * 64 + code c1 mod 64) :: latin1 s1
        | EmptyString => [byte_of_N 253]
        end
      else if (n <? 240)%N then
        match s' with
        | String c1 (String c2 s2) =>
            byte_of_N (((n mod 16) * 64 + code c1 mod 64) * 64 + code c2 mod 64) :: latin1 s2
        | _ => [byte_of_N 253]
        end
      else
        match s' with
        | String c1 (String c2 (String c3 s3)) =>
            let cp := ((((n mod 8) * 64 + code c1 mod 64) * 64 + code c2 mod 64) * 64
                       + code c3 mod 64)%N in
            byte_of_N (55296 + (cp - 65536) / 1024)
              :: byte_of_N (56320 + (cp - 65536) mod 1024) :: latin1 s3
        | _ => [byte_of_N 253]
        end
  end.

(** The first argument of [Buffer.from(x, 'binary')]: a Buffer is copied
    and the encoding ignored; a string is encoded. *)
Inductive source : Type :=
| OfBuffer (b : t)
| OfString (s : string).

Definition from_binary (x : source) : t :=
  match x with
  | OfBuffer b => b
  | OfString s => latin1 s
  end.

End Buffer.

Module Fs.

Inductive node : Type :=
| File (content : Buffer.t)
| Dir.

Abbreviation t := (gmap string node).

Definition is_file (fs : t) (p : string) : bool :=
  match fs !! p with Some (File _) => true | _ => false end.

Definition is_dir (fs : t) (p : string) : bool :=
  match fs !! p with
  | Some Dir => true
  | Some (File _) => false
  | None => (p =? ".")%string || (p =? "/")%string
  end.

(** [readFileSync(path)]: [None] when it throws (no such file, or a
    directory). *)
Definition readFileSync (fs : t) (p : string) : option Buffer.t :=
  match fs !! p with
  | Some (File b) => Some b
  | _ => None
  end.

(** The limits of the file system, as Linux has them: 255 bytes for a
    name, and 4096 for a path with the NUL that ends it.  A path beyond
    either fails with ENAMETOOLONG. *)
Definition NAME_MAX : Z := 255.
Definition PATH_MAX : Z := 4096.

(** The length of the longest name between the slashes of a path;
    [cur] counts the name being read. *)
Fixpoint longest_name (p : string) (cur best : nat) : nat :=
  match p with
  | EmptyString => Nat.max cur best
  | String c p' =>
      if Ascii.eqb c "/"%char then longest_name p' O (Nat.max cur best)
      else longest_name p' (S cur) best
  end.

Definition too_long (p : string) : bool :=
  (PATH_MAX <=? JsString.len p) || (NAME_MAX <? Z.of_nat (longest_name p O O)).

(** [mkdirSync(path, { recursive: true })]: throws when the path is too
    long or a component is a regular file, otherwise leaves every
    component a directory. *)
Definition mkdirSync (fs : t) (p : string) : option t :=
  if too_long p then None
  else if List.existsb (is_file fs) (Path.ancestors p) then None
  else Some (List.fold_left (fun m d => <[d := Dir]> m) (Path.ancestors p) fs).

(** [writeFileSync(path, data)]: throws when the path is too long, when
    [path] is a directory or when its parent is not one, otherwise
    creates or replaces the file. *)
Definition writeFileSync (fs : t) (p : string) (b : Buffer.t) : option t :=
  if too_long p then None
  else if is_dir fs p then None
  else if is_dir fs (Path.dirname p) then Some (<[p := File b]> fs)
  else None.

End Fs.

Module Url.

Record t : Type := mk {
  href : string;
  origin : string;
  host : string;
  pathname : string
}.

Definition is_c0_or_space (c : ascii) : bool := (code c <=? 32)%N.

Fixpoint trim_left (s : string) : string :=
  match s with
  | String c s' => if is_c0_or_space c then trim_left s' else s
  | EmptyString => s
  end.

Fixpoint rev_go (s acc : string) : string :=
  match s with
  | EmptyString => acc
  | String c s' => rev_go s' (String c acc)
  end.

Definition rev (s : string) : string := rev_go s EmptyString.

Definition trim (s : string) : string := rev (trim_left (rev (trim_left s))).

Definition is_scheme_char (c : ascii) : bool :=
  is_alpha c || is_digit c || Ascii.eqb c "+"%char || Ascii.eqb c "-"%char
  || Ascii.eqb c "."%char.

(** The scheme in lower case and what follows its colon. *)
Fixpoint scheme_go (s acc : string) : option (string * string) :=
  match s with
  | EmptyString => None
  | String c s' =>
      if Ascii.eqb c ":"%char then Some (toLowerCase acc, s')
      else if is_scheme_char c then scheme_go s' (acc ++ String c EmptyString)
      else None
  end.

Definition split_scheme (s : string) : option (string * string) :=
  match s with
  | String c _ => if is_alpha c then scheme_go s EmptyString else None
  | EmptyString => None
  end.

(** The longest prefix without a character of [stops], and the rest. *)
Fixpoint span_until (stops : list ascii) (s acc : string) : string * string :=
  match s with
  | EmptyString => (acc, s)
  | String c s' =>
      if List.existsb (Ascii.eqb c) stops then (acc, s)
      else span_until stops s' (acc ++ String c EmptyString)
  end.

Fixpoint strip_slashes (s : string) : string :=
  match s with
  | String c s' =>
      if Ascii.eqb c "/"%char || Ascii.eqb c BACKSLASH then strip_slashes s' else s
  | EmptyString => s
  end.

Fixpoint all_digits (s : string) : bool :=
  match s with
  | EmptyString => true
  | String c s' => is_digit c && all_digits s'
  end.

Definition default_port (scheme : string) : string :=
  if (scheme =? "http")%string || (scheme =? "ws")%string then "80"
  else if (scheme =? "https")%string || (scheme =? "wss")%string then "443"
  else if (scheme =? "ftp")%string then "21"
  else EmptyString.

Definition is_special (scheme : string) : bool :=
  List.existsb (String.eqb scheme) ["http"; "https"; "ws"; "wss"; "ftp"].

(** Host and port in lower case, the scheme's default port dropped;
    [None] for a port that is not a number. *)
Definition host_of (scheme hostport : string) : option string :=
  let '(name, rest) := span_until [":"%char] (toLowerCase hostport) EmptyString in
  match rest with
  | EmptyString => Some name
  | String _ port =>
      if negb (all_digits port) then None
      else if is_empty port || (port =? default_port scheme)%string then Some name
      else Some (name ++ ":" ++ port)
  end.

Fixpoint backslash_to_slash (s : string) : string :=
  match s with
  | EmptyString => EmptyString
  | String c s' =>
      String (if Ascii.eqb c BACKSLASH then "/"%char else c) (backslash_to_slash s')
  end.

(** [new URL(input)] without a base, on absolute URLs whose authority
    has no credentials and whose path needs neither dot-segment removal
    nor percent-encoding; [None] stands for [TypeError: Invalid URL],
    which is what an input without a scheme gets. *)
Definition parse (input : string) : option t :=
  match split_scheme (trim input) with
  | None => None
  | Some (scheme, rest) =>
      if is_special scheme then
        let '(authority, rest1) :=
          span_until ["/"%char; BACKSLASH; "?"%char; "#"%char] (strip_slashes rest)
            EmptyString in
        let '(path, rest2) := span_until ["?"; "#"]%char rest1 EmptyString in
        match host_of scheme authority with
        | None => None
        | Some h =>
            if is_empty h then None
            else
              let p := if is_empty path then "/" else backslash_to_slash path in
              Some {| href := scheme ++ "://" ++ h ++ p ++ rest2;
                      origin := scheme ++ "://" ++ h;
                      host := h;
                      pathname := p |}
        end
      else
        let '(path, rest2) := span_until ["?"; "#"]%char rest EmptyString in
        Some {| href := scheme ++ ":" ++ rest;
                origin := "null";
                host := EmptyString;
                pathname := path |}
  end.

Definition hex2 (a b : ascii) : option N :=
  match hex_value a, hex_value b with
  | Some x, Some y => Some (x * 16 + y)%N
  | _, _ => None
  end.

(** What a lead byte of UTF-8 announces: the number of continuation
    bytes and the range of the first of them.  The ranges after E0, ED,
    F0 and F4 leave out the overlong forms, the surrogates D800-DFFF and
    the code points above 10FFFF; C0, C1 and F5-FF never lead. *)
Definition lead (n : N) : option (nat * N * N) :=
  if (n <? 128)%N then Some (O, 128, 191)%N
  else if ((194 <=? n) && (n <? 224))%N then Some (1%nat, 128, 191)%N
  else if (n =? 224)%N then Some (2%nat, 160, 191)%N
  else if (n =? 237)%N then Some (2%nat, 128, 159)%N
  else if ((225 <=? n) && (n <? 240))%N then Some (2%nat, 128, 191)%N
  else if (n =? 240)%N then Some (3%nat, 144, 191)%N
  else if (n =? 244)%N then Some (3%nat, 128, 143)%N
  else if ((241 <=? n) && (n <? 244))%N then Some (3%nat, 128, 191)%N
  else None.

(** Percent-decoding; [pending] counts the continuation bytes the
    current UTF-8 sequence still needs, each of them escaped, and
    [lo]..[hi] is the range of the next one. *)
Fixpoint decode_go (s : string) (pending : nat) (lo hi : N) : option string :=
  match s with
  | EmptyString => match pending with O => Some EmptyString | S _ => None end
  | String "%" (String a (String b s')) =>
      match hex2 a b with
      | None => None
      | Some n =>
          let next :=
            match pending with
            | S k => if ((lo <=? n) && (n <=? hi))%N then Some (k, 128, 191)%N else None
            | O => lead n
            end in
          match next with
          | None => None
          | Some (k, lo', hi') =>
              match decode_go s' k lo' hi' with
              | Some r => Some (String (ascii_of_N n) r)
              | None => None
              end
          end
      end
  | String c s' =>
      if Ascii.eqb c "%"%char then None
      else
        match pending with
        | S _ => None
        | O =>
            match decode_go s' O lo hi with
            | Some r => Some (String c r)
            | None => None
            end
        end
  end.

(** [decodeURIComponent(x)]: [undefined] is first turned into the
    string "undefined"; [None] stands for the [URIError] it throws. *)
Definition decodeURIComponent (x : option string) : option string :=
  match x with
  | None => Some "undefined"
  | Some s => decode_go s O 128 191
  end.

End Url.

(* ================================================================== *)
(** ** Express: the route that takes a request *)
(* ================================================================== *)

Module Express.

Fixpoint every (f : ascii -> bool) (s : string) : bool :=
  match s with
  | EmptyString => true
  | String c s' => f c && every f s'
  end.

Definition one_of (codes : list N) (c : ascii) : bool :=
  List.existsb (N.eqb (code c)) codes.

Definition utf8 (bytes : list N) : string :=
  List.fold_right (fun n s => String (ascii_of_N n) s) EmptyString bytes.

Definition before_query (s : string) : string :=
  fst (Url.span_until ["?"%char] s EmptyString).

(** [parseurl] cuts the path itself from a target that starts with a
    slash and holds no tab, line feed, form feed, carriage return,
    space, "#", U+00A0 or U+FEFF; any other target it hands to Node's
    [url.parse]. *)
Definition fast_path (url : string) : bool :=
  startsWith url "/"
  && every (fun c => negb (one_of [9; 10; 12; 13; 32; 35]%N c)) url
  && negb (includes url (utf8 [194; 160]%N))
  && negb (includes url (utf8 [239; 187; 191]%N)).

Definition host_char (c : ascii) : bool :=
  is_digit c || ((97 <=? code c) && (code c <=? 122))%N || one_of [45; 46]%N c.

(** Printable ASCII other than the characters [url.parse] escapes
    (double and single quote, angle brackets, backslash, caret, backquote,
    braces and bar) and "#". *)
Definition plain_char (c : ascii) : bool :=
  ((33 <=? code c) && (code c <=? 126))%N
  && negb (one_of [34; 35; 39; 60; 62; 92; 94; 96; 123; 124; 125]%N c).

(** The pathname [url.parse] gives an absolute-form target that it takes
    apart without rewriting: "http://" or "https://", a host name of at
    most 63 lower-case letters, digits, dots and hyphens, an optional
    port, then nothing, or a path and query of plain characters.  The
    pathname is the text from the host to the first "?", or "/" when
    there is none.  [None]: the target is not of this form. *)
Definition absolute_form (url : string) : option string :=
  let rest :=
    if startsWith url "http://" then Some (substring url 7)
    else if startsWith url "https://" then Some (substring url 8)
    else None in
  match rest with
  | None => None
  | Some rest =>
      let '(authority, tail) := Url.span_until ["/"%char; "?"%char] rest EmptyString in
      let '(name, port) := Url.span_until [":"%char] authority EmptyString in
      if negb (is_empty name) && (len name <=? 63) && every host_char name
         && match port with
            | EmptyString => true
            | String _ digits => Url.all_digits digits
            end
         && every plain_char tail
      then Some (if is_empty (before_query tail) then "/" else before_query tail)
      else None
  end.

(** [parseurl(req).pathname] for [req.url = url].  A target that leaves
    the fast path and starts with "/?" has the pathname "/" in
    [url.parse] too; [other] stands for the pathname [url.parse] gives
    the remaining targets, [None] when it gives none. *)
Definition pathname (other : string -> option string) (url : string) : option string :=
  if fast_path url then Some (before_query url)
  else if startsWith url "/?" then Some "/"
  else
    match absolute_form url with
    | Some p => Some p
    | None => other url
    end.

(** The outcome of the router: the handler of [app.all("/", ...)], the
    handler of [app.all("/*", ...)], or the final handler of Express with
    its status when no route takes the request. *)
Inductive route : Type :=
| Root
| Star
| Final (status : Z).

(** What the star of a route pattern matches: any text without a line
    terminator. *)
Definition dot_star (s : string) : bool :=
  every (fun c => negb (one_of [10; 13]%N c)) s
  && negb (includes s (utf8 [226; 128; 168]%N))
  && negb (includes s (utf8 [226; 128; 169]%N)).

(** The routes are tried in the order of their registration.  The
    pattern of the first matches the empty pathname and "/"; the pattern
    of the second matches a slash followed by any text, which the star
    captures.  The router decodes the capture before it calls the
    handler, and a capture that does not decode ends the request with
    status 400.  A request without a pathname, or one that no route
    matches, ends with 404. *)
Definition route_of (pathname : option string) : route :=
  match pathname with
  | None => Final 404
  | Some p =>
      if is_empty p || (p =? "/")%string then Root
      else if startsWith p "/" && dot_star (substring p 1) then
        match Url.decodeURIComponent (Some (substring p 1)) with
        | Some _ => Star
        | None => Final 400
        end
      else Final 404
  end.

End Express.

(* ================================================================== *)
(** ** The server: state, effects and the methods of [MockServer] *)
(* ================================================================== *)

Inductive error : Type :=
| TypeError (msg : string)
| URIError (msg : string)
| SyntaxError (msg : string)
| FsError (syscall path : string)
| NetworkError (msg : string).

(** What [console.log] receives: a message or a caught error. *)
Inductive log_item : Type :=
| Msg (s : string)
| Err (e : error).

(** The canonical request.  The HTTP normaliser builds
    [{ host, pathname, href, method, headers, body }], the socket handler
    [{ host, href, data, pathname, method }]. *)
Inductive shape : Type :=
| HttpShape (headers : list (string * string)) (body : json)
| SocketShape (data : json).

Record requestData : Type := mkRequestData {
  host : string;
  pathname : string;
  href : string;
  method : string;
  rest : shape
}.

Record snapshotFiles : Type := mkSnapshotFiles {
  directory : string;
  info_file : string;
  data_file : string
}.

Record snapshotData : Type := mkSnapshotData {
  data : Buffer.t;
  info : json;
  request : requestData
}.

(** The options object handed to [axios]. *)
Record axiosOptions : Type := mkAxiosOptions {
  opt_url : string;
  opt_method : string;
  opt_headers : option (list (string * string));
  opt_data : option json;
  opt_responseType : string
}.

(** An axios response: the body, and the other fields ([status],
    [statusText], [headers], [config], [request]) as they serialise. *)
Record axiosResponse : Type := mkAxiosResponse {
  resp_data : Buffer.t;
  resp_fields : list (string * json)
}.

(** A live call to an origin. *)
Inductive upstreamCall : Type :=
| HttpCall (o : axiosOptions)
| SocketCall (target : string) (message : json).

(** What is done to the Express response object: [res.set] and
    [res.send] by the handler, or the answer of Express's final handler
    with its status. *)
Inductive resAction : Type :=
| ResSet (field : string) (value : option json)
| ResSend (body : option Buffer.t)
| ResFinal (status : Z).

(** A registered [message] listener with the variables it closes over. *)
Record listener : Type := mkListener {
  l_url : string;
  l_href : string;
  l_host : string
}.

Record World : Type := mkWorld {
  fs : gmap string Fs.node;
  console : list log_item;
  upstream : list upstreamCall;
  response : list resAction;
  disconnected : list nat;
  listeners : list (nat * listener);
  replies : list (nat * json)
}.

(** The collaborators outside the engine: the origins reached through
    axios and socket.io-client (their answer may depend on the calls made
    before), the port the process was started with, and the pathname
    Node's [url.parse] gives the request targets that [Express.pathname]
    does not take apart itself. *)
Record Platform : Type := mkPlatform {
  axios : list upstreamCall -> axiosOptions -> error + axiosResponse;
  emit : list upstreamCall -> string -> json -> option json;
  port : string;
  url_parse : string -> option string
}.

Record MockServer : Type := mkMockServer {
  logAll : bool
}.

(** *** Effects: a state over [World] with exceptions; [Pending] is a
    promise that never settles. *)

Inductive result (A : Type) : Type :=
| Ok (a : A)
| Throw (e : error)
| Pending.

Arguments Ok {A} a.
Arguments Throw {A} e.
Arguments Pending {A}.

Definition M (A : Type) : Type := World -> result A * World.

Definition ret {A : Type} (a : A) : M A := fun w => (Ok a, w).

Definition throw {A : Type} (e : error) : M A := fun w => (Throw e, w).

Definition bind {A B : Type} (m : M A) (k : A -> M B) : M B :=
  fun w =>
    match m w with
    | (Ok a, w') => k a w'
    | (Throw e, w') => (Throw e, w')
    | (Pending, w') => (Pending, w')
    end.

(** [try { m } catch (err) { h err }] *)
Definition try_catch {A : Type} (m : M A) (h : error -> M A) : M A :=
  fun w =>
    match m w with
    | (Throw e, w') => h e w'
    | r => r
    end.

(** The body of a callback that an emitter runs: what it throws goes to
    the emitter, not to the code that waits for the promise the callback
    was to resolve, and that promise stays pending. *)
Definition in_callback {A : Type} (m : M A) : M A :=
  fun w =>
    match m w with
    | (Throw e, w') => (Pending, w')
    | r => r
    end.

Notation "x <- m ;; k" := (bind m (fun x => k))
  (at level 100, m at next level, right associativity).
Notation "m ;;; k" := (bind m (fun _ => k))
  (at level 100, right associativity).

Definition set_fs (f : gmap string Fs.node) (w : World) : World :=
  mkWorld f (console w) (upstream w) (response w) (disconnected w) (listeners w) (replies w).

Definition add_console (x : log_item) (w : World) : World :=
  mkWorld (fs w) (console w ++ [x]) (upstream w) (response w) (disconnected w)
    (listeners w) (replies w).

Definition add_upstream (c : upstreamCall) (w : World) : World :=
  mkWorld (fs w) (console w) (upstream w ++ [c]) (response w) (disconnected w)
    (listeners w) (replies w).

Definition add_response (a : resAction) (w : World) : World :=
  mkWorld (fs w) (console w) (upstream w) (response w ++ [a]) (disconnected w)
    (listeners w) (replies w).

Definition add_disconnected (id : nat) (w : World) : World :=
  mkWorld (fs w) (console w) (upstream w) (response w) (disconnected w ++ [id])
    (listeners w) (replies w).

Definition add_listener (id : nat) (l : listener) (w : World) : World :=
  mkWorld (fs w) (console w) (upstream w) (response w) (disconnected w)
    (listeners w ++ [(id, l)]) (replies w).

Definition add_reply (id : nat) (v : json) (w : World) : World :=
  mkWorld (fs w) (console w) (upstream w) (response w) (disconnected w)
    (listeners w) (replies w ++ [(id, v)]).

(** *** Platform calls as effects *)

Definition readFileSync (p : string) : M Buffer.t :=
  fun w =>
    match Fs.readFileSync (fs w) p with
    | Some b => (Ok b, w)
    | None => (Throw (FsError "open" p), w)
    end.

Definition mkdirSync (p : string) : M unit :=
  fun w =>
    match Fs.mkdirSync (fs w) p with
    | Some f => (Ok tt, set_fs f w)
    | None => (Throw (FsError "mkdir" p), w)
    end.

Definition writeFileSync (p : string) (b : Buffer.t) : M unit :=
  fun w =>
    match Fs.writeFileSync (fs w) p b with
    | Some f => (Ok tt, set_fs f w)
    | None => (Throw (FsError "open" p), w)
    end.

Definition JSON_parse (text : string) : M json :=
  match Json.parse text with
  | Some v => ret v
  | None => throw (SyntaxError "Unexpected token in JSON")
  end.

Definition new_URL (input : string) : M Url.t :=
  match Url.parse input with
  | Some u => ret u
  | None => throw (TypeError "Invalid URL")
  end.

Definition decodeURIComponent (x : option string) : M string :=
  match Url.decodeURIComponent x with
  | Some s => ret s
  | None => throw (URIError "URI malformed")
  end.

(** [await axios(options)]: the call is made, then it resolves or rejects. *)
Definition call_axios (P : Platform) (o : axiosOptions) : M axiosResponse :=
  fun w =>
    match axios P (upstream w) o with
    | inr r => (Ok r, add_upstream (HttpCall o) w)
    | inl e => (Throw e, add_upstream (HttpCall o) w)
    end.

(** [proxySocket.emit("message", data, ack)]: the acknowledgement arrives
    with the origin's response, or never. *)
Definition call_emit (P : Platform) (target : string) (message : json) : M json :=
  fun w =>
    match emit P (upstream w) target message with
    | Some r => (Ok r, add_upstream (SocketCall target message) w)
    | None => (Pending, add_upstream (SocketCall target message) w)
    end.

Definition res_set (field : string) (value : option json) : M unit :=
  fun w => (Ok tt, add_response (ResSet field value) w).

Definition res_send (body : option Buffer.t) : M unit :=
  fun w => (Ok tt, add_response (ResSend body) w).

Definition res_final (status : Z) : M unit :=
  fun w => (Ok tt, add_response (ResFinal status) w).

Definition socket_disconnect (id : nat) : M unit :=
  fun w => (Ok tt, add_disconnected id w).

Definition socket_on_message (id : nat) (l : listener) : M unit :=
  fun w => (Ok tt, add_listener id l w).

Definition callback (id : nat) (v : json) : M unit :=
  fun w => (Ok tt, add_reply id v w).

(** [x.key] where [x] may be [undefined]: reading a property of
    [undefined] or [null] throws, of another primitive gives [undefined]. *)
Definition get_prop (x : option json) (key : string) : M (option json) :=
  match x with
  | None => throw (TypeError "Cannot read properties of undefined")
  | Some JNull => throw (TypeError "Cannot read properties of null")
  | Some (JObj l) => ret (Json.assoc key l)
  | Some _ => ret None
  end.

(** [{ ...o, [k]: v }] *)
Fixpoint obj_set {A : Type} (o : list (string * A)) (k : string) (v : A) : list (string * A) :=
  match o with
  | [] => [(k, v)]
  | (k', v') :: o' =>
      if String.eqb k k' then (k, v) :: o' else (k', v') :: obj_set o' k v
  end.

(** [delete o[k]] *)
Definition obj_delete {A : Type} (o : list (string * A)) (k : string) : list (string * A) :=
  List.filter (fun kv => negb (String.eqb k (fst kv))) o.

(** The request as [JSON.stringify] walks it: own keys in the order of the
    object literal that built it. *)
Definition json_of_headers (h : list (string * string)) : json :=
  JObj (List.map (fun kv => (fst kv, JStr (snd kv))) h).

Definition json_of_requestData (r : requestData) : json :=
  match rest r with
  | HttpShape headers body =>
      JObj [("host", JStr (host r)); ("pathname", JStr (pathname r));
            ("href", JStr (href r)); ("method", JStr (method r));
            ("headers", json_of_headers headers); ("body", body)]
  | SocketShape d =>
      JObj [("host", JStr (host r)); ("href", JStr (href r)); ("data", d);
            ("pathname", JStr (pathname r)); ("method", JStr (method r))]
  end.

Definition headers_of (r : requestData) : option (list (string * string)) :=
  match rest r with HttpShape h _ => Some h | SocketShape _ => None end.

Definition body_of (r : requestData) : option json :=
  match rest r with HttpShape _ b => Some b | SocketShape _ => None end.

Definition data_of (r : requestData) : option json :=
  match rest r with HttpShape _ _ => None | SocketShape d => Some d end.

(** *** src/index.js *)

Definition SNAPSHOT_DIR : string := "__mock-server-snapshots__".

(** An inbound Express request, as far as the handlers read it. *)
Record Request : Type := mkRequest {
  req_url : string;
  req_method : string;
  req_headers : list (string * string);
  req_body : json
}.

Section Server.

Variable P : Platform.
Variable this : MockServer.

(** [log(message, force)] *)
Definition log (message : log_item) (force : bool) : M unit :=
  fun w => if logAll this || force then (Ok tt, add_console message w) else (Ok tt, w).

(** [getSnapshotFiles(requestData)] *)
Definition uniqueReqId (r : requestData) : string :=
  Md5.md5 (Json.stringify (json_of_requestData r)).

Definition snapshotBase (r : requestData) : string :=
  SNAPSHOT_DIR ++ "/" ++ host r
    ++ (if (slice_last (pathname r) =? "/")%string then pathname r ++ "index"
        else pathname r)
    ++ "." ++ method r ++ "." ++ uniqueReqId r.

Definition getSnapshotFiles (r : requestData) : snapshotFiles :=
  {| directory := Path.dirname (snapshotBase r);
     info_file := snapshotBase r ++ ".json";
     data_file := snapshotBase r ++ ".data" |}.

(** [fetchFromSnapshot(requestData)]: [None] is the [undefined] the
    function returns after its [catch]. *)
Definition fetchFromSnapshot (r : requestData) : M (option snapshotData) :=
  try_catch
    (let snapshotFiles := getSnapshotFiles r in
     text <- readFileSync (info_file snapshotFiles) ;;
     i <- JSON_parse (Buffer.toString text) ;;
     d <- readFileSync (data_file snapshotFiles) ;;
     log (Msg ("[snapshot] fetched snapshot from " ++ info_file snapshotFiles)) false ;;;
     ret (Some {| data := d; info := i; request := r |}))
    (fun err =>
       log (Msg ("[warning] no snapshot file found for path " ++ href r
                 ++ " fetching from remote")) false ;;;
       ret None).

(** [saveSnapshot({ data, info, requestData })] *)
Definition saveSnapshot (s : snapshotData) : M unit :=
  let snapshotFiles := getSnapshotFiles (request s) in
  mkdirSync (directory snapshotFiles) ;;;
  writeFileSync (info_file snapshotFiles) (Buffer.of_string (Json.stringify (info s))) ;;;
  writeFileSync (data_file snapshotFiles) (Buffer.from_binary (Buffer.OfBuffer (data s))) ;;;
  log (Msg ("[snapshot] saved snapshot to " ++ info_file snapshotFiles)) false.

(** [fetchFromServer(requestData)], awaited. *)
Definition fetchFromServer (r : requestData) : M (option snapshotData) :=
  try_catch
    (let options :=
       {| opt_url := href r; opt_method := method r; opt_headers := headers_of r;
          opt_data := body_of r; opt_responseType := "arraybuffer" |} in
     resp <- call_axios P options ;;
     let i := JObj (obj_delete (resp_fields resp) "request") in
     let snapshotData := {| data := resp_data resp; info := i; request := r |} in
     log (Msg ("[http] fetched data from " ++ href r)) false ;;;
     saveSnapshot snapshotData ;;;
     ret (Some snapshotData))
    (fun err => log (Err err) false ;;; ret None).

(** The allow-list reduction at the head of [recordReplayData]: a header
    that is missing or empty is falsy and leaves the accumulator as is. *)
Definition allowList : list string := ["Content-Type"; "user-agent"; "Authorization"].

Definition pickHeaders (fullHeaders : list (string * string)) : list (string * string) :=
  List.fold_left
    (fun o k =>
       match Json.assoc k fullHeaders with
       | None => o
       | Some v => if is_empty v then o else obj_set o k v
       end)
    allowList [].

(** [recordReplayData(req)], awaited, in its two halves: the
    normaliser (lines 162-189) builds the canonical request, the
    orchestrator (lines 191-201) replays or records it.
    [fetchFromServer] is called without [await]: the promise it returns
    is truthy, so it is what the function returns and its value is
    what the caller's [await] gets; the final [return null] is never
    reached. *)
Definition normalizeRequest (req : Request) : M requestData :=
  let headers := pickHeaders (req_headers req) in
  target <- decodeURIComponent (Some (req_url req)) ;;
  u <- new_URL target ;;
  log (Msg ("[http] a client connected proxying " ++ Url.href u)) false ;;;
  ret {| host := Url.host u; pathname := Url.pathname u; href := Url.href u;
         method := req_method req; rest := HttpShape headers (req_body req) |}.

Definition replayOrFetch (requestData : requestData) : M (option snapshotData) :=
  snapshotData <- fetchFromSnapshot requestData ;;
  match snapshotData with
  | Some s => ret (Some s)
  | None => fetchFromServer requestData
  end.

Definition recordReplayData (req : Request) : M (option snapshotData) :=
  requestData <- normalizeRequest req ;;
  replayOrFetch requestData.

(** [fetchFromSocketIOServer(requestData)], awaited: the promise is
    resolved at the end of the acknowledgement callback, which runs when
    the origin acknowledges the message. *)
Definition fetchFromSocketIOServer (r : requestData) : M (option snapshotData) :=
  let d := match data_of r with Some d => d | None => JNull end in
  resp <- call_emit P (href r) d ;;
  in_callback
    (log (Msg "[socket.io] got response from proxied server") false ;;;
     let snapshotData :=
       {| data := Buffer.from_binary (Buffer.OfString (Json.stringify resp));
          info := json_of_requestData r;
          request := r |} in
     saveSnapshot snapshotData ;;;
     ret (Some snapshotData)).

(** [recordReplaySocketIO(requestData)], awaited. *)
Definition recordReplaySocketIO (r : requestData) : M (option snapshotData) :=
  snapshotData <- fetchFromSnapshot r ;;
  match snapshotData with
  | Some s => ret (Some s)
  | None =>
      serverData <- fetchFromSocketIOServer r ;;
      match serverData with
      | Some s => ret (Some s)
      | None => ret None
      end
  end.

(** The two rewrites at the head of [serveHttpData]; they run outside
    its [try]. *)
Definition fromSubdomain (req : Request) : M string :=
  let url := req_url req in
  if indexOf url "http" =? -1 then
    match Json.assoc "host" (req_headers req) with
    | None => throw (TypeError "Cannot read properties of undefined (reading 'indexOf')")
    | Some h =>
        if negb (indexOf h (".localhost:" ++ port P) =? -1)
        then ret ("https://" ++ replace h (".localhost:" ++ port P) EmptyString ++ "/" ++ url)
        else ret url
    end
  else ret url.

Definition fromReferer (req : Request) (url : string) : M string :=
  if indexOf url "http" =? -1 then
    match Json.assoc "referer" (req_headers req) with
    | None => ret url
    | Some referer =>
        if is_empty referer then ret url
        else
          u <- new_URL (substring referer (indexOf referer "/http" + 1)) ;;
          ret (Url.origin u ++ "/" ++ url)
    end
  else ret url.

(** [serveHttpData(req, res)]: the two rewrites, then the [try] block
    (lines 261-270) on the rewritten request. *)
Definition serveResolved (req : Request) : M unit :=
  try_catch
    (r <- recordReplayData req ;;
     match r with
     | None => throw (TypeError "Cannot destructure property 'data' of undefined")
     | Some s =>
         h <- get_prop (Some (info s)) "headers" ;;
         ct <- get_prop h "content-type" ;;
         res_set "Content-Type" ct ;;;
         log (Msg "[http] serving data to client") false ;;;
         res_send (Some (Buffer.from_binary (Buffer.OfBuffer (data s))))
     end)
    (fun error => log (Err error) false ;;; res_send None).

Definition with_url (req : Request) (url : string) : Request :=
  mkRequest url (req_method req) (req_headers req) (req_body req).

Definition serveHttpData (req : Request) : M unit :=
  url1 <- fromSubdomain req ;;
  url2 <- fromReferer req url1 ;;
  serveResolved (with_url req url2).

(** The routes of [start], and the request in the hands of Express's
    router. *)
Definition rootRoute (req : Request) : M unit :=
  let url :=
    if negb (indexOf (req_url req) "/?url=" =? -1)
    then List.nth 1 (split (req_url req) "/?url=") EmptyString
    else req_url req in
  serveHttpData (with_url req url).

Definition starRoute (req : Request) : M unit :=
  let url := substring (req_url req) 1 in
  serveHttpData (with_url req url).

Definition handleHttp (req : Request) : M unit :=
  match Express.route_of (Express.pathname (url_parse P) (req_url req)) with
  | Express.Root => rootRoute req
  | Express.Star => starRoute req
  | Express.Final status => res_final status
  end.

(** The [connection] listener of [start]; [url] is
    [socket.handshake.query.url], [id] names the socket. *)
Definition onConnection (id : nat) (url : option string) : M unit :=
  (match url with
   | Some (String _ _) => ret tt
   | _ =>
       log (Msg "[socket.io] a client tried to connect with blank url...") false ;;;
       socket_disconnect id
   end) ;;;
  target <- decodeURIComponent url ;;
  u <- new_URL target ;;
  let shown := match url with Some s => s | None => "undefined" end in
  log (Msg ("[socket.io] a client connected proxying " ++ shown)) false ;;;
  socket_on_message id {| l_url := shown; l_href := Url.href u; l_host := Url.host u |}.

(** The [message] listener registered by [onConnection]. *)
Definition onMessage (id : nat) (l : listener) (d : json) : M unit :=
  log (Msg ("[socket.io] received message from client proxying " ++ l_url l)) false ;;;
  let requestData :=
    {| host := l_host l; href := l_href l; pathname := "/socket.io/";
       method := "websocket"; rest := SocketShape d |} in
  r <- recordReplaySocketIO requestData ;;
  match r with
  | None => throw (TypeError "Cannot destructure property 'data' of null")
  | Some s =>
      log (Msg ("[socket.io] sending response to client proxying " ++ l_url l)) false ;;;
      v <- JSON_parse (Buffer.toString (data s)) ;;
      callback id v
  end.

(** socket.io hands an incoming message to the listeners of a socket
    that is still connected. *)
Fixpoint deliver_to (id : nat) (d : json) (ls : list (nat * listener)) : M unit :=
  match ls with
  | [] => ret tt
  | (id', l) :: ls' =>
      if Nat.eqb id id' then onMessage id l d ;;; deliver_to id d ls'
      else deliver_to id d ls'
  end.

Definition deliver (id : nat) (d : json) : M unit :=
  fun w =>
    if List.existsb (Nat.eqb id) (disconnected w) then (Ok tt, w)
    else deliver_to id d (listeners w) w.

End Server.

(* ================================================================== *)
(** ** Vocabulary of the properties *)
(* ================================================================== *)

Module JsonSpec.
Import Json.

(** Induction on values with the elements of arrays and objects. *)
Definition json_ind (Q : json -> Prop)
    (Hnull : Q JNull) (Hbool : forall b, Q (JBool b)) (Hnum : forall z, Q (JNum z))
    (Hstr : forall s, Q (JStr s))
    (Harr : forall l, Forall Q l -> Q (JArr l))
    (Hobj : forall l, Forall (fun kv => Q (snd kv)) l -> Q (JObj l)) :
  forall v, Q v :=
  fix go (v : json) : Q v :=
    match v with
    | JNull => Hnull
    | JBool b => Hbool b
    | JNum z => Hnum z
    | JStr s => Hstr s
    | JArr l =>
        Harr l ((fix all (l : list json) : Forall Q l :=
                   match l with
                   | [] => @List.Forall_nil _ Q
                   | x :: l' => @List.Forall_cons _ Q x l' (go x) (all l')
                   end) l)
    | JObj l =>
        Hobj l ((fix all (l : list (string * json)) : Forall (fun kv => Q (snd kv)) l :=
                   match l with
                   | [] => @List.Forall_nil _ _
                   | kv :: l' => @List.Forall_cons _ (fun kv => Q (snd kv)) kv l' (go (snd kv)) (all l')
                   end) l)
    end.

(** The two loops of [stringify], named. *)
Fixpoint elems (l : list json) : string :=
  match l with
  | [] => EmptyString
  | [x] => stringify x
  | x :: l' => stringify x ++ String "," (elems l')
  end.

Fixpoint members (l : list (string * json)) : string :=
  match l with
  | [] => EmptyString
  | [(k, x)] => quote k ++ String ":" (stringify x)
  | (k, x) :: l' => quote k ++ String ":" (stringify x ++ String "," (members l'))
  end.

(** The parser stops a number at the first character that is no digit. *)
Definition no_digit_ahead (r : string) : Prop :=
  match r with
  | EmptyString => True
  | String c _ => is_digit c = false
  end.


(** Fuel that [parse_value] needs for a value. *)
Fixpoint size (v : json) : nat :=
  match v with
  | JArr l => S (List.fold_right (fun x n => S (size x + n)) O l)
  | JObj l => S (List.fold_right (fun kv n => S (size (snd kv) + n)) O l)
  | _ => 1
  end.

Definition size_elems (l : list json) : nat :=
  List.fold_right (fun x n => S (size x + n)) O l.

Definition size_members (l : list (string * json)) : nat :=
  List.fold_right (fun kv n => S (size (snd kv) + n)) O l.

(** A serialised value starts with a character that is neither white
    space nor a closing bracket. *)
Definition starts_value (s : string) : Prop :=
  match s with
  | EmptyString => False
  | String c _ =>
      is_ws c = false /\ (code c =? 93)%N = false /\ (code c =? 125)%N = false
  end.

Definition round_trips (v : json) : Prop :=
  forall (fuel : nat) (r : string),
    (size v <= fuel)%nat -> no_digit_ahead r ->
    parse_value fuel (stringify v ++ r) = Some (v, r).


End JsonSpec.

(** The world after [log(message)] without [force]. *)
Definition logw (this : MockServer) (m : log_item) (w : World) : World :=
  if logAll this then add_console m w else w.

(** The options [fetchFromServer] hands to axios. *)
Definition options_of (r : requestData) : axiosOptions :=
  {| opt_url := href r; opt_method := method r; opt_headers := headers_of r;
     opt_data := body_of r; opt_responseType := "arraybuffer" |}.

(** The record [fetchFromServer] builds from a response. *)
Definition record_of (r : requestData) (resp : axiosResponse) : snapshotData :=
  {| data := resp_data resp;
     info := JObj (obj_delete (resp_fields resp) "request");
     request := r |}.

(** The message [fetchFromSocketIOServer] emits and the record it builds
    from the acknowledgement. *)
Definition message_of (r : requestData) : json :=
  match data_of r with Some d => d | None => JNull end.

Definition reply_of (r : requestData) (resp : json) : snapshotData :=
  {| data := Buffer.from_binary (Buffer.OfString (Json.stringify resp));
     info := json_of_requestData r;
     request := r |}.

Module Store.

(** What a lookup finds under a key: the parsed metadata and the payload,
    when both artifacts can be read and the metadata parses. *)
Definition load (f : gmap string Fs.node) (key : snapshotFiles) : option (json * Buffer.t) :=
  match Fs.readFileSync f (info_file key) with
  | Some text =>
      match Json.parse (Buffer.toString text) with
      | Some i =>
          match Fs.readFileSync f (data_file key) with
          | Some d => Some (i, d)
          | None => None
          end
      | None => None
      end
  | None => None
  end.

(** The key of section 4.3, in the words of the specification: root,
    host, the path with "index" after a final slash, method, fingerprint. *)
Fixpoint index_after_final_slash (pathname : string) : string :=
  match pathname with
  | EmptyString => EmptyString
  | String c EmptyString =>
      if Ascii.eqb c "/"%char then "/index" else String c EmptyString
  | String c p => String c (index_after_final_slash p)
  end.

Definition locate (root host pathname method fingerprint : string) : string :=
  JsString.concat
    [root; "/"; host; index_after_final_slash pathname; "."; method; "."; fingerprint].

End Store.

(** A call reaching the orchestrator with its canonical request, over
    either protocol. *)
Inductive inbound : Type :=
| ViaHttp (r : requestData)
| ViaSocket (r : requestData).

Definition canonical_of (c : inbound) : requestData :=
  match c with ViaHttp r => r | ViaSocket r => r end.

Definition engine (P : Platform) (this : MockServer) (c : inbound) : M (option snapshotData) :=
  match c with
  | ViaHttp r => replayOrFetch P this r
  | ViaSocket r => recordReplaySocketIO P this r
  end.

(** The upstream adapter of the call's protocol, and the call it makes. *)
Definition live (P : Platform) (this : MockServer) (c : inbound) : M (option snapshotData) :=
  match c with
  | ViaHttp r => fetchFromServer P this r
  | ViaSocket r => fetchFromSocketIOServer P this r
  end.

Definition call_of (c : inbound) : upstreamCall :=
  match c with
  | ViaHttp r => HttpCall (options_of r)
  | ViaSocket r => SocketCall (href r) (message_of r)
  end.

(** The world after a sequence of calls, one after the other. *)
Fixpoint after (P : Platform) (this : MockServer) (cs : list inbound) (w : World) : World :=
  match cs with
  | [] => w
  | c :: cs' => after P this cs' (snd (engine P this c w))
  end.

(** The canonical request of an inbound HTTP request whose URL has been
    resolved: the normaliser without its log line. *)
Definition canonical (req : Request) : error + requestData :=
  match Url.decodeURIComponent (Some (req_url req)) with
  | None => inl (URIError "URI malformed")
  | Some target =>
      match Url.parse target with
      | None => inl (TypeError "Invalid URL")
      | Some u =>
          inr {| host := Url.host u; pathname := Url.pathname u; href := Url.href u;
                 method := req_method req;
                 rest := HttpShape (pickHeaders (req_headers req)) (req_body req) |}
      end
  end.

(** How the handling of a call ends before the [try] block of
    [serveHttpData] is entered: an exception that nothing catches, or the
    answer of Express's final handler when no route takes the call. *)
Inductive halt : Type :=
| Raised (e : error)
| Unrouted (status : Z).

(** Target resolution as the routes and [serveHttpData] perform it, in
    the order the steps are tried:
    - on the root path, when the URL contains "/?url=", the second piece
      of the URL split at "/?url=", that is the text between the first
      "/?url=" and the next one, or the end; on any other path that
      Express routes, the URL without its first character;
    - if that contains "http", it is the target;
    - else, with a Host header containing ".localhost:PORT", the
      sub-domain rewritten to an https origin;
    - else, with a non-empty Referer, the origin of the absolute URL in
      it; an unparsable one throws;
    - else the URL stays as it is. *)
Definition routed_url (P : Platform) (req : Request) : halt + string :=
  match Express.route_of (Express.pathname (url_parse P) (req_url req)) with
  | Express.Root =>
      inr (if includes (req_url req) "/?url="
           then List.nth 1 (split (req_url req) "/?url=") EmptyString
           else req_url req)
  | Express.Star => inr (substring (req_url req) 1)
  | Express.Final status => inl (Unrouted status)
  end.

Definition resolveTarget_from (port : string) (req : Request) (url : string) : error + string :=
  if includes url "http" then inr url
  else
    match Json.assoc "host" (req_headers req) with
    | None => inl (TypeError "Cannot read properties of undefined (reading 'indexOf')")
    | Some h =>
        if includes h (".localhost:" ++ port)
        then inr ("https://" ++ replace h (".localhost:" ++ port) EmptyString ++ "/" ++ url)
        else
          match Json.assoc "referer" (req_headers req) with
          | None => inr url
          | Some referer =>
              if is_empty referer then inr url
              else
                match Url.parse (substring referer (indexOf referer "/http" + 1)) with
                | Some u => inr (Url.origin u ++ "/" ++ url)
                | None => inl (TypeError "Invalid URL")
                end
          end
    end.

Definition raised {A : Type} (x : error + A) : halt + A :=
  match x with inl e => inl (Raised e) | inr a => inr a end.

Definition resolveTarget (P : Platform) (req : Request) : halt + string :=
  match routed_url P req with
  | inr url => raised (resolveTarget_from (port P) req url)
  | inl h => inl h
  end.

(** What a call is served for: nothing when its handling halts, else
    the canonical request of the target, or the error that the [try]
    block will catch when the target gives none. *)
Definition resolved (P : Platform) (req : Request) : halt + (error + requestData) :=
  match resolveTarget P req with
  | inr target => inr (canonical (with_url req target))
  | inl h => inl h
  end.

Definition served_href (P : Platform) (req : Request) : option string :=
  match resolved P req with
  | inr (inr r) => Some (href r)
  | _ => None
  end.

(** Two inbound header objects that hold the same value, or none, under
    each allow-listed name. *)
Definition same_allow_listed (h1 h2 : list (string * string)) : Prop :=
  forall k, In k allowList -> Json.assoc k h1 = Json.assoc k h2.


(** [req.headers] as Node hands it to a handler: every name in lower
    case. *)
Definition lower_case_names (h : list (string * string)) : bool :=
  List.forallb (fun kv => (toLowerCase (fst kv) =? fst kv)%string) h.

(** What the allow-list reduction keeps of one header. *)
Definition kept (fullHeaders : list (string * string)) (name : string) :
    list (string * string) :=
  match Json.assoc name fullHeaders with
  | Some x => if is_empty x then [] else [(name, x)]
  | None => []
  end.

(** *** The statements that do not hold of the code as they are worded *)

Module Worded.

Definition fetched_data_survives_failed_save : Prop :=
  forall P this r w resp e w',
    axios P (upstream w) (options_of r) = inr resp ->
    saveSnapshot this (record_of r resp)
      (logw this (Msg ("[http] fetched data from " ++ href r))
         (add_upstream (HttpCall (options_of r)) w)) = (Throw e, w') ->
    exists s w'', fetchFromServer P this r w = (Ok (Some s), w'')
                  /\ data s = resp_data resp.



Definition url_parameter_first : Prop :=
  forall (P : Platform) (req : Request) (before target : string) (u : Url.t),
    req_url req = before ++ "?url=" ++ target ->
    Url.parse target = Some u ->
    exists r, resolved P req = inr (inr r) /\ href r = Url.href u.

End Worded.

(* ================================================================== *)
(** ** Sample platform, worlds and requests *)
(* ================================================================== *)

Module Sample.

Definition users : axiosResponse :=
  {| resp_data := [Byte.x00; Byte.xff; Byte.x80; Byte.x41];
     resp_fields :=
       [("status", JNum 200); ("statusText", JStr "OK");
        ("headers", JObj [("content-type", JStr "application/octet-stream")]);
        ("config", JObj [("url", JStr "http://api.example.com/v1/users")]);
        ("request", JObj [])] |}.

(** One origin answers, every other call fails in transport; the socket
    origin echoes the message.  The request targets of the samples are
    all taken apart by [Express.pathname] itself. *)
Definition P : Platform :=
  {| axios := fun _ o =>
       if (opt_url o =? "http://api.example.com/v1/users")%string then inr users
       else inl (NetworkError "connect ECONNREFUSED");
     emit := fun _ _ message => Some (JArr [message]);
     port := "9001";
     url_parse := fun _ => None |}.


Definition server : MockServer := {| logAll := true |}.

Definition empty : World := mkWorld ∅ [] [] [] [] [] [].

(** A regular file sits where the snapshot directory should go. *)
Definition blocked : World :=
  mkWorld {[ SNAPSHOT_DIR := Fs.File [] ]} [] [] [] [] [] [].

Definition get_users : requestData :=
  {| host := "api.example.com"; pathname := "/v1/users";
     href := "http://api.example.com/v1/users"; method := "GET";
     rest := HttpShape [("user-agent", "curl/8.0")] (JObj []) |}.

Definition ping : requestData :=
  {| host := "ws.example.com"; pathname := "/socket.io/";
     href := "https://ws.example.com/"; method := "websocket";
     rest := SocketShape (JObj [("op", JStr "ping")]) |}.

Definition with_headers (h : list (string * string)) : requestData :=
  {| host := "example.com"; pathname := "/a"; href := "https://example.com/a";
     method := "POST"; rest := HttpShape h (JObj [("n", JNum 1)]) |}.


Definition typed_then_authorized : requestData :=
  with_headers [("Content-Type", "application/json"); ("Authorization", "Bearer t")].


Definition inbound_users (h : list (string * string)) : Request :=
  {| req_url := "/http://api.example.com/v1/users"; req_method := "GET";
     req_headers := h; req_body := JObj [] |}.

Definition on_root : Request :=
  {| req_url := "/?url=https://example.com/a"; req_method := "GET";
     req_headers := [("host", "localhost:9001")]; req_body := JObj [] |}.

Definition off_root : Request :=
  {| req_url := "/https://other.example/b?url=https://example.com/a"; req_method := "GET";
     req_headers := [("host", "localhost:9001")]; req_body := JObj [] |}.

Definition by_subdomain : Request :=
  {| req_url := "/v1/users"; req_method := "GET";
     req_headers := [("host", "api.example.com.localhost:9001")]; req_body := JObj [] |}.

Definition by_referer : Request :=
  {| req_url := "/style.css"; req_method := "GET";
     req_headers := [("host", "localhost:9001");
                     ("referer", "http://localhost:9001/http://api.example.com/v1/users")];
     req_body := JObj [] |}.

(** A root request whose target holds a second "/?url=". *)
Definition nested : Request :=
  {| req_url := "/?url=https://a.example/x/?url=https://b.example/y"; req_method := "GET";
     req_headers := [("host", "localhost:9001")]; req_body := JObj [] |}.

(** A request line in absolute form, as a client sends it to a proxy. *)
Definition absolute_root : Request :=
  {| req_url := "http://api.example.com/"; req_method := "GET";
     req_headers := [("host", "api.example.com")]; req_body := JObj [] |}.

(** A path that does not decode. *)
Definition undecodable : Request :=
  {| req_url := "/%zz"; req_method := "GET";
     req_headers := [("host", "localhost:9001")]; req_body := JObj [] |}.

(** A Referer that is no URL. *)
Definition bad_referer : Request :=
  {| req_url := "/style.css"; req_method := "GET";
     req_headers := [("host", "localhost:9001"); ("referer", "nonsense")];
     req_body := JObj [] |}.

(** The headers of a request sent with Cookie, Authorization and
    X-Trace, as the handler reads them in [req.headers]. *)
Definition cookie_authorization_trace : list (string * string) :=
  [("cookie", "x"); ("authorization", "y"); ("x-trace", "z")].

Definition unresolvable : Request :=
  {| req_url := "/style.css"; req_method := "GET";
     req_headers := [("host", "localhost:9001")]; req_body := JObj [] |}.

(** The record of the first call for [get_users], and the world it
    leaves behind on an empty store. *)
Definition record : snapshotData := record_of get_users users.

Definition recorded : World := snd (fetchFromServer P server get_users empty).

Definition saved : World := snd (saveSnapshot server record empty).

(** The metadata artifact of [get_users] cut short. *)
Definition truncated : World :=
  mkWorld
    {[ info_file (getSnapshotFiles get_users)
         := Fs.File (Buffer.of_string (dq "{'status':200,'statusTe"));
       data_file (getSnapshotFiles get_users) := Fs.File [Byte.x41] ]}
    [] [] [] [] [] [].


End Sample.
(* ================================================================== *)
(** ** Vocabulary of the further properties *)
(* ================================================================== *)

(** The world without its console: what a client, the origins and the
    file system can tell. *)
Definition quiet (w : World) : World :=
  mkWorld (fs w) [] (upstream w) (response w) (disconnected w) (listeners w) (replies w).

(** Two computations that, from worlds equal up to the console, give the
    same outcome and worlds equal up to the console. *)
Definition same_but_console {A : Type} (m1 m2 : M A) : Prop :=
  forall w1 w2,
    quiet w1 = quiet w2 ->
    fst (m1 w1) = fst (m2 w2) /\ quiet (snd (m1 w1)) = quiet (snd (m2 w2)).

(** A computation that prints nothing. *)
Definition silent {A : Type} (m : M A) : Prop :=
  forall w, console (snd (m w)) = console w.

(** What [serveHttpData] reads from the metadata of a record,
    [info.headers["content-type"]]: the value, [None] for [undefined], or
    the [TypeError] of reading a property of [undefined] or [null]. *)
Definition contentType_of (i : json) : error + option json :=
  match i with
  | JNull => inl (TypeError "Cannot read properties of null")
  | JObj l =>
      match Json.assoc "headers" l with
      | None => inl (TypeError "Cannot read properties of undefined")
      | Some JNull => inl (TypeError "Cannot read properties of null")
      | Some (JObj hs) => inr (Json.assoc "content-type" hs)
      | Some _ => inr None
      end
  | _ => inl (TypeError "Cannot read properties of undefined")
  end.

(** The two calls a served record makes on the response. *)
Definition served (ct : option json) (d : Buffer.t) : list resAction :=
  [ResSet "Content-Type" ct; ResSend (Some d)].

(** A name with no path separator in it. *)
Fixpoint no_slash (s : string) : bool :=
  match s with
  | EmptyString => true
  | String c s' => negb (Ascii.eqb c "/"%char) && no_slash s'
  end.

(** The file system after a save that has completed. *)
Record saved_state (s : snapshotData) (f f' : gmap string Fs.node) : Prop := {
  saved_info :
    f' !! info_file (getSnapshotFiles (request s))
    = Some (Fs.File (Buffer.of_string (Json.stringify (info s))));
  saved_data :
    f' !! data_file (getSnapshotFiles (request s)) = Some (Fs.File (data s));
  saved_dirs :
    forall q, In q (Path.ancestors (directory (getSnapshotFiles (request s)))) ->
              f' !! q = Some Fs.Dir;
  saved_parent : Fs.is_dir f' (directory (getSnapshotFiles (request s))) = true;
  saved_short :
    Fs.too_long (directory (getSnapshotFiles (request s))) = false
    /\ Fs.too_long (info_file (getSnapshotFiles (request s))) = false;
  saved_frame :
    forall q, q <> info_file (getSnapshotFiles (request s)) ->
              q <> data_file (getSnapshotFiles (request s)) ->
              ~ In q (Path.ancestors (directory (getSnapshotFiles (request s)))) ->
              f' !! q = f !! q
}.

(** The canonical request the [message] listener builds. *)
Definition socket_request (l : listener) (d : json) : requestData :=
  {| host := l_host l; href := l_href l; pathname := "/socket.io/";
     method := "websocket"; rest := SocketShape d |}.

(** A string of ASCII characters only. *)
Fixpoint ascii_only (s : string) : bool :=
  match s with
  | EmptyString => true
  | String c s' => (code c <? 128)%N && ascii_only s'
  end.

(** Whether the three file-system calls of [saveSnapshot] go through for
    a record on a file system. *)
Definition can_save (f : gmap string Fs.node) (s : snapshotData) : bool :=
  let key := getSnapshotFiles (request s) in
  match Fs.mkdirSync f (directory key) with
  | None => false
  | Some f1 =>
      match Fs.writeFileSync f1 (info_file key)
              (Buffer.of_string (Json.stringify (info s))) with
      | None => false
      | Some f2 =>
          match Fs.writeFileSync f2 (data_file key) (data s) with
          | None => false
          | Some _ => true
          end
      end
  end.

(** A name with no dot in it. *)
Fixpoint no_dot (s : string) : bool :=
  match s with
  | EmptyString => true
  | String c s' => negb (Ascii.eqb c "."%char) && no_dot s'
  end.

(** The text the root route takes from "/?url=" followed by [t]: the
    second piece of the split, which ends where the separator occurs
    again. *)
Definition url_parameter (t : string) : string :=
  if indexOf t "/?url=" =? -1 then t else slice0 t (indexOf t "/?url=").

(* ================================================================== *)
(** ** Further sample servers, requests and worlds *)
(* ================================================================== *)

Module Scene.

Definition quiet_server : MockServer := {| logAll := false |}.

(** The origins of [Sample.P], with a socket origin that never
    acknowledges. *)
Definition deaf : Platform :=
  {| axios := axios Sample.P; emit := fun _ _ _ => None; port := "9001";
     url_parse := url_parse Sample.P |}.

(** A client asking for the users through the proxy, with a cookie. *)
Definition browser : Request :=
  Sample.inbound_users
    [("host", "localhost:9001"); ("user-agent", "curl/8.0"); ("cookie", "sid=1")].

(** A page of an origin that refuses the connection. *)
Definition page : requestData :=
  {| host := "example.com"; pathname := "/a"; href := "https://example.com/a";
     method := "GET"; rest := HttpShape [] (JObj []) |}.

Definition ws : Url.t :=
  {| Url.href := "https://ws.example.com/"; Url.origin := "https://ws.example.com";
     Url.host := "ws.example.com"; Url.pathname := "/" |}.

Definition chat : listener :=
  {| l_url := "https://ws.example.com/"; l_href := "https://ws.example.com/";
     l_host := "ws.example.com" |}.

Definition ping_msg : json := JObj [("op", JStr "ping")].

(** The socket origin of [Sample.P] echoes the message in an array. *)
Definition pong : json := JArr [ping_msg].

(** The world after the first [ping] on an empty store. *)
Definition answered : World :=
  snd (onMessage Sample.P Sample.server 7 chat ping_msg Sample.empty).

(** A second record for [Sample.get_users]. *)
Definition newer : snapshotData :=
  {| data := [Byte.x42]; info := JObj [("status", JNum 304)];
     request := Sample.get_users |}.

(** The metadata of [Sample.record]: the response without [request]. *)
Definition users_info : list (string * json) :=
  [("status", JNum 200); ("statusText", JStr "OK");
   ("headers", JObj [("content-type", JStr "application/octet-stream")]);
   ("config", JObj [("url", JStr "http://api.example.com/v1/users")])].

(** The users' snapshot with metadata that has lost its headers, and the
    ping's snapshot with a payload cut short. *)
Definition headless : World :=
  mkWorld
    {[ info_file (getSnapshotFiles Sample.get_users)
         := Fs.File (Buffer.of_string (dq "{'status':200}"));
       data_file (getSnapshotFiles Sample.get_users) := Fs.File [Byte.x41] ]}
    [] [] [] [] [] [].

Definition cut_short : World :=
  mkWorld
    {[ info_file (getSnapshotFiles (socket_request chat ping_msg))
         := Fs.File (Buffer.of_string (dq "{'host':'ws.example.com'}"));
       data_file (getSnapshotFiles (socket_request chat ping_msg))
         := Fs.File (Buffer.of_string (dq "[{'op':")) ]}
    [] [] [] [] [] [].

End Scene.

(* ================================================================== *)
(** * Properties *)
(* ================================================================== *)

(** The functions below are reasoned about through their equations;
    evaluation is left to [vm_compute] on closed terms. *)
Arguments Md5.md5 : simpl never.
Arguments uniqueReqId : simpl never.
Arguments snapshotBase : simpl never.
Arguments getSnapshotFiles : simpl never.
Arguments fetchFromSnapshot : simpl never.
Arguments saveSnapshot : simpl never.
Arguments fetchFromServer : simpl never.
Arguments fetchFromSocketIOServer : simpl never.
Arguments replayOrFetch : simpl never.
Arguments recordReplaySocketIO : simpl never.
Arguments recordReplayData : simpl never.
Arguments serveResolved : simpl never.
Arguments Path.dirname : simpl never.
Arguments Url.parse : simpl never.
Arguments Url.decodeURIComponent : simpl never.
(* ================================================================== *)
(** ** Facts about strings *)
(* ================================================================== *)

Module StringFacts.

Lemma app_nil_l (s : string) : EmptyString ++ s = s.
Proof. reflexivity. Qed.

Lemma app_cons (c : ascii) (s t : string) : String c s ++ t = String c (s ++ t).
Proof. reflexivity. Qed.

Lemma app_nil_r (s : string) : s ++ EmptyString = s.
Proof. induction s as [|c s IH]; [reflexivity|]. now rewrite app_cons, IH. Qed.

Lemma app_assoc (a b c : string) : (a ++ b) ++ c = a ++ (b ++ c).
Proof. induction a as [|x a IH]; [reflexivity|]. now rewrite !app_cons, IH. Qed.

Lemma length_app (a b : string) :
  String.length (a ++ b) = (String.length a + String.length b)%nat.
Proof. induction a as [|x a IH]; [reflexivity|]. rewrite app_cons. simpl. now rewrite IH. Qed.

Lemma length_cons (c : ascii) (s : string) :
  String.length (String c s) = S (String.length s).
Proof. reflexivity. Qed.

Lemma app_inv_tail (a b t : string) : a ++ t = b ++ t -> a = b.
Proof.
  revert b. induction a as [|x a IH]; intros [|y b] H.
  - reflexivity.
  - apply (f_equal String.length) in H.
    rewrite app_nil_l, app_cons in H. simpl in H. rewrite length_app in H. lia.
  - apply (f_equal String.length) in H.
    rewrite app_nil_l, app_cons in H. simpl in H. rewrite length_app in H. lia.
  - rewrite !app_cons in H. injection H as -> H. f_equal. now apply IH.
Qed.

End StringFacts.

Ltac each_char c := destruct c as [[] [] [] [] [] [] [] []].

(* ================================================================== *)
(** ** [JSON.parse] inverts [JSON.stringify] *)
(* ================================================================== *)

Module JsonFacts.
Import Json JsonSpec StringFacts.

Lemma stringify_arr (l : list json) : stringify (JArr l) = String "[" (elems l ++ "]").
Proof.
  reflexivity.
Qed.

Lemma stringify_obj (l : list (string * json)) :
  stringify (JObj l) = String "{" (members l ++ "}").
Proof.
  reflexivity.
Qed.

(** *** String literals *)

Lemma parse_chars_escape_char (c : ascii) (r acc : string) :
  parse_chars (escape_char c ++ r) acc = parse_chars r (acc ++ String c EmptyString).
Proof. each_char c; reflexivity. Qed.

Lemma parse_chars_escape (s r acc : string) :
  parse_chars (escape s ++ String DQ r) acc = Some (acc ++ s, r).
Proof.
  revert acc. induction s as [|c s IH]; intros acc.
  - simpl. now rewrite app_nil_r.
  - simpl. rewrite app_assoc, parse_chars_escape_char, IH.
    now rewrite app_assoc.
Qed.

Lemma parse_chars_quote (s r : string) :
  exists t, quote s ++ r = String DQ t /\ parse_chars t EmptyString = Some (s, r).
Proof.
  exists (escape s ++ String DQ r). split.
  - unfold quote. now rewrite app_cons, app_assoc.
  - apply parse_chars_escape.
Qed.

(** *** Numbers *)

Lemma digit_char_spec (n : N) :
  (n < 10)%N ->
  is_digit (digit_char n) = true /\ (code (digit_char n) - 48)%N = n.
Proof.
  intros H. unfold is_digit, digit_char, code.
  rewrite N_ascii_embedding by lia. split; [|lia].
  apply andb_true_intro. split; apply N.leb_le; lia.
Qed.

Lemma digits_go_app (f : nat) (n : N) (acc r : string) :
  digits_go f n acc ++ r = digits_go f n (acc ++ r).
Proof.
  revert n acc. induction f as [|f IH]; intros n acc; [reflexivity|].
  simpl. destruct (n <? 10)%N; [reflexivity|]. now rewrite IH.
Qed.

Lemma parse_digits_digits_go (f : nat) (n : N) (acc : string) :
  (n < 2 ^ N.of_nat (S f))%N ->
  parse_digits (digits_go (S f) n acc) 0%N = parse_digits acc n.
Proof.
  revert n acc. induction f as [|f IH]; intros n acc Hn.
  - assert (n < 10)%N by (change (2 ^ N.of_nat 1)%N with 2%N in Hn; lia).
    simpl. destruct (N.ltb_spec n 10) as [_|]; [|lia].
    rewrite N.mod_small by lia.
    destruct (digit_char_spec n) as [Hd Hv]; [lia|].
    simpl. rewrite Hd, Hv. reflexivity.
  - change (digits_go (S (S f)) n acc)
      with (if (n <? 10)%N then String (digit_char (n mod 10)) acc
            else digits_go (S f) (n / 10) (String (digit_char (n mod 10)) acc)).
    destruct (digit_char_spec (n mod 10)) as [Hd Hv].
    { apply N.mod_lt. lia. }
    destruct (N.ltb_spec n 10) as [Hlt|Hge].
    + rewrite N.mod_small in * by lia. simpl. rewrite Hd, Hv. reflexivity.
    + rewrite IH.
      * simpl. rewrite Hd, Hv. f_equal.
        rewrite (N.div_mod n 10) at 3 by lia. lia.
      * rewrite Nat2N.inj_succ, N.pow_succ_r' in Hn.
        apply N.Div0.div_lt_upper_bound. lia.
Qed.

Lemma digits_go_head (f : nat) (n : N) (acc : string) :
  (n <> 0)%N -> (n < 2 ^ N.of_nat (S f))%N ->
  exists c s, digits_go (S f) n acc = String c s
              /\ is_digit c = true /\ (code c =? 48)%N = false.
Proof.
  revert n acc. induction f as [|f IH]; intros n acc Hz Hn.
  - assert (n < 10)%N by (change (2 ^ N.of_nat 1)%N with 2%N in Hn; lia).
    simpl. destruct (N.ltb_spec n 10) as [_|]; [|lia].
    rewrite N.mod_small by lia.
    destruct (digit_char_spec n) as [Hd Hv]; [lia|].
    eexists _, _. split; [reflexivity|]. split; [exact Hd|].
    apply N.eqb_neq. unfold is_digit in Hd.
    apply andb_prop in Hd as [H1 H2]. apply N.leb_le in H1. lia.
  - change (digits_go (S (S f)) n acc)
      with (if (n <? 10)%N then String (digit_char (n mod 10)) acc
            else digits_go (S f) (n / 10) (String (digit_char (n mod 10)) acc)).
    destruct (N.ltb_spec n 10) as [Hlt|Hge].
    + rewrite N.mod_small by lia.
      destruct (digit_char_spec n) as [Hd Hv]; [lia|].
      eexists _, _. split; [reflexivity|]. split; [exact Hd|].
      apply N.eqb_neq. unfold is_digit in Hd.
      apply andb_prop in Hd as [H1 H2]. apply N.leb_le in H1. lia.
    + apply IH.
      * intros H0. apply N.div_small_iff in H0; lia.
      * rewrite Nat2N.inj_succ, N.pow_succ_r' in Hn.
        apply N.Div0.div_lt_upper_bound. lia.
Qed.

Lemma log2_bound (n : N) : (n < 2 ^ N.of_nat (S (N.to_nat (N.log2 n))))%N.
Proof.
  rewrite Nat2N.inj_succ, N2Nat.id.
  destruct (N.eq_dec n 0%N) as [->|Hz]; [reflexivity|].
  apply N.log2_spec. lia.
Qed.

Lemma parse_digits_stop (r : string) (n : N) :
  no_digit_ahead r -> parse_digits r n = (n, r).
Proof. destruct r as [|c r]; simpl; [reflexivity|]. now intros ->. Qed.

Lemma parse_nat_digits (n : N) (r : string) :
  no_digit_ahead r -> parse_nat (digits n ++ r) = Some (n, r).
Proof.
  intros Hr. unfold digits. rewrite digits_go_app, app_nil_l.
  destruct (N.eq_dec n 0%N) as [->|Hz].
  - simpl. destruct r as [|c r]; [reflexivity|]. simpl in Hr. now rewrite Hr.
  - destruct (digits_go_head (N.to_nat (N.log2 n)) n r Hz (log2_bound n))
      as (c & s & E & Hd & H48).
    unfold parse_nat. rewrite E, H48, Hd, <- E.
    rewrite parse_digits_digits_go by apply log2_bound.
    now rewrite parse_digits_stop.
Qed.

Lemma digits_head (n : N) :
  exists c s, digits n = String c s /\ is_digit c = true.
Proof.
  destruct (N.eq_dec n 0%N) as [->|Hz].
  - exists "0"%char, EmptyString. split; reflexivity.
  - destruct (digits_go_head (N.to_nat (N.log2 n)) n EmptyString Hz (log2_bound n))
      as (c & s & E & Hd & _).
    exists c, s. split; [exact E|exact Hd].
Qed.

Lemma digit_not_minus (c : ascii) : is_digit c = true -> (code c =? 45)%N = false.
Proof. each_char c; intros H; try (vm_compute in H; discriminate H); reflexivity. Qed.

Lemma parse_number_number (z : Z) (r : string) :
  no_digit_ahead r -> parse_number (number z ++ r) = Some (z, r).
Proof.
  intros Hr. unfold number, parse_number. destruct (Z.ltb_spec z 0) as [Hneg|Hpos].
  - rewrite app_cons. simpl eat; cbv beta iota. rewrite parse_nat_digits by exact Hr.
    f_equal. f_equal. lia.
  - destruct (digits_head (Z.to_N z)) as (c & s & E & Hd).
    pose proof (parse_nat_digits (Z.to_N z) r Hr) as Hp.
    rewrite E, app_cons in *. simpl eat; cbv beta iota. rewrite (digit_not_minus c Hd), Hp.
    now rewrite Z2N.id by lia.
Qed.

(** *** Values *)

Lemma digit_starts_value (c : ascii) (s : string) :
  is_digit c = true -> starts_value (String c s).
Proof. each_char c; intros H; try (vm_compute in H; discriminate H); repeat split. Qed.

Lemma stringify_starts (v : json) (r : string) : starts_value (stringify v ++ r).
Proof.
  destruct v as [|[]|z|s|l|l].
  - repeat split.
  - repeat split.
  - repeat split.
  - simpl. unfold number. destruct (z <? 0).
    + repeat split.
    + destruct (digits_head (Z.to_N z)) as (c & s & -> & Hd).
      rewrite app_cons. now apply digit_starts_value.
  - repeat split.
  - rewrite stringify_arr. repeat split.
  - rewrite stringify_obj. repeat split.
Qed.

Lemma skip_ws_starts (s : string) : starts_value s -> skip_ws s = s.
Proof. destruct s as [|c s]; [intros []|]. intros (H & _). simpl. now rewrite H. Qed.

Lemma eat_close_starts (s : string) :
  starts_value s -> eat 93 s = None /\ eat 125 s = None.
Proof.
  destruct s as [|c s]; [intros []|]. intros (_ & H1 & H2). simpl. now rewrite H1, H2.
Qed.

Lemma parse_value_S (f : nat) (c : ascii) (r : string) :
  is_ws c = false ->
  parse_value (S f) (String c r) =
    if (code c =? 110)%N then expect "null" JNull (String c r)
    else if (code c =? 116)%N then expect "true" (JBool true) (String c r)
    else if (code c =? 102)%N then expect "false" (JBool false) (String c r)
    else if (code c =? 34)%N then
      match parse_chars r EmptyString with
      | Some (x, r') => Some (JStr x, r')
      | None => None
      end
    else if (code c =? 91)%N then
      match eat 93 (skip_ws r) with
      | Some r' => Some (JArr [], r')
      | None =>
          match parse_elements f r with
          | Some (l, r') => Some (JArr l, r')
          | None => None
          end
      end
    else if (code c =? 123)%N then
      match eat 125 (skip_ws r) with
      | Some r' => Some (JObj [], r')
      | None =>
          match parse_members f r with
          | Some (l, r') => Some (JObj l, r')
          | None => None
          end
      end
    else
      match parse_number (String c r) with
      | Some (z, r') => Some (JNum z, r')
      | None => None
      end.
Proof. intros H. simpl. now rewrite H. Qed.

Lemma parse_value_number (f : nat) (z : Z) (r : string) :
  no_digit_ahead r -> parse_value (S f) (number z ++ r) = Some (JNum z, r).
Proof.
  intros Hr. pose proof (parse_number_number z r Hr) as Hp.
  unfold number in *. destruct (z <? 0).
  - rewrite app_cons in *. rewrite parse_value_S by reflexivity. simpl. simpl in Hp.
    now rewrite Hp.
  - destruct (digits_head (Z.to_N z)) as (c & s & E & Hd).
    rewrite E, app_cons in *.
    each_char c; try (vm_compute in Hd; discriminate Hd);
      (rewrite parse_value_S by reflexivity); cbv beta iota; simpl N.eqb;
      cbv beta iota; now rewrite Hp.
Qed.

Lemma parse_elements_elems (l : list json) :
  Forall round_trips l -> l <> [] ->
  forall (fuel : nat) (r : string),
    (size_elems l <= fuel)%nat ->
    parse_elements fuel (elems l ++ String "]" r) = Some (l, r).
Proof.
  induction 1 as [|x l Hx Hl IH]; [congruence|]. intros _ fuel r Hfuel.
  destruct fuel as [|f]; [simpl in Hfuel; lia|].
  change (size_elems (x :: l)) with (S (size x + size_elems l)) in Hfuel.
  destruct l as [|y l].
  - change (elems [x]) with (stringify x).
    simpl. rewrite Hx by (simpl; trivial; lia). reflexivity.
  - change (elems (x :: y :: l)) with (stringify x ++ String "," (elems (y :: l))).
    rewrite app_assoc, app_cons.
    change (parse_elements (S f) ?s) with
      (match parse_value f s with
       | Some (x, r) =>
           match eat 93 (skip_ws r) with
           | Some r' => Some ([x], r')
           | None =>
               match eat 44 (skip_ws r) with
               | Some r' =>
                   match parse_elements f r' with
                   | Some (l, r'') => Some (x :: l, r'')
                   | None => None
                   end
               | None => None
               end
           end
       | None => None
       end).
    rewrite Hx by (simpl; trivial; lia).
    simpl skip_ws. simpl eat; cbv beta iota. rewrite IH by (congruence || lia). reflexivity.
Qed.

Lemma parse_members_members (l : list (string * json)) :
  Forall (fun kv => round_trips (snd kv)) l -> l <> [] ->
  forall (fuel : nat) (r : string),
    (size_members l <= fuel)%nat ->
    parse_members fuel (members l ++ String "}" r) = Some (l, r).
Proof.
  induction 1 as [|[k x] l Hx Hl IH]; [congruence|]. intros _ fuel r Hfuel.
  destruct fuel as [|f]; [simpl in Hfuel; lia|].
  change (size_members ((k, x) :: l)) with (S (size x + size_members l)) in Hfuel.
  simpl in Hx.
  change (parse_members (S f) ?s) with
    (match eat 34 (skip_ws s) with
     | Some r =>
         match parse_chars r EmptyString with
         | Some (k, r1) =>
             match eat 58 (skip_ws r1) with
             | Some r2 =>
                 match parse_value f r2 with
                 | Some (x, r3) =>
                     match eat 125 (skip_ws r3) with
                     | Some r' => Some ([(k, x)], r')
                     | None =>
                         match eat 44 (skip_ws r3) with
                         | Some r' =>
                             match parse_members f r' with
                             | Some (l, r'') => Some ((k, x) :: l, r'')
                             | None => None
                             end
                         | None => None
                         end
                     end
                 | None => None
                 end
             | None => None
             end
         | None => None
         end
     | None => None
     end).
  destruct l as [|y l].
  - change (members [(k, x)]) with (quote k ++ String ":" (stringify x)).
    rewrite app_assoc, app_cons.
    destruct (parse_chars_quote k (String ":" (stringify x ++ String "}" r)))
      as (t & -> & Ht).
    simpl skip_ws. simpl eat; cbv beta iota. rewrite Ht.
    simpl skip_ws. simpl eat; cbv beta iota. rewrite Hx by (simpl; trivial; lia). reflexivity.
  - change (members ((k, x) :: y :: l))
      with (quote k ++ String ":" (stringify x ++ String "," (members (y :: l)))).
    rewrite app_assoc, app_cons, app_assoc, app_cons.
    destruct (parse_chars_quote k
                (String ":" (stringify x ++ String "," (members (y :: l) ++ String "}" r))))
      as (t & -> & Ht).
    simpl skip_ws. simpl eat; cbv beta iota. rewrite Ht.
    simpl skip_ws. simpl eat; cbv beta iota. rewrite Hx by (simpl; trivial; lia).
    simpl skip_ws. simpl eat; cbv beta iota. rewrite IH by (congruence || lia). reflexivity.
Qed.

Lemma parse_value_stringify (v : json) : round_trips v.
Proof.
  induction v as [|b|z|s|l IH|l IH] using json_ind; intros fuel r Hfuel Hr;
    (destruct fuel as [|f]; [simpl in Hfuel; lia|]).
  - reflexivity.
  - destruct b; reflexivity.
  - now apply parse_value_number.
  - change (stringify (JStr s)) with (quote s).
    destruct (parse_chars_quote s r) as (t & -> & Ht).
    rewrite parse_value_S by reflexivity. simpl. now rewrite Ht.
  - change (size (JArr l)) with (S (size_elems l)) in Hfuel.
    rewrite stringify_arr, app_cons, app_assoc.
    rewrite parse_value_S by reflexivity. simpl N.eqb. cbv beta iota.
    destruct l as [|x l]; [reflexivity|].
    assert (Hs : starts_value (elems (x :: l) ++ "]" ++ r)).
    { destruct l; simpl elems; rewrite ?app_assoc; apply stringify_starts. }
    rewrite (skip_ws_starts _ Hs). destruct (eat_close_starts _ Hs) as [-> _].
    change ("]" ++ r) with (String "]" r).
    rewrite (parse_elements_elems (x :: l) IH) by (congruence || lia).
    reflexivity.
  - change (size (JObj l)) with (S (size_members l)) in Hfuel.
    rewrite stringify_obj, app_cons, app_assoc.
    rewrite parse_value_S by reflexivity. simpl N.eqb. cbv beta iota.
    destruct l as [|[k x] l]; [reflexivity|].
    assert (Hs : starts_value (members ((k, x) :: l) ++ "}" ++ r)).
    { destruct l; simpl members; unfold quote; rewrite ?app_cons; repeat split. }
    rewrite (skip_ws_starts _ Hs). destruct (eat_close_starts _ Hs) as [_ ->].
    change ("}" ++ r) with (String "}" r).
    rewrite (parse_members_members ((k, x) :: l) IH) by (congruence || lia).
    reflexivity.
Qed.

(** The serialisation is at least as long as the fuel the parser needs. *)
Lemma quote_length (s : string) : (2 <= String.length (quote s))%nat.
Proof. unfold quote. simpl. rewrite length_app. simpl. lia. Qed.

Lemma size_le_length (v : json) : (size v <= String.length (stringify v))%nat.
Proof.
  induction v as [|b|z|s|l IH|l IH] using json_ind.
  - simpl. lia.
  - destruct b; simpl; lia.
  - simpl. unfold number. destruct (z <? 0); [simpl; lia|].
    destruct (digits_head (Z.to_N z)) as (c & s & -> & _). simpl. lia.
  - pose proof (quote_length s). simpl in *. lia.
  - rewrite stringify_arr, length_cons, length_app.
    change (size (JArr l)) with (S (size_elems l)).
    change (String.length "]") with 1%nat.
    enough (size_elems l <= S (String.length (elems l)))%nat by lia.
    induction IH as [|x l Hx Hl IHl]; [simpl; lia|].
    change (size_elems (x :: l)) with (S (size x + size_elems l)).
    destruct l as [|y l].
    + change (elems [x]) with (stringify x). change (size_elems []) with O. lia.
    + change (elems (x :: y :: l)) with (stringify x ++ String "," (elems (y :: l))).
      rewrite length_app, length_cons. lia.
  - rewrite stringify_obj, length_cons, length_app.
    change (size (JObj l)) with (S (size_members l)).
    change (String.length "}") with 1%nat.
    enough (size_members l <= S (String.length (members l)))%nat by lia.
    induction IH as [|[k x] l Hx Hl IHl]; [simpl; lia|].
    change (size_members ((k, x) :: l)) with (S (size x + size_members l)).
    change (size (snd (k, x))) with (size x) in Hx.
    change (stringify (snd (k, x))) with (stringify x) in Hx.
    pose proof (quote_length k).
    destruct l as [|y l].
    + change (members [(k, x)]) with (quote k ++ String ":" (stringify x)).
      change (size_members []) with O.
      rewrite length_app, length_cons. lia.
    + change (members ((k, x) :: y :: l))
        with (quote k ++ String ":" (stringify x ++ String "," (members (y :: l)))).
      rewrite length_app, length_cons, length_app, length_cons. lia.
Qed.

(** [JSON.parse(JSON.stringify(v))] gives back [v]. *)
Lemma parse_stringify (v : json) : parse (stringify v) = Some v.
Proof.
  unfold parse. rewrite <- (app_nil_r (stringify v)) at 2.
  rewrite parse_value_stringify; [reflexivity| |exact I].
  pose proof (size_le_length v). lia.
Qed.

End JsonFacts.

Arguments Json.stringify : simpl never.
Arguments Json.parse : simpl never.

(* ================================================================== *)
(** ** The file system and the snapshot files *)
(* ================================================================== *)

Module FsFacts.
Import StringFacts.

Lemma read_after_write (f f' : gmap string Fs.node) (p : string) (b : Buffer.t) :
  Fs.writeFileSync f p b = Some f' -> Fs.readFileSync f' p = Some b.
Proof.
  unfold Fs.writeFileSync, Fs.readFileSync.
  destruct (Fs.too_long p); [discriminate|].
  destruct (Fs.is_dir f p); [discriminate|].
  destruct (Fs.is_dir f (Path.dirname p)); [|discriminate].
  intros [= <-]. now rewrite lookup_insert_eq.
Qed.

Lemma read_other_after_write (f f' : gmap string Fs.node) (p q : string) (b : Buffer.t) :
  Fs.writeFileSync f p b = Some f' -> p <> q -> Fs.readFileSync f' q = Fs.readFileSync f q.
Proof.
  unfold Fs.writeFileSync, Fs.readFileSync.
  destruct (Fs.too_long p); [discriminate|].
  destruct (Fs.is_dir f p); [discriminate|].
  destruct (Fs.is_dir f (Path.dirname p)); [|discriminate].
  intros [= <-] Hne. now rewrite lookup_insert_ne.
Qed.

Lemma read_after_mkdirs (l : list string) (f : gmap string Fs.node) (q : string) :
  List.existsb (Fs.is_file f) l = false ->
  Fs.readFileSync (List.fold_left (fun m d => <[d := Fs.Dir]> m) l f) q
  = Fs.readFileSync f q.
Proof.
  revert f. induction l as [|d l IH]; intros f H; [reflexivity|].
  simpl in H. apply orb_false_elim in H as [Hd Hl]. simpl. rewrite IH.
  - unfold Fs.readFileSync, Fs.is_file in *.
    destruct (decide (d = q)) as [->|Hne].
    + rewrite lookup_insert_eq. destruct (f !! q) as [[]|]; congruence.
    + now rewrite lookup_insert_ne.
  - rewrite <- Hl. clear IH Hl. induction l as [|x l IHl]; [reflexivity|].
    simpl. rewrite IHl. f_equal. unfold Fs.is_file.
    destruct (decide (d = x)) as [->|Hne].
    + rewrite lookup_insert_eq. unfold Fs.is_file in Hd.
      destruct (f !! x) as [[]|]; congruence.
    + now rewrite lookup_insert_ne.
Qed.

Lemma read_after_mkdir (f f' : gmap string Fs.node) (d q : string) :
  Fs.mkdirSync f d = Some f' -> Fs.readFileSync f' q = Fs.readFileSync f q.
Proof.
  unfold Fs.mkdirSync. destruct (Fs.too_long d); [discriminate|].
  destruct (existsb _ _) eqn:E; [discriminate|].
  intros [= <-]. now apply read_after_mkdirs.
Qed.

(** The two artifacts of a key are different files, and no artifact of
    one key is an artifact of another. *)
Lemma slice_last_app (s t : string) :
  t <> EmptyString -> slice_last (s ++ t) = slice_last t.
Proof.
  intros Ht. induction s as [|c s IH]; [reflexivity|].
  rewrite app_cons. simpl. rewrite IH.
  destruct (s ++ t) eqn:E; [|reflexivity].
  destruct s; [|discriminate E]. now rewrite app_nil_l in E.
Qed.

Lemma json_is_not_data (a b : string) : a ++ ".json" <> b ++ ".data".
Proof.
  intros H. apply (f_equal slice_last) in H.
  rewrite !slice_last_app in H by discriminate. discriminate H.
Qed.

Lemma info_is_not_data (r : requestData) :
  info_file (getSnapshotFiles r) <> data_file (getSnapshotFiles r).
Proof. apply json_is_not_data. Qed.

Lemma files_of_base (r1 r2 : requestData) :
  snapshotBase r1 = snapshotBase r2 -> getSnapshotFiles r1 = getSnapshotFiles r2.
Proof. unfold getSnapshotFiles. now intros ->. Qed.

Lemma other_key_other_files (r1 r2 : requestData) :
  getSnapshotFiles r1 <> getSnapshotFiles r2 ->
  info_file (getSnapshotFiles r1) <> info_file (getSnapshotFiles r2)
  /\ info_file (getSnapshotFiles r1) <> data_file (getSnapshotFiles r2)
  /\ data_file (getSnapshotFiles r1) <> info_file (getSnapshotFiles r2)
  /\ data_file (getSnapshotFiles r1) <> data_file (getSnapshotFiles r2).
Proof.
  intros Hne. unfold getSnapshotFiles. cbn [info_file data_file directory]. repeat split.
  - intros H. apply app_inv_tail in H. now apply Hne, files_of_base.
  - apply json_is_not_data.
  - intros H. symmetry in H. now apply json_is_not_data in H.
  - intros H. apply app_inv_tail in H. now apply Hne, files_of_base.
Qed.

(** *** The layout of a key *)

Lemma index_after_final_slash_spec (p : string) :
  Store.index_after_final_slash p
  = if (slice_last p =? "/")%string then p ++ "index" else p.
Proof.
  induction p as [|c p IH]; [reflexivity|].
  destruct p as [|d p].
  - simpl. destruct (Ascii.eqb_spec c "/") as [->|Hne]; [reflexivity|].
    destruct (String.eqb_spec (String c EmptyString) "/") as [E|_]; [|reflexivity].
    congruence.
  - change (Store.index_after_final_slash (String c (String d p)))
      with (String c (Store.index_after_final_slash (String d p))).
    change (slice_last (String c (String d p))) with (slice_last (String d p)).
    rewrite IH. now destruct (slice_last (String d p) =? "/")%string.
Qed.

Lemma snapshotBase_locate (r : requestData) :
  snapshotBase r
  = Store.locate SNAPSHOT_DIR (host r) (pathname r) (method r) (uniqueReqId r).
Proof.
  unfold snapshotBase, Store.locate. simpl JsString.concat.
  now rewrite index_after_final_slash_spec, app_nil_r.
Qed.

Lemma chars_app (a b : string) :
  list_ascii_of_string (a ++ b) = (list_ascii_of_string a ++ list_ascii_of_string b)%list.
Proof. induction a as [|c a IH]; [reflexivity|]. rewrite app_cons. simpl. now rewrite IH. Qed.

Lemma dirname_scan_skips (e t : list ascii) (i : Z) (m : bool) :
  Forall (fun c => (c =? "/")%char = false) e ->
  Path.dirname_scan (e ++ t) i m
  = Path.dirname_scan t (i - Z.of_nat (List.length e))
      (match e with [] => m | _ => false end).
Proof.
  intros He. revert i m. induction He as [|c e Hc He IH]; intros i m.
  - simpl. f_equal. lia.
  - simpl. rewrite Hc, IH. replace (i - 1 - Z.of_nat (List.length e))
      with (i - Z.pos (Pos.of_succ_nat (List.length e))) by lia.
    now destruct e.
Qed.

Lemma dirname_scan_none (e : list ascii) (i : Z) (m : bool) :
  Forall (fun c => (c =? "/")%char = false) e -> Path.dirname_scan e i m = -1.
Proof.
  intros He. revert i m. induction He as [|c e Hc He IH]; intros i m; [reflexivity|].
  simpl. now rewrite Hc, IH.
Qed.

Lemma dirname_scan_bound (l : list ascii) (i : Z) (m : bool) :
  Path.dirname_scan l i m = -1 \/ Path.dirname_scan l i m <= i.
Proof.
  revert i m. induction l as [|c l IH]; intros i m; [now left|].
  simpl. destruct (c =? "/")%char.
  - destruct m; [|right; lia]. destruct (IH (i - 1) true); [now left|right; lia].
  - destruct (IH (i - 1) false); [now left|right; lia].
Qed.

Lemma take_app (n : nat) (a b : string) :
  (n <= String.length a)%nat -> take n (a ++ b) = take n a.
Proof.
  revert a. induction n as [|n IH]; intros a H; [reflexivity|].
  destruct a as [|c a]; [simpl in H; lia|].
  rewrite app_cons. simpl. rewrite IH; [reflexivity|]. simpl in H. lia.
Qed.

Lemma length_chars (s : string) : List.length (list_ascii_of_string s) = String.length s.
Proof. induction s as [|c s IH]; [reflexivity|]. simpl. now rewrite IH. Qed.

(** An extension without a separator, after a name that does not end
    with one, leaves the directory as it is. *)
Lemma dirname_ext (pre ext : string) (x : ascii) :
  (x =? "/")%char = false ->
  Forall (fun c => (c =? "/")%char = false) (list_ascii_of_string ext) ->
  Path.dirname ((pre ++ String x EmptyString) ++ ext)
  = Path.dirname (pre ++ String x EmptyString).
Proof.
  intros Hx Hext. destruct pre as [|c0 pre].
  - rewrite app_nil_l, app_cons, app_nil_l. unfold Path.dirname.
    rewrite dirname_scan_none by now apply Forall_rev. reflexivity.
  - rewrite !app_cons. unfold Path.dirname.
    set (tail := pre ++ String x EmptyString).
    assert (Hrev : rev (list_ascii_of_string tail)
                   = x :: rev (list_ascii_of_string pre)).
    { unfold tail. rewrite chars_app, List.rev_app_distr. reflexivity. }
    rewrite chars_app, List.rev_app_distr.
    rewrite dirname_scan_skips by now apply Forall_rev.
    rewrite Hrev. simpl Path.dirname_scan. rewrite Hx.
    rewrite length_rev, length_chars.
    unfold len. rewrite <- app_cons, length_app.
    replace (Z.of_nat (String.length (String c0 tail) + String.length ext) - 1
             - Z.of_nat (String.length ext) - 1)
      with (Z.of_nat (String.length (String c0 tail)) - 1 - 1) by lia.
    destruct (match rev (list_ascii_of_string ext) with [] => true | _ => false end);
      set (stop := Path.dirname_scan _ _ false);
      (destruct (stop =? -1); [reflexivity|]);
      (destruct ((c0 =? "/")%char && (stop =? 1)); [reflexivity|]);
      unfold slice0; apply take_app;
      (destruct (dirname_scan_bound (rev (list_ascii_of_string pre))
                   (Z.of_nat (String.length (String c0 tail)) - 1 - 1) false)
        as [E|E]; fold stop in E; lia).
Qed.

Lemma hex_app (a b : list Z) : Md5.hex (a ++ b) = Md5.hex a ++ Md5.hex b.
Proof.
  induction a as [|x a IH]; [reflexivity|].
  simpl. rewrite IH. unfold Md5.hex_byte. now rewrite !app_cons, app_nil_l.
Qed.

Lemma hex_digit_not_slash (n : N) : (n < 16)%N -> (hex_digit n =? "/")%char = false.
Proof.
  intros H. apply Ascii.eqb_neq. intros E. apply (f_equal N_of_ascii) in E.
  unfold hex_digit in E. destruct (n <? 10)%N eqn:L.
  - rewrite N_ascii_embedding in E by lia. simpl in E. lia.
  - rewrite N_ascii_embedding in E by lia. simpl in E. lia.
Qed.

Lemma md5_ends_in_hex (s : string) :
  exists t x, Md5.md5 s = t ++ String x EmptyString /\ (x =? "/")%char = false.
Proof.
  unfold Md5.md5, Md5.digest.
  destruct (Md5.blocks _ _ _) as [[[a b] c] d].
  change (Md5.le_bytes 4 d)
    with ([d mod 256; d / 256 mod 256; d / 256 / 256 mod 256]
          ++ [d / 256 / 256 / 256 mod 256])%list.
  rewrite !List.app_assoc, hex_app.
  change (Md5.hex [d / 256 / 256 / 256 mod 256])
    with (Md5.hex_byte (d / 256 / 256 / 256 mod 256)).
  unfold Md5.hex_byte.
  eexists (_ ++ String _ EmptyString), _. split.
  - rewrite app_assoc. reflexivity.
  - apply hex_digit_not_slash.
    assert (0 <= (d / 256 / 256 / 256 mod 256) mod 16 < 16) by (apply Z.mod_pos_bound; lia).
    lia.
Qed.

Lemma snapshotBase_ends (r : requestData) :
  exists pre x, snapshotBase r = pre ++ String x EmptyString /\ (x =? "/")%char = false.
Proof.
  destruct (md5_ends_in_hex (Json.stringify (json_of_requestData r))) as (t & x & E & Hx).
  unfold snapshotBase, uniqueReqId. rewrite E.
  eexists _, x. split; [|exact Hx]. rewrite <- !app_assoc. reflexivity.
Qed.

(** Both artifacts lie in the directory [saveSnapshot] creates. *)
(** The two artifacts of a key have names of one length. *)
Lemma longest_name_ext (a : string) (cur best : nat) :
  Fs.longest_name (a ++ ".json") cur best = Fs.longest_name (a ++ ".data") cur best.
Proof.
  revert cur best. induction a as [|c a IH]; intros cur best; [reflexivity|].
  rewrite !app_cons. cbn [Fs.longest_name]. destruct (Ascii.eqb c "/"%char); apply IH.
Qed.

Lemma too_long_artifacts (r : requestData) :
  Fs.too_long (data_file (getSnapshotFiles r)) = Fs.too_long (info_file (getSnapshotFiles r)).
Proof.
  unfold getSnapshotFiles. cbn [data_file info_file]. unfold Fs.too_long, len.
  rewrite longest_name_ext, !length_app. reflexivity.
Qed.

Lemma artifacts_in_directory (r : requestData) :
  Path.dirname (info_file (getSnapshotFiles r)) = directory (getSnapshotFiles r)
  /\ Path.dirname (data_file (getSnapshotFiles r)) = directory (getSnapshotFiles r).
Proof.
  destruct (snapshotBase_ends r) as (pre & x & E & Hx).
  unfold getSnapshotFiles. cbn [info_file data_file directory].
  rewrite E. split; apply dirname_ext; try exact Hx; repeat constructor.
Qed.

End FsFacts.

(* ================================================================== *)
(** ** The methods, run *)
(* ================================================================== *)

Module Run.
Import StringFacts FsFacts.

Lemma log_run (this : MockServer) (m : log_item) (w : World) :
  log this m false w = (Ok tt, logw this m w).
Proof. unfold log, logw. rewrite orb_false_r. now destruct (logAll this). Qed.

Lemma logw_fs (this : MockServer) (m : log_item) (w : World) : fs (logw this m w) = fs w.
Proof. unfold logw. now destruct (logAll this). Qed.

Lemma logw_upstream (this : MockServer) (m : log_item) (w : World) :
  upstream (logw this m w) = upstream w.
Proof. unfold logw. now destruct (logAll this). Qed.

Lemma logw_response (this : MockServer) (m : log_item) (w : World) :
  response (logw this m w) = response w.
Proof. unfold logw. now destruct (logAll this). Qed.

(** [fetchFromSnapshot] never throws: it returns what the store holds
    under the key, or [undefined] after a warning. *)
Lemma fetchFromSnapshot_run (this : MockServer) (r : requestData) (w : World) :
  fetchFromSnapshot this r w =
    match Store.load (fs w) (getSnapshotFiles r) with
    | Some (i, d) =>
        (Ok (Some {| data := d; info := i; request := r |}),
         logw this (Msg ("[snapshot] fetched snapshot from "
                         ++ info_file (getSnapshotFiles r))) w)
    | None =>
        (Ok None,
         logw this (Msg ("[warning] no snapshot file found for path " ++ href r
                         ++ " fetching from remote")) w)
    end.
Proof.
  unfold fetchFromSnapshot, Store.load, try_catch, bind, readFileSync, JSON_parse.
  destruct (Fs.readFileSync (fs w) (info_file (getSnapshotFiles r))) as [text|];
    [|now rewrite log_run].
  destruct (Json.parse (Buffer.toString text)) as [i|]; unfold ret, throw;
    [|now rewrite log_run].
  destruct (Fs.readFileSync (fs w) (data_file (getSnapshotFiles r))) as [d|];
    now rewrite log_run.
Qed.

(** [saveSnapshot] step by step; a step that throws leaves what the steps
    before it did. *)
Lemma saveSnapshot_run (this : MockServer) (s : snapshotData) (w : World) :
  let key := getSnapshotFiles (request s) in
  saveSnapshot this s w =
    match Fs.mkdirSync (fs w) (directory key) with
    | None => (Throw (FsError "mkdir" (directory key)), w)
    | Some f1 =>
        match Fs.writeFileSync f1 (info_file key)
                (Buffer.of_string (Json.stringify (info s))) with
        | None => (Throw (FsError "open" (info_file key)), set_fs f1 w)
        | Some f2 =>
            match Fs.writeFileSync f2 (data_file key) (data s) with
            | None => (Throw (FsError "open" (data_file key)), set_fs f2 w)
            | Some f3 =>
                (Ok tt, logw this (Msg ("[snapshot] saved snapshot to " ++ info_file key))
                          (set_fs f3 w))
            end
        end
    end.
Proof.
  unfold saveSnapshot, bind, mkdirSync, writeFileSync. cbv zeta.
  destruct (Fs.mkdirSync (fs w) _) as [f1|]; [|reflexivity]. simpl fs.
  destruct (Fs.writeFileSync f1 _ _) as [f2|]; [|reflexivity]. simpl fs.
  destruct (Fs.writeFileSync f2 _ _) as [f3|]; [|reflexivity].
  now rewrite log_run.
Qed.

(** What a save leaves in the store, whether it completes or not: the
    files of other keys as they were. *)
Lemma saveSnapshot_other_files (this : MockServer) (s : snapshotData) (w : World) (q : string) :
  q <> info_file (getSnapshotFiles (request s)) ->
  q <> data_file (getSnapshotFiles (request s)) ->
  Fs.readFileSync (fs (snd (saveSnapshot this s w))) q = Fs.readFileSync (fs w) q.
Proof.
  intros Hi Hd. rewrite saveSnapshot_run. cbv zeta.
  destruct (Fs.mkdirSync (fs w) _) as [f1|] eqn:E1; [|reflexivity].
  pose proof (read_after_mkdir _ _ _ q E1) as R1.
  destruct (Fs.writeFileSync f1 _ _) as [f2|] eqn:E2; [|exact R1].
  pose proof (read_other_after_write _ _ _ q _ E2 (not_eq_sym Hi)) as R2.
  destruct (Fs.writeFileSync f2 _ _) as [f3|] eqn:E3; cbn [snd fs set_fs]; [|congruence].
  pose proof (read_other_after_write _ _ _ q _ E3 (not_eq_sym Hd)) as R3.
  rewrite logw_fs. cbn [snd fs set_fs]. congruence.
Qed.

Lemma saveSnapshot_upstream (this : MockServer) (s : snapshotData) (w : World) :
  upstream (snd (saveSnapshot this s w)) = upstream w.
Proof.
  rewrite saveSnapshot_run. cbv zeta.
  destruct (Fs.mkdirSync (fs w) _) as [f1|]; [|reflexivity].
  destruct (Fs.writeFileSync f1 _ _) as [f2|]; [|reflexivity].
  destruct (Fs.writeFileSync f2 _ _) as [f3|]; [|reflexivity].
  cbn [snd upstream set_fs]. now rewrite logw_upstream.
Qed.

Lemma saveSnapshot_settles (this : MockServer) (s : snapshotData) (w : World) :
  fst (saveSnapshot this s w) <> Pending.
Proof.
  rewrite saveSnapshot_run. cbv zeta.
  destruct (Fs.mkdirSync (fs w) _) as [f1|]; [|discriminate].
  destruct (Fs.writeFileSync f1 _ _) as [f2|]; [|discriminate].
  destruct (Fs.writeFileSync f2 _ _) as [f3|]; discriminate.
Qed.

(** A save that completes is found by the next lookup of its key. *)
Lemma load_after_save (this : MockServer) (s : snapshotData) (w w' : World) :
  saveSnapshot this s w = (Ok tt, w') ->
  Store.load (fs w') (getSnapshotFiles (request s)) = Some (info s, data s).
Proof.
  rewrite saveSnapshot_run. cbv zeta.
  destruct (Fs.mkdirSync (fs w) _) as [f1|]; [|discriminate].
  destruct (Fs.writeFileSync f1 _ _) as [f2|] eqn:E2; [|discriminate].
  destruct (Fs.writeFileSync f2 _ _) as [f3|] eqn:E3; [|discriminate].
  intros [= <-]. rewrite logw_fs. simpl fs. unfold Store.load.
  rewrite (read_other_after_write _ _ _ _ _ E3)
    by (apply not_eq_sym, info_is_not_data).
  rewrite (read_after_write _ _ _ _ E2).
  unfold Buffer.toString, Buffer.of_string.
  rewrite string_of_list_byte_of_string, JsonFacts.parse_stringify.
  now rewrite (read_after_write _ _ _ _ E3).
Qed.

(** [fetchFromServer] never throws either. *)
Lemma fetchFromServer_run (P : Platform) (this : MockServer) (r : requestData) (w : World) :
  fetchFromServer P this r w =
    let w1 := add_upstream (HttpCall (options_of r)) w in
    match axios P (upstream w) (options_of r) with
    | inl e => (Ok None, logw this (Err e) w1)
    | inr resp =>
        match saveSnapshot this (record_of r resp)
                (logw this (Msg ("[http] fetched data from " ++ href r)) w1) with
        | (Ok _, w2) => (Ok (Some (record_of r resp)), w2)
        | (Throw e, w2) => (Ok None, logw this (Err e) w2)
        | (Pending, w2) => (Pending, w2)
        end
    end.
Proof.
  unfold fetchFromServer, try_catch, bind, call_axios. cbv zeta.
  fold (options_of r).
  destruct (axios P (upstream w) (options_of r)) as [e|resp].
  - now rewrite log_run.
  - rewrite log_run. fold (record_of r resp).
    destruct (saveSnapshot this (record_of r resp) _) as [[[]|e|] w2]; try reflexivity.
    now rewrite log_run.
Qed.

End Run.

(* ================================================================== *)
(** ** The orchestrator *)
(* ================================================================== *)

Module Orchestrator.
Import StringFacts FsFacts Run.

(** [fetchFromSocketIOServer]: it stays pending without an
    acknowledgement, and also when the save in the acknowledgement
    callback throws. *)
Lemma fetchFromSocketIOServer_run (P : Platform) (this : MockServer) (r : requestData)
    (w : World) :
  fetchFromSocketIOServer P this r w =
    let w1 := add_upstream (SocketCall (href r) (message_of r)) w in
    match emit P (upstream w) (href r) (message_of r) with
    | None => (Pending, w1)
    | Some resp =>
        match saveSnapshot this (reply_of r resp)
                (logw this (Msg "[socket.io] got response from proxied server") w1) with
        | (Ok _, w2) => (Ok (Some (reply_of r resp)), w2)
        | (Throw e, w2) => (Pending, w2)
        | (Pending, w2) => (Pending, w2)
        end
    end.
Proof.
  unfold fetchFromSocketIOServer, in_callback, bind, call_emit. cbv zeta.
  fold (message_of r).
  destruct (emit P (upstream w) (href r) (message_of r)) as [resp|]; [|reflexivity].
  rewrite log_run. fold (reply_of r resp).
  now destruct (saveSnapshot this (reply_of r resp) _) as [[[]|e|] w2].
Qed.

(** A live fetch leaves the files of other keys as they were. *)
Lemma live_other_files (P : Platform) (this : MockServer) (c : inbound) (w : World)
    (q : string) :
  q <> info_file (getSnapshotFiles (canonical_of c)) ->
  q <> data_file (getSnapshotFiles (canonical_of c)) ->
  Fs.readFileSync (fs (snd (live P this c w))) q = Fs.readFileSync (fs w) q.
Proof.
  intros Hi Hd. destruct c as [r|r]; cbn [live canonical_of] in *.
  - rewrite fetchFromServer_run. cbv zeta.
    destruct (axios P _ _) as [e|resp].
    + cbn [snd]. now rewrite logw_fs.
    + pose proof (saveSnapshot_other_files this (record_of r resp)
                    (logw this (Msg ("[http] fetched data from " ++ href r))
                       (add_upstream (HttpCall (options_of r)) w)) q Hi Hd) as S.
      rewrite logw_fs in S. cbn [fs add_upstream] in S.
      destruct (saveSnapshot this (record_of r resp) _) as [[[]|e|] w2];
        cbn [snd] in *; rewrite ?logw_fs; exact S.
  - rewrite fetchFromSocketIOServer_run. cbv zeta.
    destruct (emit P _ _ _) as [resp|]; [|reflexivity].
    pose proof (saveSnapshot_other_files this (reply_of r resp)
                  (logw this (Msg "[socket.io] got response from proxied server")
                     (add_upstream (SocketCall (href r) (message_of r)) w)) q Hi Hd) as S.
    rewrite logw_fs in S. cbn [fs add_upstream] in S.
    now destruct (saveSnapshot this (reply_of r resp) _) as [[[]|e|] w2].
Qed.

Lemma live_upstream (P : Platform) (this : MockServer) (c : inbound) (w : World) :
  upstream (snd (live P this c w)) = (upstream w ++ [call_of c])%list.
Proof.
  destruct c as [r|r]; cbn [live canonical_of call_of].
  - rewrite fetchFromServer_run. cbv zeta.
    destruct (axios P _ _) as [e|resp]; [cbn [snd]; now rewrite logw_upstream|].
    pose proof (saveSnapshot_upstream this (record_of r resp)
                  (logw this (Msg ("[http] fetched data from " ++ href r))
                     (add_upstream (HttpCall (options_of r)) w))) as U.
    rewrite logw_upstream in U. cbn [upstream add_upstream] in U.
    destruct (saveSnapshot this (record_of r resp) _) as [[[]|e|] w2];
      cbn [snd] in *; rewrite ?logw_upstream; exact U.
  - rewrite fetchFromSocketIOServer_run. cbv zeta.
    destruct (emit P _ _ _) as [resp|]; [|reflexivity].
    pose proof (saveSnapshot_upstream this (reply_of r resp)
                  (logw this (Msg "[socket.io] got response from proxied server")
                     (add_upstream (SocketCall (href r) (message_of r)) w))) as U.
    rewrite logw_upstream in U. cbn [upstream add_upstream] in U.
    now destruct (saveSnapshot this (reply_of r resp) _) as [[[]|e|] w2].
Qed.

(** The orchestrator, over either protocol: a hit is returned, a miss
    goes to the adapter of the protocol. *)
Lemma engine_run (P : Platform) (this : MockServer) (c : inbound) (w : World) :
  engine P this c w =
    match Store.load (fs w) (getSnapshotFiles (canonical_of c)) with
    | Some (i, d) =>
        (Ok (Some {| data := d; info := i; request := canonical_of c |}),
         logw this (Msg ("[snapshot] fetched snapshot from "
                         ++ info_file (getSnapshotFiles (canonical_of c)))) w)
    | None =>
        live P this c
          (logw this (Msg ("[warning] no snapshot file found for path "
                           ++ href (canonical_of c) ++ " fetching from remote")) w)
    end.
Proof.
  destruct c as [r|r]; cbn [engine live canonical_of]; unfold replayOrFetch, recordReplaySocketIO, bind;
    rewrite fetchFromSnapshot_run;
    destruct (Store.load (fs w) (getSnapshotFiles r)) as [[i d]|]; try reflexivity.
  now destruct (fetchFromSocketIOServer P this r _) as [[[s|]|e|] w2].
Qed.

Lemma load_agree (f f' : gmap string Fs.node) (key : snapshotFiles) :
  Fs.readFileSync f' (info_file key) = Fs.readFileSync f (info_file key) ->
  Fs.readFileSync f' (data_file key) = Fs.readFileSync f (data_file key) ->
  Store.load f' key = Store.load f key.
Proof. unfold Store.load. now intros -> ->. Qed.

(** No call changes the snapshot another call left under its key. *)
Lemma engine_keeps_snapshots (P : Platform) (this : MockServer) (c : inbound) (w : World)
    (r : requestData) (i : json) (d : Buffer.t) :
  Store.load (fs w) (getSnapshotFiles r) = Some (i, d) ->
  Store.load (fs (snd (engine P this c w))) (getSnapshotFiles r) = Some (i, d).
Proof.
  intros Hr. rewrite engine_run.
  destruct (Store.load (fs w) (getSnapshotFiles (canonical_of c))) as [[i' d']|] eqn:Hc.
  - cbn [snd]. now rewrite logw_fs.
  - assert (Hne : getSnapshotFiles r <> getSnapshotFiles (canonical_of c)) by congruence.
    destruct (other_key_other_files _ _ Hne) as (H1 & H2 & H3 & H4).
    rewrite <- Hr.
    apply load_agree; rewrite live_other_files by assumption; now rewrite logw_fs.
Qed.

Lemma after_keeps_snapshots (P : Platform) (this : MockServer) (cs : list inbound)
    (w : World) (r : requestData) (i : json) (d : Buffer.t) :
  Store.load (fs w) (getSnapshotFiles r) = Some (i, d) ->
  Store.load (fs (after P this cs w)) (getSnapshotFiles r) = Some (i, d).
Proof.
  revert w. induction cs as [|c cs IH]; intros w H; [exact H|].
  cbn [after]. apply IH. now apply engine_keeps_snapshots.
Qed.

(** A live fetch that returns a record has saved it. *)
Lemma live_saved (P : Platform) (this : MockServer) (c : inbound) (s : snapshotData)
    (w w' : World) :
  live P this c w = (Ok (Some s), w') ->
  request s = canonical_of c
  /\ Store.load (fs w') (getSnapshotFiles (canonical_of c)) = Some (info s, data s).
Proof.
  destruct c as [r|r]; cbn [live canonical_of call_of].
  - rewrite fetchFromServer_run. cbv zeta.
    destruct (axios P _ _) as [e|resp]; [discriminate|].
    destruct (saveSnapshot this (record_of r resp) _) as [[[]|e|] w2] eqn:E;
      [|discriminate|discriminate].
    intros [= <- <-]. split; [reflexivity|]. exact (load_after_save _ _ _ _ E).
  - rewrite fetchFromSocketIOServer_run. cbv zeta.
    destruct (emit P _ _ _) as [resp|]; [|discriminate].
    destruct (saveSnapshot this (reply_of r resp) _) as [[[]|e|] w2] eqn:E;
      [|discriminate|discriminate].
    intros [= <- <-]. split; [reflexivity|]. exact (load_after_save _ _ _ _ E).
Qed.

Lemma saveSnapshot_response (this : MockServer) (s : snapshotData) (w : World) :
  response (snd (saveSnapshot this s w)) = response w.
Proof.
  rewrite saveSnapshot_run. cbv zeta.
  destruct (Fs.mkdirSync (fs w) _) as [f1|]; [|reflexivity].
  destruct (Fs.writeFileSync f1 _ _) as [f2|]; [|reflexivity].
  destruct (Fs.writeFileSync f2 _ _) as [f3|]; [|reflexivity].
  cbn [snd response set_fs]. now rewrite logw_response.
Qed.

(** The HTTP orchestrator settles with a value: neither the lookup nor
    the adapter throws. *)
Lemma http_engine_settles (P : Platform) (this : MockServer) (r : requestData) (w : World) :
  exists o w', engine P this (ViaHttp r) w = (Ok o, w') /\ response w' = response w.
Proof.
  rewrite engine_run. cbn [canonical_of].
  destruct (Store.load (fs w) (getSnapshotFiles r)) as [[i d]|].
  - eexists _, _. split; [reflexivity|]. apply logw_response.
  - cbn [live]. rewrite fetchFromServer_run. cbv zeta.
    set (w1 := logw this _ w).
    assert (R1 : response w1 = response w) by apply logw_response.
    destruct (axios P _ _) as [e|resp].
    + eexists _, _. split; [reflexivity|]. now rewrite logw_response.
    + pose proof (saveSnapshot_settles this (record_of r resp)
                    (logw this (Msg ("[http] fetched data from " ++ href r))
                       (add_upstream (HttpCall (options_of r)) w1))) as Hs.
      pose proof (saveSnapshot_response this (record_of r resp)
                    (logw this (Msg ("[http] fetched data from " ++ href r))
                       (add_upstream (HttpCall (options_of r)) w1))) as Hr.
      rewrite logw_response in Hr. cbn [response add_upstream] in Hr.
      destruct (saveSnapshot this (record_of r resp) _) as [[[]|e|] w2];
        cbn [fst snd] in Hs, Hr; [| |congruence].
      * eexists _, _. split; [reflexivity|]. congruence.
      * eexists _, _. split; [reflexivity|]. rewrite logw_response. congruence.
Qed.

Lemma normalizeRequest_run (this : MockServer) (req : Request) (w : World) :
  normalizeRequest this req w =
    match canonical req with
    | inr r => (Ok r, logw this (Msg ("[http] a client connected proxying " ++ href r)) w)
    | inl e => (Throw e, w)
    end.
Proof.
  unfold normalizeRequest, canonical, bind, decodeURIComponent, new_URL.
  destruct (Url.decodeURIComponent _) as [target|]; [|reflexivity]. unfold ret.
  destruct (Url.parse target) as [u|]; [|reflexivity]. now rewrite log_run.
Qed.

Lemma recordReplayData_run (P : Platform) (this : MockServer) (req : Request) (w : World) :
  recordReplayData P this req w =
    match canonical req with
    | inr r =>
        engine P this (ViaHttp r)
          (logw this (Msg ("[http] a client connected proxying " ++ href r)) w)
    | inl e => (Throw e, w)
    end.
Proof.
  unfold recordReplayData, bind. rewrite normalizeRequest_run.
  now destruct (canonical req).
Qed.

Lemma recordReplayData_settles (P : Platform) (this : MockServer) (req : Request) (w : World) :
  fst (recordReplayData P this req w) <> Pending
  /\ response (snd (recordReplayData P this req w)) = response w.
Proof.
  rewrite recordReplayData_run. destruct (canonical req) as [e|r]; [now split|].
  destruct (http_engine_settles P this r
              (logw this (Msg ("[http] a client connected proxying " ++ href r)) w))
    as (o & w' & -> & R).
  rewrite logw_response in R. now split.
Qed.

(** Without a record the [try] block of [serveHttpData] ends in its
    [catch]: the error is logged and [res.send(null)] is all the response
    gets. *)
Lemma serveResolved_no_record (P : Platform) (this : MockServer) (req : Request) (w : World) :
  (forall s w1, recordReplayData P this req w <> (Ok (Some s), w1)) ->
  exists e, serveResolved P this req w
            = (Ok tt, add_response (ResSend None)
                        (logw this (Err e) (snd (recordReplayData P this req w)))).
Proof.
  intros Hno. destruct (recordReplayData_settles P this req w) as [Hp _].
  unfold serveResolved, try_catch, bind.
  destruct (recordReplayData P this req w) as [[[s|]|e|] w1].
  - now elim (Hno s w1).
  - eexists. unfold throw. rewrite log_run. reflexivity.
  - eexists. rewrite log_run. reflexivity.
  - now elim Hp.
Qed.


(** The routes and the head of [serveHttpData] resolve the target as
    [resolveTarget] says, then enter the [try] block with it. *)
Lemma includes_https (x : string) : includes ("https://" ++ x) "http" = true.
Proof. reflexivity. Qed.

Lemma serveHttpData_run (P : Platform) (this : MockServer) (req : Request) (url : string)
    (w : World) :
  serveHttpData P this (with_url req url) w =
    match resolveTarget_from (port P) req url with
    | inr target => serveResolved P this (with_url req target) w
    | inl e => (Throw e, w)
    end.
Proof.
  unfold serveHttpData, resolveTarget_from, fromSubdomain, fromReferer, bind, includes.
  change (req_url (with_url req url)) with url.
  change (req_headers (with_url req url)) with (req_headers req).
  assert (W : forall t, with_url (with_url req url) t = with_url req t) by reflexivity.
  destruct (indexOf url "http" =? -1) eqn:E; cbn [negb].
  2: { unfold ret. now rewrite E, W. }
  destruct (Json.assoc "host" (req_headers req)) as [h|]; [|reflexivity].
  destruct (indexOf h (".localhost:" ++ port P) =? -1); cbn [negb].
  - unfold ret at 1. rewrite E.
    destruct (Json.assoc "referer" (req_headers req)) as [referer|];
      [|unfold ret; now rewrite W].
    destruct (is_empty referer); [unfold ret; now rewrite W|].
    unfold new_URL. destruct (Url.parse _); [|reflexivity].
    unfold ret. now rewrite W.
  - unfold ret.
    pose proof (includes_https (replace h (".localhost:" ++ port P) EmptyString
                                ++ "/" ++ url)) as I.
    unfold includes in I. apply negb_true_iff in I. now rewrite I, W.
Qed.

Lemma handleHttp_run (P : Platform) (this : MockServer) (req : Request) (w : World) :
  handleHttp P this req w =
    match resolveTarget P req with
    | inr target => serveResolved P this (with_url req target) w
    | inl (Raised e) => (Throw e, w)
    | inl (Unrouted status) => (Ok tt, add_response (ResFinal status) w)
    end.
Proof.
  assert (S : forall url,
             serveHttpData P this (with_url req url) w =
               match raised (resolveTarget_from (port P) req url) with
               | inr target => serveResolved P this (with_url req target) w
               | inl (Raised e) => (Throw e, w)
               | inl (Unrouted status) => (Ok tt, add_response (ResFinal status) w)
               end).
  { intros url. rewrite serveHttpData_run.
    destruct (resolveTarget_from (port P) req url); reflexivity. }
  unfold handleHttp, rootRoute, starRoute, resolveTarget, routed_url, includes.
  destruct (Express.route_of _) as [| |status].
  - destruct (negb (indexOf (req_url req) "/?url=" =? -1)); apply S.
  - apply S.
  - reflexivity.
Qed.

(** The allow-list reduction, header by header. *)
Lemma pickHeaders_flat_map (fullHeaders : list (string * string)) :
  pickHeaders fullHeaders = List.flat_map (kept fullHeaders) allowList.
Proof.
  unfold pickHeaders, allowList, kept. cbn [fold_left flat_map].
  destruct (Json.assoc "Content-Type" fullHeaders) as [[|a x]|];
    destruct (Json.assoc "user-agent" fullHeaders) as [[|b y]|];
    destruct (Json.assoc "Authorization" fullHeaders) as [[|c z]|]; reflexivity.
Qed.

Lemma kept_cases (fullHeaders : list (string * string)) (name : string) :
  kept fullHeaders name = [] \/ exists x, kept fullHeaders name = [(name, x)].
Proof.
  unfold kept. destruct (Json.assoc name fullHeaders) as [x|]; [|now left].
  destruct (is_empty x); [now left|right; now exists x].
Qed.

Lemma perm_forall_in {A : Type} (l1 l2 : list A) :
  Permutation l1 l2 -> List.Forall (fun x => In x l2) l1.
Proof.
  intros Hp. apply List.Forall_forall. intros x. apply (Permutation_in x Hp).
Qed.

(** The reduction inserts the headers it keeps in the order of the
    allow-list: two results with the same entries are the same list. *)
Lemma pickHeaders_order (a1 a2 : list (string * string)) :
  Permutation (pickHeaders a1) (pickHeaders a2) -> pickHeaders a1 = pickHeaders a2.
Proof.
  rewrite !pickHeaders_flat_map. unfold allowList. cbn [flat_map].
  destruct (kept_cases a1 "Content-Type") as [->|[x1 ->]];
    destruct (kept_cases a1 "user-agent") as [->|[y1 ->]];
    destruct (kept_cases a1 "Authorization") as [->|[z1 ->]];
    destruct (kept_cases a2 "Content-Type") as [->|[x2 ->]];
    destruct (kept_cases a2 "user-agent") as [->|[y2 ->]];
    destruct (kept_cases a2 "Authorization") as [->|[z2 ->]];
    cbn [app]; intros Hp;
    try (apply Permutation_length in Hp; discriminate Hp);
    try reflexivity;
    apply perm_forall_in in Hp; cbn [In] in Hp;
    repeat match goal with
      | H : List.Forall _ (_ :: _) |- _ => inversion H; subst; clear H
      | H : List.Forall _ [] |- _ => clear H
      end;
    repeat match goal with
      | H : _ \/ _ |- _ => destruct H as [H|H]
      | H : False |- _ => destruct H
      | H : (_, _) = (_, _) |- _ => injection H; clear H; intros; try discriminate; subst
      end;
    try discriminate; reflexivity.
Qed.


(** Reordering an object does not change what its keys hold. *)
Lemma assoc_In (k : string) (h : list (string * string)) (v : string) :
  Json.assoc k h = Some v -> In (k, v) h.
Proof.
  induction h as [|[k' v'] h IH]; [discriminate|]. cbn [Json.assoc].
  destruct (String.eqb_spec k k') as [->|Hne].
  - intros [= ->]. now left.
  - intros H. right. now apply IH.
Qed.

Lemma In_assoc (k : string) (h : list (string * string)) (v : string) :
  List.NoDup (List.map fst h) -> In (k, v) h -> Json.assoc k h = Some v.
Proof.
  induction h as [|[k' v'] h IH]; [intros _ []|]. cbn [List.map fst Json.assoc].
  intros Hnd [[= -> ->]|Hin].
  - now rewrite String.eqb_refl.
  - apply List.NoDup_cons_iff in Hnd as [Hk Hnd].
    destruct (String.eqb_spec k k') as [->|Hne]; [|now apply IH].
    elim Hk. apply in_map_iff. now exists (k', v).
Qed.

Lemma reordered_headers_agree (h1 h2 : list (string * string)) :
  List.NoDup (List.map fst h1) -> Permutation h1 h2 -> same_allow_listed h1 h2.
Proof.
  intros Hnd Hp k _.
  assert (Hnd2 : List.NoDup (List.map fst h2)).
  { eapply Permutation_NoDup; [|exact Hnd]. now apply Permutation_map. }
  destruct (Json.assoc k h1) as [v|] eqn:E1.
  - symmetry. apply In_assoc; [exact Hnd2|].
    eapply Permutation_in; [exact Hp|]. now apply assoc_In.
  - destruct (Json.assoc k h2) as [v|] eqn:E2; [|reflexivity].
    apply assoc_In in E2. apply (Permutation_in _ (Permutation_sym Hp)) in E2.
    apply In_assoc in E2; [congruence|exact Hnd].
Qed.

(** Among names in lower case none is spelled with a capital. *)
Lemma lower_case_assoc (h : list (string * string)) (k v : string) :
  lower_case_names h = true -> Json.assoc k h = Some v -> toLowerCase k = k.
Proof.
  induction h as [|[k' v'] h IH]; [discriminate 2|].
  unfold lower_case_names. cbn [forallb fst Json.assoc]. intros H.
  apply andb_true_iff in H as [H1 H2].
  destruct (String.eqb_spec k k') as [->|Hne]; [intros _; now apply String.eqb_eq in H1|].
  now apply IH.
Qed.


End Orchestrator.

(* ================================================================== *)
(** ** The snapshot store *)
(* ================================================================== *)

Section Engine.

Import Run Orchestrator FsFacts StringFacts.

Variable P : Platform.
Variable this : MockServer.

(** C8. Binary round trip: after [saveSnapshot] has completed for a
    record, [fetchFromSnapshot] at the key of its request returns that
    record; the payload file holds the payload bytes themselves, whatever
    their values, and they come back byte for byte. *)
Theorem save_then_fetch_returns_the_bytes (s : snapshotData) (w w' : World) :
  saveSnapshot this s w = (Ok tt, w') ->
  Fs.readFileSync (fs w') (data_file (getSnapshotFiles (request s))) = Some (data s)
  /\ exists w'', fetchFromSnapshot this (request s) w' = (Ok (Some s), w'').
Proof.
  intros Hsave. pose proof (load_after_save _ _ _ _ Hsave) as Hload. split.
  - unfold Store.load in Hload.
    destruct (Fs.readFileSync (fs w') (info_file _)) as [text|]; [|discriminate].
    destruct (Json.parse _); [|discriminate].
    destruct (Fs.readFileSync (fs w') (data_file _)); [|discriminate].
    congruence.
  - rewrite fetchFromSnapshot_run, Hload. destruct s. eexists. reflexivity.
Qed.

(** C5. Fail open: when the metadata artifact cannot be read, or does not
    parse, or the payload artifact cannot be read, [fetchFromSnapshot]
    throws nothing and reports a miss after a warning, and the
    orchestrator of either protocol goes on to the live fetch, which makes
    exactly one upstream call. *)
Theorem unreadable_snapshot_is_a_miss (c : inbound) (w : World) :
  let r := canonical_of c in
  let key := getSnapshotFiles r in
  Fs.readFileSync (fs w) (info_file key) = None
  \/ (exists text, Fs.readFileSync (fs w) (info_file key) = Some text
                   /\ Json.parse (Buffer.toString text) = None)
  \/ Fs.readFileSync (fs w) (data_file key) = None ->
  let w1 := logw this (Msg ("[warning] no snapshot file found for path " ++ href r
                            ++ " fetching from remote")) w in
  fetchFromSnapshot this r w = (Ok None, w1)
  /\ engine P this c w = live P this c w1
  /\ upstream (snd (engine P this c w)) = (upstream w ++ [call_of c])%list.
Proof.
  intros r key H w1.
  assert (Hload : Store.load (fs w) key = None).
  { unfold Store.load. destruct H as [->|[(text & -> & ->)|H]]; try reflexivity.
    destruct (Fs.readFileSync (fs w) (info_file key)); [|reflexivity].
    destruct (Json.parse _); [|reflexivity]. now rewrite H. }
  rewrite fetchFromSnapshot_run, engine_run. fold r key. rewrite Hload.
  repeat split. fold w1. rewrite live_upstream. unfold w1. now rewrite logw_upstream.
Qed.

(** C2. Replay skips upstream: once the adapter of a protocol has fetched
    and saved a record for a request, then after any further calls, a
    call whose key is the key of that request finds the record as it was
    saved, returns it, makes no upstream call and leaves the store as it
    is. *)
Theorem replay_skips_upstream (first : inbound) (s : snapshotData) (w0 w1 : World)
    (between : list inbound) (c : inbound) :
  live P this first w0 = (Ok (Some s), w1) ->
  getSnapshotFiles (canonical_of c) = getSnapshotFiles (canonical_of first) ->
  let w := after P this between w1 in
  Store.load (fs w) (getSnapshotFiles (canonical_of first)) = Some (info s, data s)
  /\ exists w',
       engine P this c w
       = (Ok (Some {| data := data s; info := info s; request := canonical_of c |}), w')
       /\ upstream w' = upstream w
       /\ fs w' = fs w.
Proof.
  intros Hlive Hkey w. apply live_saved in Hlive as [_ Hload].
  pose proof (after_keeps_snapshots P this between _ _ _ _ Hload) as Hw.
  fold w in Hw. split; [exact Hw|].
  rewrite engine_run, Hkey, Hw. eexists. split; [reflexivity|].
  now rewrite logw_upstream, logw_fs.
Qed.

(** C3 as amended. When the upstream fetch succeeds and the save that
    follows throws, [fetchFromServer] logs the error and returns nothing:
    the data just fetched is not returned, and on a miss the orchestrator
    yields no record for the call. *)
Theorem failed_save_discards_the_fetch (r : requestData) (w : World)
    (resp : axiosResponse) (e : error) (w' : World) :
  axios P (upstream w) (options_of r) = inr resp ->
  saveSnapshot this (record_of r resp)
    (logw this (Msg ("[http] fetched data from " ++ href r))
       (add_upstream (HttpCall (options_of r)) w)) = (Throw e, w') ->
  fetchFromServer P this r w = (Ok None, logw this (Err e) w')
  /\ (Store.load (fs w) (getSnapshotFiles r) = None ->
      fst (replayOrFetch P this r w) = Ok None).
Proof.
  intros Hax Hsave. assert (E : fetchFromServer P this r w = (Ok None, logw this (Err e) w')).
  { rewrite fetchFromServer_run. cbv zeta. now rewrite Hax, Hsave. }
  split; [exact E|]. intros Hload.
  change (replayOrFetch P this r) with (engine P this (ViaHttp r)).
  rewrite engine_run. cbn [canonical_of]. rewrite Hload. cbn [live].
  rewrite fetchFromServer_run. cbv zeta. rewrite logw_upstream, Hax.
  (* the warning logged by the miss does not change what the save does *)
  pose proof (saveSnapshot_run this (record_of r resp)
                (logw this (Msg ("[http] fetched data from " ++ href r))
                   (add_upstream (HttpCall (options_of r)) w))) as R1.
  pose proof (saveSnapshot_run this (record_of r resp)
                (logw this (Msg ("[http] fetched data from " ++ href r))
                   (add_upstream (HttpCall (options_of r))
                      (logw this (Msg ("[warning] no snapshot file found for path "
                                       ++ href r ++ " fetching from remote")) w)))) as R2.
  cbv zeta in R1, R2. rewrite Hsave in R1.
  rewrite !logw_fs in *. cbn [fs add_upstream] in *. rewrite !logw_fs in *.
  rewrite R2. clear R2.
  destruct (Fs.mkdirSync (fs w) _) as [f1|]; [|reflexivity].
  destruct (Fs.writeFileSync f1 _ _) as [f2|]; [|reflexivity].
  destruct (Fs.writeFileSync f2 _ _) as [f3|]; [discriminate R1|reflexivity].
Qed.

End Engine.

(* ================================================================== *)
(** ** The HTTP surface *)
(* ================================================================== *)

Section Http.

Import Run Orchestrator FsFacts StringFacts.

Variable P : Platform.
Variable this : MockServer.


(** C6 as amended. A call that Express routes is resolved as
    [resolveTarget] describes, in this order.  On the root path, when the
    URL contains "/?url=", the URL becomes the second piece of its split
    at "/?url=": the text between the first "/?url=" and the next one, or
    the end.  On any other path the URL loses its first character, and a
    url= parameter stays part of it.  A URL that then contains "http" is
    the target; otherwise the sub-domain of the Host header, then the
    origin in the Referer header are tried.  If a step throws, nothing
    catches the exception; if the target gives no canonical request,
    nothing is fetched and the caller gets an empty body; a call that no
    route takes is answered by Express.  A call to
    "/?url=https://example.com/a" resolves to https://example.com/a; a
    call to "/https://other.example/b?url=https://example.com/a" resolves
    to the URL in its path, parameter included. *)
Theorem target_resolution (req : Request) (w : World) :
  handleHttp P this req w
  = match resolveTarget P req with
    | inr target => serveResolved P this (with_url req target) w
    | inl (Raised e) => (Throw e, w)
    | inl (Unrouted status) => (Ok tt, add_response (ResFinal status) w)
    end
  /\ (forall target e,
        resolveTarget P req = inr target ->
        canonical (with_url req target) = inl e ->
        upstream (snd (handleHttp P this req w)) = upstream w
        /\ response (snd (handleHttp P this req w)) = (response w ++ [ResSend None])%list)
  /\ served_href Sample.P Sample.on_root = Some "https://example.com/a"
  /\ served_href Sample.P Sample.nested = Some "https://a.example/x"
  /\ served_href Sample.P Sample.absolute_root = Some "http://api.example.com/"
  /\ served_href Sample.P Sample.off_root
     = Some "https://other.example/b?url=https://example.com/a"
  /\ served_href Sample.P Sample.by_subdomain = Some "https://api.example.com/v1/users"
  /\ served_href Sample.P Sample.by_referer = Some "http://api.example.com/style.css"
  /\ resolved Sample.P Sample.unresolvable = inr (inl (TypeError "Invalid URL"))
  /\ resolved Sample.P Sample.bad_referer = inl (Raised (TypeError "Invalid URL"))
  /\ resolved Sample.P Sample.undecodable = inl (Unrouted 400).
Proof.
  split; [apply handleHttp_run|].
  split; [|repeat split; vm_compute; reflexivity].
  intros target e Hres Hcan. rewrite handleHttp_run, Hres.
  assert (Hrec : recordReplayData P this (with_url req target) w = (Throw e, w)).
  { rewrite recordReplayData_run. now rewrite Hcan. }
  assert (Hno : forall s w1,
             recordReplayData P this (with_url req target) w <> (Ok (Some s), w1)).
  { intros s w1. rewrite Hrec. discriminate. }
  destruct (serveResolved_no_record P this _ w Hno) as (e' & ->).
  rewrite Hrec. cbn [snd upstream response add_response].
  now rewrite logw_upstream, logw_response.
Qed.

(** C10. A blank target rejects the connection: with the [url] parameter
    missing or empty, the [connection] listener disconnects the socket,
    then throws on the URL before it has registered a [message]
    listener, and no message is processed on that socket afterwards. *)
Theorem blank_url_is_rejected (id : nat) (url : option string) (w : World) :
  url = None \/ url = Some EmptyString ->
  let w' := snd (onConnection this id url w) in
  fst (onConnection this id url w) = Throw (TypeError "Invalid URL")
  /\ disconnected w' = (disconnected w ++ [id])%list
  /\ listeners w' = listeners w
  /\ forall d, deliver P this id d w' = (Ok tt, w').
Proof.
  intros H. assert (E : onConnection this id url w
    = (Throw (TypeError "Invalid URL"),
       add_disconnected id
         (logw this (Msg "[socket.io] a client tried to connect with blank url...") w))).
  { destruct H as [->| ->]; unfold onConnection, bind; rewrite log_run; reflexivity. }
  rewrite E. cbn [fst snd]. repeat split.
  - unfold logw. now destruct (logAll this).
  - unfold logw. now destruct (logAll this).
  - intros d. unfold deliver.
    assert (D : existsb (Nat.eqb id)
                  (disconnected (add_disconnected id
                     (logw this (Msg "[socket.io] a client tried to connect with blank url...") w)))
                = true).
    { cbn [disconnected add_disconnected]. rewrite existsb_app. cbn [existsb].
      now rewrite Nat.eqb_refl, orb_true_r. }
    now rewrite D.
Qed.

End Http.

(* ================================================================== *)
(** ** Keys, headers and fingerprints *)
(* ================================================================== *)

Section Keys.

Import Run Orchestrator FsFacts StringFacts.

(** C9. The layout of a key: the snapshot of a request lies at
    root/host + pathname, with "index" after a final slash, then
    ".method.fingerprint"; the metadata artifact adds ".json" and the
    payload artifact ".data"; the two are different files of the same
    directory, the one [saveSnapshot] creates. *)
Theorem snapshot_layout (r : requestData) :
  let base := Store.locate SNAPSHOT_DIR (host r) (pathname r) (method r) (uniqueReqId r) in
  getSnapshotFiles r
  = {| directory := Path.dirname base;
       info_file := base ++ ".json";
       data_file := base ++ ".data" |}
  /\ info_file (getSnapshotFiles r) <> data_file (getSnapshotFiles r)
  /\ Path.dirname (info_file (getSnapshotFiles r)) = directory (getSnapshotFiles r)
  /\ Path.dirname (data_file (getSnapshotFiles r)) = directory (getSnapshotFiles r).
Proof.
  cbv zeta. rewrite <- snapshotBase_locate. split; [reflexivity|].
  split; [apply info_is_not_data|apply artifacts_in_directory].
Qed.

(** C4. On the headers of a request as Node hands them to the handler,
    every name in lower case, the allow-list of the code finds
    user-agent only: its entries Content-Type and Authorization are
    spelled with capitals and match no inbound name.  The normalised
    headers are the user-agent header when it is not empty, and nothing
    else: an inbound Content-Type or Authorization header is dropped with
    the others. *)
Theorem capitalised_names_match_nothing (fullHeaders : list (string * string)) :
  lower_case_names fullHeaders = true ->
  pickHeaders fullHeaders = kept fullHeaders "user-agent"
  /\ (forall k v, Json.assoc k (pickHeaders fullHeaders) = Some v ->
        k = "user-agent" /\ Json.assoc "user-agent" fullHeaders = Some v)
  /\ Json.assoc "Content-Type" (pickHeaders fullHeaders) = None
  /\ Json.assoc "Authorization" (pickHeaders fullHeaders) = None.
Proof.
  intros Hl.
  assert (Hmiss : forall k, toLowerCase k <> k -> kept fullHeaders k = []).
  { intros k Hk. unfold kept.
    destruct (Json.assoc k fullHeaders) as [x|] eqn:E; [|reflexivity].
    elim Hk. exact (lower_case_assoc _ _ _ Hl E). }
  assert (E : pickHeaders fullHeaders = kept fullHeaders "user-agent").
  { rewrite pickHeaders_flat_map. unfold allowList. cbn [flat_map].
    rewrite (Hmiss "Content-Type"), (Hmiss "Authorization") by discriminate.
    cbn [app]. apply List.app_nil_r. }
  rewrite E. unfold kept.
  destruct (Json.assoc "user-agent" fullHeaders) as [x|]; [destruct (is_empty x)|];
    repeat split; try reflexivity; try discriminate.
  - cbn [Json.assoc] in H. destruct (k =? "user-agent")%string eqn:K; [|discriminate].
    now apply String.eqb_eq.
  - cbn [Json.assoc] in H. destruct (k =? "user-agent")%string; [|discriminate].
    now injection H as <-.
Qed.

End Keys.

Section Fingerprint.

Import Run Orchestrator FsFacts StringFacts.

Variable this : MockServer.


End Fingerprint.

(* ================================================================== *)
(** ** Where the code departs from the wording *)
(* ================================================================== *)

(** C3. With a regular file in the place of the snapshot directory the
    save throws after a successful fetch, and [fetchFromServer] returns
    nothing. *)
Lemma failed_save_loses_the_response :
  fst (fetchFromServer Sample.P Sample.server Sample.get_users Sample.blocked) = Ok None
  /\ ~ Worded.fetched_data_survives_failed_save.
Proof.
  split; [vm_compute; reflexivity|]. intros H.
  destruct (H Sample.P Sample.server Sample.get_users Sample.blocked Sample.users
              (FsError "mkdir" "__mock-server-snapshots__/api.example.com/v1")
              (logw Sample.server (Msg "[http] fetched data from http://api.example.com/v1/users")
                 (add_upstream (HttpCall (options_of Sample.get_users)) Sample.blocked)))
    as (s & w'' & Hf & _).
  - reflexivity.
  - vm_compute. reflexivity.
  - vm_compute in Hf. discriminate Hf.
Qed.

(** C6. Off the root path the url= parameter is part of the target, not
    the target. *)
Lemma url_parameter_is_read_on_the_root_only :
  served_href Sample.P Sample.off_root
  = Some "https://other.example/b?url=https://example.com/a"
  /\ ~ Worded.url_parameter_first.
Proof.
  split; [vm_compute; reflexivity|]. intros H.
  destruct (H Sample.P Sample.off_root "/https://other.example/b" "https://example.com/a"
              {| Url.href := "https://example.com/a"; Url.origin := "https://example.com";
                 Url.host := "example.com"; Url.pathname := "/a" |})
    as (r & Hr & Hh).
  - reflexivity.
  - vm_compute. reflexivity.
  - vm_compute in Hr. injection Hr as <-. vm_compute in Hh. discriminate Hh.
Qed.



(* ================================================================== *)
(** ** The properties at the sample requests *)
(* ================================================================== *)

(** The binary round trip at the record of [get_users], bytes 00 ff 80 41,
    saved on an empty store. *)
Lemma save_then_fetch_on_an_empty_store :
  saveSnapshot Sample.server Sample.record Sample.empty = (Ok tt, Sample.saved)
  /\ Fs.readFileSync (fs Sample.saved)
       (data_file (getSnapshotFiles (request Sample.record)))
     = Some (data Sample.record)
  /\ exists w'', fetchFromSnapshot Sample.server (request Sample.record) Sample.saved
                 = (Ok (Some Sample.record), w'').
Proof.
  assert (H : saveSnapshot Sample.server Sample.record Sample.empty
              = (Ok tt, Sample.saved)) by (vm_compute; reflexivity).
  split; [exact H|].
  exact (save_then_fetch_returns_the_bytes Sample.server Sample.record
           Sample.empty Sample.saved H).
Defined.

(** Fail open at a metadata artifact cut in the middle of a key. *)
Lemma truncated_metadata_is_a_miss :
  (exists text,
     Fs.readFileSync (fs Sample.truncated) (info_file (getSnapshotFiles Sample.get_users))
     = Some text /\ Json.parse (Buffer.toString text) = None)
  /\ fetchFromSnapshot Sample.server Sample.get_users Sample.truncated
     = (Ok None,
        logw Sample.server
          (Msg ("[warning] no snapshot file found for path " ++ href Sample.get_users
                ++ " fetching from remote")) Sample.truncated)
  /\ engine Sample.P Sample.server (ViaHttp Sample.get_users) Sample.truncated
     = live Sample.P Sample.server (ViaHttp Sample.get_users)
         (logw Sample.server
            (Msg ("[warning] no snapshot file found for path " ++ href Sample.get_users
                  ++ " fetching from remote")) Sample.truncated)
  /\ upstream (snd (engine Sample.P Sample.server (ViaHttp Sample.get_users) Sample.truncated))
     = (upstream Sample.truncated ++ [call_of (ViaHttp Sample.get_users)])%list.
Proof.
  assert (H : exists text,
             Fs.readFileSync (fs Sample.truncated)
               (info_file (getSnapshotFiles Sample.get_users)) = Some text
             /\ Json.parse (Buffer.toString text) = None).
  { exists (Buffer.of_string (dq "{'status':200,'statusTe")).
    split; vm_compute; reflexivity. }
  split; [exact H|].
  exact (unreadable_snapshot_is_a_miss Sample.P Sample.server (ViaHttp Sample.get_users)
           Sample.truncated (or_intror (or_introl H))).
Defined.

(** Replay after the first call for [get_users], with a socket call and
    another HTTP call in between. *)
Lemma second_call_is_replayed :
  live Sample.P Sample.server (ViaHttp Sample.get_users) Sample.empty
  = (Ok (Some Sample.record), Sample.recorded)
  /\ Store.load
       (fs (after Sample.P Sample.server
              [ViaSocket Sample.ping; ViaHttp Sample.typed_then_authorized] Sample.recorded))
       (getSnapshotFiles Sample.get_users)
     = Some (info Sample.record, data Sample.record)
  /\ exists w',
       engine Sample.P Sample.server (ViaHttp Sample.get_users)
         (after Sample.P Sample.server
            [ViaSocket Sample.ping; ViaHttp Sample.typed_then_authorized] Sample.recorded)
       = (Ok (Some {| data := data Sample.record; info := info Sample.record;
                      request := Sample.get_users |}), w')
       /\ upstream w'
          = upstream (after Sample.P Sample.server
                        [ViaSocket Sample.ping; ViaHttp Sample.typed_then_authorized]
                        Sample.recorded)
       /\ fs w'
          = fs (after Sample.P Sample.server
                  [ViaSocket Sample.ping; ViaHttp Sample.typed_then_authorized]
                  Sample.recorded).
Proof.
  assert (H : live Sample.P Sample.server (ViaHttp Sample.get_users) Sample.empty
              = (Ok (Some Sample.record), Sample.recorded)) by (vm_compute; reflexivity).
  split; [exact H|].
  exact (replay_skips_upstream Sample.P Sample.server (ViaHttp Sample.get_users)
           Sample.record Sample.empty Sample.recorded
           [ViaSocket Sample.ping; ViaHttp Sample.typed_then_authorized]
           (ViaHttp Sample.get_users) H eq_refl).
Defined.

(** The failed save at the store whose root is a regular file. *)
Lemma blocked_store_discards_the_fetch :
  fetchFromServer Sample.P Sample.server Sample.get_users Sample.blocked
  = (Ok None,
     logw Sample.server (Err (FsError "mkdir" "__mock-server-snapshots__/api.example.com/v1"))
       (logw Sample.server (Msg "[http] fetched data from http://api.example.com/v1/users")
          (add_upstream (HttpCall (options_of Sample.get_users)) Sample.blocked)))
  /\ (Store.load (fs Sample.blocked) (getSnapshotFiles Sample.get_users) = None ->
      fst (replayOrFetch Sample.P Sample.server Sample.get_users Sample.blocked) = Ok None).
Proof.
  apply (failed_save_discards_the_fetch Sample.P Sample.server Sample.get_users
           Sample.blocked Sample.users).
  - reflexivity.
  - vm_compute. reflexivity.
Defined.


(** The rejection at an empty [url] parameter. *)
Lemma empty_url_is_rejected :
  fst (onConnection Sample.server 7 (Some EmptyString) Sample.empty)
  = Throw (TypeError "Invalid URL")
  /\ disconnected (snd (onConnection Sample.server 7 (Some EmptyString) Sample.empty))
     = (disconnected Sample.empty ++ [7%nat])%list
  /\ listeners (snd (onConnection Sample.server 7 (Some EmptyString) Sample.empty))
     = listeners Sample.empty
  /\ forall d,
       deliver Sample.P Sample.server 7 d
         (snd (onConnection Sample.server 7 (Some EmptyString) Sample.empty))
       = (Ok tt, snd (onConnection Sample.server 7 (Some EmptyString) Sample.empty)).
Proof.
  apply (blank_url_is_rejected Sample.P Sample.server 7 (Some EmptyString) Sample.empty).
  right. reflexivity.
Defined.


(** Target resolution at the request on the root path. *)
Lemma root_request_is_resolved :
  handleHttp Sample.P Sample.server Sample.on_root Sample.empty
  = match resolveTarget Sample.P Sample.on_root with
    | inr target =>
        serveResolved Sample.P Sample.server (with_url Sample.on_root target) Sample.empty
    | inl (Raised e) => (Throw e, Sample.empty)
    | inl (Unrouted status) => (Ok tt, add_response (ResFinal status) Sample.empty)
    end
  /\ resolveTarget Sample.P Sample.on_root = inr "https://example.com/a".
Proof.
  split; [|vm_compute; reflexivity].
  exact (proj1 (target_resolution Sample.P Sample.server Sample.on_root Sample.empty)).
Defined.

(** The layout at [get_users]. *)
Lemma layout_of_get_users :
  info_file (getSnapshotFiles Sample.get_users)
  = "__mock-server-snapshots__/api.example.com/v1/users.GET.c97fbd87210347948d5f64a27858dd16.json"
  /\ info_file (getSnapshotFiles Sample.get_users) <> data_file (getSnapshotFiles Sample.get_users)
  /\ Path.dirname (info_file (getSnapshotFiles Sample.get_users))
     = directory (getSnapshotFiles Sample.get_users).
Proof.
  split; [vm_compute; reflexivity|].
  pose proof (snapshot_layout Sample.get_users) as H. cbv zeta in H.
  exact (conj (proj1 (proj2 H)) (proj1 (proj2 (proj2 H)))).
Defined.

(** The allow-list at a request sent with Cookie, Authorization and
    X-Trace: no header is kept. *)
Lemma authorization_header_is_dropped :
  lower_case_names Sample.cookie_authorization_trace = true
  /\ pickHeaders Sample.cookie_authorization_trace = []
  /\ Json.assoc "Authorization" (pickHeaders Sample.cookie_authorization_trace) = None.
Proof.
  assert (H : lower_case_names Sample.cookie_authorization_trace = true) by reflexivity.
  split; [exact H|].
  pose proof (capitalised_names_match_nothing Sample.cookie_authorization_trace H) as T.
  exact (conj (proj1 T) (proj2 (proj2 (proj2 T)))).
Defined.

(* ================================================================== *)
(** ** The platform models at known values *)
(* ================================================================== *)

Example md5_of_the_empty_message : Md5.md5 EmptyString = "d41d8cd98f00b204e9800998ecf8427e".
Proof. vm_compute. reflexivity. Qed.

Example md5_of_abc : Md5.md5 "abc" = "900150983cd24fb0d6963f7d28e17f72".
Proof. vm_compute. reflexivity. Qed.

Example md5_of_two_blocks :
  Md5.md5 "12345678901234567890123456789012345678901234567890123456789012345678901234567890"
  = "57edf4a22be3c955ac49da2e2107b67a".
Proof. vm_compute. reflexivity. Qed.

Example stringify_of_a_request :
  Json.stringify (json_of_requestData Sample.get_users)
  = dq ("{'host':'api.example.com','pathname':'/v1/users',"
        ++ "'href':'http://api.example.com/v1/users','method':'GET',"
        ++ "'headers':{'user-agent':'curl/8.0'},'body':{}}").
Proof. vm_compute. reflexivity. Qed.

Example parse_of_cut_metadata : Json.parse (dq "{'status':200,'statusTe") = None.
Proof. vm_compute. reflexivity. Qed.

Example parse_with_white_space :
  Json.parse (dq " { 'a' : [ 1 , -2 , 'x\ny' ] , 'b' : null } ")
  = Some (JObj [("a", JArr [JNum 1; JNum (-2); JStr (String "x" (String (ascii_of_N 10) "y"))]);
                ("b", JNull)]).
Proof. vm_compute. reflexivity. Qed.

Example url_of_the_referer :
  option_map Url.origin
    (Url.parse (substring "http://localhost:9001/http://api.example.com/v1/users"
                  (indexOf "http://localhost:9001/http://api.example.com/v1/users" "/http" + 1)))
  = Some "http://api.example.com".
Proof. vm_compute. reflexivity. Qed.

Example url_without_scheme : Url.parse "undefined" = None /\ Url.parse "style.css" = None.
Proof. split; vm_compute; reflexivity. Qed.

Example dirname_of_a_key :
  directory (getSnapshotFiles Sample.get_users) = "__mock-server-snapshots__/api.example.com/v1"
  /\ Path.dirname "a//b" = "a/" /\ Path.dirname "/a" = "/" /\ Path.dirname "a" = ".".
Proof. split; [|split; [|split]]; vm_compute; reflexivity. Qed.

Example first_call_records_second_replays :
  upstream Sample.recorded = [HttpCall (options_of Sample.get_users)]
  /\ upstream (snd (handleHttp Sample.P Sample.server (Sample.inbound_users [("host", "localhost:9001"); ("user-agent", "curl/8.0")]) Sample.recorded))
     = [HttpCall (options_of Sample.get_users)]
  /\ response (snd (handleHttp Sample.P Sample.server (Sample.inbound_users [("host", "localhost:9001"); ("user-agent", "curl/8.0")]) Sample.recorded))
     = [ResSet "Content-Type" (Some (JStr "application/octet-stream"));
        ResSend (Some [Byte.x00; Byte.xff; Byte.x80; Byte.x41])].
Proof. split; [|split]; vm_compute; reflexivity. Qed.
(* ================================================================== *)
(** ** Logging *)
(* ================================================================== *)

Module LogFacts.

Lemma quiet_fields (w1 w2 : World) :
  quiet w1 = quiet w2 ->
  fs w1 = fs w2 /\ upstream w1 = upstream w2 /\ response w1 = response w2
  /\ disconnected w1 = disconnected w2 /\ listeners w1 = listeners w2
  /\ replies w1 = replies w2.
Proof. unfold quiet. intros [= -> -> -> -> -> ->]. auto 10. Qed.

Lemma quiet_of_fields (w1 w2 : World) :
  fs w1 = fs w2 -> upstream w1 = upstream w2 -> response w1 = response w2 ->
  disconnected w1 = disconnected w2 -> listeners w1 = listeners w2 ->
  replies w1 = replies w2 -> quiet w1 = quiet w2.
Proof. unfold quiet. now intros -> -> -> -> -> ->. Qed.

Ltac fields H :=
  apply quiet_fields in H;
  destruct H as (?Hfs & ?Hup & ?Hres & ?Hdis & ?Hlis & ?Hrep).

Lemma sbc_ret {A : Type} (a : A) : same_but_console (ret a) (ret a).
Proof. intros w1 w2 H. split; [reflexivity|exact H]. Qed.

Lemma sbc_throw {A : Type} (e : error) : same_but_console (@throw A e) (throw e).
Proof. intros w1 w2 H. split; [reflexivity|exact H]. Qed.

Lemma sbc_bind {A B : Type} (m1 m2 : M A) (k1 k2 : A -> M B) :
  same_but_console m1 m2 -> (forall a, same_but_console (k1 a) (k2 a)) ->
  same_but_console (bind m1 k1) (bind m2 k2).
Proof.
  intros Hm Hk w1 w2 H. unfold bind. destruct (Hm w1 w2 H) as [E Q].
  destruct (m1 w1) as [[a|e|] u1], (m2 w2) as [[b|e'|] u2];
    cbn [fst snd] in *; try discriminate E.
  - injection E as ->. exact (Hk b u1 u2 Q).
  - injection E as ->. split; [reflexivity|exact Q].
  - split; [reflexivity|exact Q].
Qed.

Lemma sbc_try_catch {A : Type} (m1 m2 : M A) (h1 h2 : error -> M A) :
  same_but_console m1 m2 -> (forall e, same_but_console (h1 e) (h2 e)) ->
  same_but_console (try_catch m1 h1) (try_catch m2 h2).
Proof.
  intros Hm Hh w1 w2 H. unfold try_catch. destruct (Hm w1 w2 H) as [E Q].
  destruct (m1 w1) as [[a|e|] u1], (m2 w2) as [[b|e'|] u2];
    cbn [fst snd] in *; try discriminate E.
  - split; [exact E|exact Q].
  - injection E as ->. exact (Hh e' u1 u2 Q).
  - split; [reflexivity|exact Q].
Qed.

Lemma sbc_in_callback {A : Type} (m1 m2 : M A) :
  same_but_console m1 m2 -> same_but_console (in_callback m1) (in_callback m2).
Proof.
  intros Hm w1 w2 H. unfold in_callback. destruct (Hm w1 w2 H) as [E Q].
  destruct (m1 w1) as [[a|e|] u1], (m2 w2) as [[b|e'|] u2];
    cbn [fst snd] in *; try discriminate E.
  - split; [exact E|exact Q].
  - split; [reflexivity|exact Q].
  - split; [reflexivity|exact Q].
Qed.

Lemma sbc_log (this1 this2 : MockServer) (m : log_item) (force : bool) :
  same_but_console (log this1 m force) (log this2 m force).
Proof.
  intros w1 w2 H. unfold log.
  destruct (logAll this1 || force), (logAll this2 || force);
    (split; [reflexivity|exact H]).
Qed.

Lemma sbc_readFileSync (p : string) : same_but_console (readFileSync p) (readFileSync p).
Proof.
  intros w1 w2 H. pose proof H as H'. fields H'. unfold readFileSync. rewrite Hfs.
  destruct (Fs.readFileSync (fs w2) p); (split; [reflexivity|exact H]).
Qed.

Lemma sbc_mkdirSync (p : string) : same_but_console (mkdirSync p) (mkdirSync p).
Proof.
  intros w1 w2 H. pose proof H as H'. fields H'. unfold mkdirSync. rewrite Hfs.
  destruct (Fs.mkdirSync (fs w2) p); (split; [reflexivity|]); [|exact H].
  apply quiet_of_fields; assumption || reflexivity.
Qed.

Lemma sbc_writeFileSync (p : string) (b : Buffer.t) :
  same_but_console (writeFileSync p b) (writeFileSync p b).
Proof.
  intros w1 w2 H. pose proof H as H'. fields H'. unfold writeFileSync. rewrite Hfs.
  destruct (Fs.writeFileSync (fs w2) p b); (split; [reflexivity|]); [|exact H].
  apply quiet_of_fields; assumption || reflexivity.
Qed.

Lemma sbc_JSON_parse (text : string) : same_but_console (JSON_parse text) (JSON_parse text).
Proof. unfold JSON_parse. destruct (Json.parse text); [apply sbc_ret|apply sbc_throw]. Qed.

Lemma sbc_new_URL (input : string) : same_but_console (new_URL input) (new_URL input).
Proof. unfold new_URL. destruct (Url.parse input); [apply sbc_ret|apply sbc_throw]. Qed.

Lemma sbc_decodeURIComponent (x : option string) :
  same_but_console (decodeURIComponent x) (decodeURIComponent x).
Proof.
  unfold decodeURIComponent.
  destruct (Url.decodeURIComponent x); [apply sbc_ret|apply sbc_throw].
Qed.

Lemma sbc_get_prop (x : option json) (key : string) :
  same_but_console (get_prop x key) (get_prop x key).
Proof.
  destruct x as [[]|]; cbn [get_prop]; apply sbc_ret || apply sbc_throw.
Qed.

Lemma sbc_call_axios (P : Platform) (o : axiosOptions) :
  same_but_console (call_axios P o) (call_axios P o).
Proof.
  intros w1 w2 H. fields H. unfold call_axios. rewrite Hup.
  destruct (axios P (upstream w2) o); (split; [reflexivity|]);
    apply quiet_of_fields; cbn; congruence.
Qed.

Lemma sbc_call_emit (P : Platform) (target : string) (message : json) :
  same_but_console (call_emit P target message) (call_emit P target message).
Proof.
  intros w1 w2 H. fields H. unfold call_emit. rewrite Hup.
  destruct (emit P (upstream w2) target message); (split; [reflexivity|]);
    apply quiet_of_fields; cbn; congruence.
Qed.

Lemma sbc_res_set (field : string) (value : option json) :
  same_but_console (res_set field value) (res_set field value).
Proof.
  intros w1 w2 H. fields H. split; [reflexivity|].
  apply quiet_of_fields; cbn; congruence.
Qed.

Lemma sbc_res_send (body : option Buffer.t) :
  same_but_console (res_send body) (res_send body).
Proof.
  intros w1 w2 H. fields H. split; [reflexivity|].
  apply quiet_of_fields; cbn; congruence.
Qed.

Lemma sbc_res_final (status : Z) : same_but_console (res_final status) (res_final status).
Proof.
  intros w1 w2 H. fields H. split; [reflexivity|].
  apply quiet_of_fields; cbn; congruence.
Qed.

Lemma sbc_socket_disconnect (id : nat) :
  same_but_console (socket_disconnect id) (socket_disconnect id).
Proof.
  intros w1 w2 H. fields H. split; [reflexivity|].
  apply quiet_of_fields; cbn; congruence.
Qed.

Lemma sbc_socket_on_message (id : nat) (l : listener) :
  same_but_console (socket_on_message id l) (socket_on_message id l).
Proof.
  intros w1 w2 H. fields H. split; [reflexivity|].
  apply quiet_of_fields; cbn; congruence.
Qed.

Lemma sbc_callback (id : nat) (v : json) : same_but_console (callback id v) (callback id v).
Proof.
  intros w1 w2 H. fields H. split; [reflexivity|].
  apply quiet_of_fields; cbn; congruence.
Qed.

Create HintDb sbc.

#[export] Hint Resolve sbc_ret sbc_throw sbc_log sbc_readFileSync sbc_mkdirSync
  sbc_writeFileSync sbc_JSON_parse sbc_new_URL sbc_decodeURIComponent sbc_get_prop
  sbc_call_axios sbc_call_emit sbc_res_set sbc_res_send sbc_res_final sbc_socket_disconnect
  sbc_socket_on_message sbc_callback : sbc.

(** One step through the structure of a method. *)
Ltac sbc_step :=
  match goal with
  | |- same_but_console (bind _ _) (bind _ _) => apply sbc_bind; [|intros ?]
  | |- same_but_console (try_catch _ _) (try_catch _ _) => apply sbc_try_catch; [|intros ?]
  | |- same_but_console (in_callback _) (in_callback _) => apply sbc_in_callback
  | |- same_but_console (match ?x with _ => _ end) (match ?x with _ => _ end) => destruct x
  | |- same_but_console (if ?x then _ else _) (if ?x then _ else _) => destruct x
  | |- same_but_console _ _ => solve [auto with sbc]
  end.

Ltac sbc := repeat sbc_step.

Section Methods.

Variable P : Platform.
Variables this1 this2 : MockServer.

Lemma sbc_fetchFromSnapshot (r : requestData) :
  same_but_console (fetchFromSnapshot this1 r) (fetchFromSnapshot this2 r).
Proof. unfold fetchFromSnapshot. cbv zeta. sbc. Qed.

Lemma sbc_saveSnapshot (s : snapshotData) :
  same_but_console (saveSnapshot this1 s) (saveSnapshot this2 s).
Proof. unfold saveSnapshot. cbv zeta. sbc. Qed.

Hint Resolve sbc_fetchFromSnapshot sbc_saveSnapshot : sbc.

Lemma sbc_fetchFromServer (r : requestData) :
  same_but_console (fetchFromServer P this1 r) (fetchFromServer P this2 r).
Proof. unfold fetchFromServer. cbv zeta. sbc. Qed.

Lemma sbc_fetchFromSocketIOServer (r : requestData) :
  same_but_console (fetchFromSocketIOServer P this1 r) (fetchFromSocketIOServer P this2 r).
Proof. unfold fetchFromSocketIOServer. cbv zeta. sbc. Qed.

Hint Resolve sbc_fetchFromServer sbc_fetchFromSocketIOServer : sbc.

Lemma sbc_recordReplayData (req : Request) :
  same_but_console (recordReplayData P this1 req) (recordReplayData P this2 req).
Proof. unfold recordReplayData, normalizeRequest, replayOrFetch. cbv zeta. sbc. Qed.

Lemma sbc_recordReplaySocketIO (r : requestData) :
  same_but_console (recordReplaySocketIO P this1 r) (recordReplaySocketIO P this2 r).
Proof. unfold recordReplaySocketIO. sbc. Qed.

Hint Resolve sbc_recordReplayData sbc_recordReplaySocketIO : sbc.

Lemma sbc_serveHttpData (req : Request) :
  same_but_console (serveHttpData P this1 req) (serveHttpData P this2 req).
Proof.
  unfold serveHttpData, fromSubdomain, fromReferer, serveResolved. cbv zeta. sbc.
Qed.

Hint Resolve sbc_serveHttpData : sbc.

Lemma sbc_handleHttp (req : Request) :
  same_but_console (handleHttp P this1 req) (handleHttp P this2 req).
Proof. unfold handleHttp, rootRoute, starRoute. cbv zeta. sbc. Qed.

Lemma sbc_onConnection (id : nat) (url : option string) :
  same_but_console (onConnection this1 id url) (onConnection this2 id url).
Proof. unfold onConnection. cbv zeta. sbc. Qed.

Lemma sbc_onMessage (id : nat) (l : listener) (d : json) :
  same_but_console (onMessage P this1 id l d) (onMessage P this2 id l d).
Proof. unfold onMessage. cbv zeta. sbc. Qed.

Hint Resolve sbc_onMessage : sbc.

Lemma sbc_deliver_to (id : nat) (d : json) (ls : list (nat * listener)) :
  same_but_console (deliver_to P this1 id d ls) (deliver_to P this2 id d ls).
Proof.
  induction ls as [|[id' l] ls IH]; cbn [deliver_to]; [apply sbc_ret|].
  destruct (Nat.eqb id id'); [|exact IH].
  apply sbc_bind; [apply sbc_onMessage|intros _; exact IH].
Qed.

Lemma sbc_deliver (id : nat) (d : json) :
  same_but_console (deliver P this1 id d) (deliver P this2 id d).
Proof.
  intros w1 w2 H. unfold deliver. pose proof H as H'. fields H'.
  rewrite Hdis, Hlis. destruct (existsb (Nat.eqb id) (disconnected w2)).
  - split; [reflexivity|exact H].
  - apply sbc_deliver_to, H.
Qed.

End Methods.


(** The same walk for [silent]. *)
Lemma silent_ret {A : Type} (a : A) : silent (ret a).
Proof. intros w. reflexivity. Qed.

Lemma silent_throw {A : Type} (e : error) : silent (@throw A e).
Proof. intros w. reflexivity. Qed.

Lemma silent_bind {A B : Type} (m : M A) (k : A -> M B) :
  silent m -> (forall a, silent (k a)) -> silent (bind m k).
Proof.
  intros Hm Hk w. unfold bind. specialize (Hm w).
  destruct (m w) as [[a|e|] u]; cbn [snd] in *; [|exact Hm|exact Hm].
  now rewrite Hk.
Qed.

Lemma silent_try_catch {A : Type} (m : M A) (h : error -> M A) :
  silent m -> (forall e, silent (h e)) -> silent (try_catch m h).
Proof.
  intros Hm Hh w. unfold try_catch. specialize (Hm w).
  destruct (m w) as [[a|e|] u]; cbn [snd] in *; [exact Hm| |exact Hm].
  now rewrite Hh.
Qed.

Lemma silent_in_callback {A : Type} (m : M A) : silent m -> silent (in_callback m).
Proof.
  intros Hm w. unfold in_callback. specialize (Hm w).
  destruct (m w) as [[a|e|] u]; exact Hm.
Qed.

Lemma silent_log (this : MockServer) (m : log_item) :
  logAll this = false -> silent (log this m false).
Proof. intros H w. unfold log. now rewrite H. Qed.

Lemma silent_readFileSync (p : string) : silent (readFileSync p).
Proof. intros w. unfold readFileSync. now destruct (Fs.readFileSync (fs w) p). Qed.

Lemma silent_mkdirSync (p : string) : silent (mkdirSync p).
Proof. intros w. unfold mkdirSync. now destruct (Fs.mkdirSync (fs w) p). Qed.

Lemma silent_writeFileSync (p : string) (b : Buffer.t) : silent (writeFileSync p b).
Proof. intros w. unfold writeFileSync. now destruct (Fs.writeFileSync (fs w) p b). Qed.

Lemma silent_JSON_parse (text : string) : silent (JSON_parse text).
Proof. unfold JSON_parse. destruct (Json.parse text); [apply silent_ret|apply silent_throw]. Qed.

Lemma silent_new_URL (input : string) : silent (new_URL input).
Proof. unfold new_URL. destruct (Url.parse input); [apply silent_ret|apply silent_throw]. Qed.

Lemma silent_decodeURIComponent (x : option string) : silent (decodeURIComponent x).
Proof.
  unfold decodeURIComponent.
  destruct (Url.decodeURIComponent x); [apply silent_ret|apply silent_throw].
Qed.

Lemma silent_get_prop (x : option json) (key : string) : silent (get_prop x key).
Proof. destruct x as [[]|]; cbn [get_prop]; apply silent_ret || apply silent_throw. Qed.

Lemma silent_call_axios (P : Platform) (o : axiosOptions) : silent (call_axios P o).
Proof. intros w. unfold call_axios. now destruct (axios P (upstream w) o). Qed.

Lemma silent_call_emit (P : Platform) (target : string) (message : json) :
  silent (call_emit P target message).
Proof. intros w. unfold call_emit. now destruct (emit P (upstream w) target message). Qed.

Lemma silent_res_set (field : string) (value : option json) : silent (res_set field value).
Proof. intros w. reflexivity. Qed.

Lemma silent_res_send (body : option Buffer.t) : silent (res_send body).
Proof. intros w. reflexivity. Qed.

Lemma silent_res_final (status : Z) : silent (res_final status).
Proof. intros w. reflexivity. Qed.

Lemma silent_socket_disconnect (id : nat) : silent (socket_disconnect id).
Proof. intros w. reflexivity. Qed.

Lemma silent_socket_on_message (id : nat) (l : listener) : silent (socket_on_message id l).
Proof. intros w. reflexivity. Qed.

Lemma silent_callback (id : nat) (v : json) : silent (callback id v).
Proof. intros w. reflexivity. Qed.

Create HintDb silent.

#[export] Hint Resolve silent_ret silent_throw silent_log silent_readFileSync
  silent_mkdirSync silent_writeFileSync silent_JSON_parse silent_new_URL
  silent_decodeURIComponent silent_get_prop silent_call_axios silent_call_emit
  silent_res_set silent_res_send silent_res_final silent_socket_disconnect
  silent_socket_on_message
  silent_callback : silent.

Ltac silent_step :=
  match goal with
  | |- silent (bind _ _) => apply silent_bind; [|intros ?]
  | |- silent (try_catch _ _) => apply silent_try_catch; [|intros ?]
  | |- silent (in_callback _) => apply silent_in_callback
  | |- silent (match ?x with _ => _ end) => destruct x
  | |- silent (if ?x then _ else _) => destruct x
  | |- silent _ => solve [auto with silent]
  end.

Ltac silence := repeat silent_step.

Section Quiet.

Variable P : Platform.
Variable this : MockServer.
Hypothesis off : logAll this = false.

Lemma silent_fetchFromSnapshot (r : requestData) : silent (fetchFromSnapshot this r).
Proof using off. unfold fetchFromSnapshot. cbv zeta. silence. Qed.

Lemma silent_saveSnapshot (s : snapshotData) : silent (saveSnapshot this s).
Proof using off. unfold saveSnapshot. cbv zeta. silence. Qed.

Hint Resolve silent_fetchFromSnapshot silent_saveSnapshot : silent.

Lemma silent_fetchFromServer (r : requestData) : silent (fetchFromServer P this r).
Proof using off. unfold fetchFromServer. cbv zeta. silence. Qed.

Lemma silent_fetchFromSocketIOServer (r : requestData) :
  silent (fetchFromSocketIOServer P this r).
Proof using off. unfold fetchFromSocketIOServer. cbv zeta. silence. Qed.

Hint Resolve silent_fetchFromServer silent_fetchFromSocketIOServer : silent.

Lemma silent_recordReplayData (req : Request) : silent (recordReplayData P this req).
Proof using off. unfold recordReplayData, normalizeRequest, replayOrFetch. cbv zeta. silence. Qed.

Lemma silent_recordReplaySocketIO (r : requestData) : silent (recordReplaySocketIO P this r).
Proof using off. unfold recordReplaySocketIO. silence. Qed.

Hint Resolve silent_recordReplayData silent_recordReplaySocketIO : silent.

Lemma silent_serveHttpData (req : Request) : silent (serveHttpData P this req).
Proof using off.
  unfold serveHttpData, fromSubdomain, fromReferer, serveResolved. cbv zeta. silence.
Qed.

Hint Resolve silent_serveHttpData : silent.

Lemma silent_handleHttp (req : Request) : silent (handleHttp P this req).
Proof using off. unfold handleHttp, rootRoute, starRoute. cbv zeta. silence. Qed.

Lemma silent_onConnection (id : nat) (url : option string) :
  silent (onConnection this id url).
Proof using off. unfold onConnection. cbv zeta. silence. Qed.

Lemma silent_onMessage (id : nat) (l : listener) (d : json) :
  silent (onMessage P this id l d).
Proof using off. unfold onMessage. cbv zeta. silence. Qed.

Lemma silent_deliver_to (id : nat) (d : json) (ls : list (nat * listener)) :
  silent (deliver_to P this id d ls).
Proof using off.
  induction ls as [|[id' l] ls IH]; cbn [deliver_to]; [apply silent_ret|].
  destruct (Nat.eqb id id'); [|exact IH].
  apply silent_bind; [apply silent_onMessage|intros _; exact IH].
Qed.

Lemma silent_deliver (id : nat) (d : json) : silent (deliver P this id d).
Proof using off.
  intros w. unfold deliver. destruct (existsb (Nat.eqb id) (disconnected w)); [reflexivity|].
  apply silent_deliver_to.
Qed.

End Quiet.

End LogFacts.

Section Logging.

Variable P : Platform.

(** X1. The log switch changes nothing but the console: with [logAll]
    set or not, an HTTP request, a socket connection and a socket
    message have the same outcome and leave the same file system,
    upstream calls, response, listeners and replies. *)
Theorem logging_only_changes_the_console (this1 this2 : MockServer) (req : Request)
    (id : nat) (url : option string) (d : json) (w : World) :
  (fst (handleHttp P this1 req w) = fst (handleHttp P this2 req w)
   /\ quiet (snd (handleHttp P this1 req w)) = quiet (snd (handleHttp P this2 req w)))
  /\ (fst (onConnection this1 id url w) = fst (onConnection this2 id url w)
      /\ quiet (snd (onConnection this1 id url w)) = quiet (snd (onConnection this2 id url w)))
  /\ (fst (deliver P this1 id d w) = fst (deliver P this2 id d w)
      /\ quiet (snd (deliver P this1 id d w)) = quiet (snd (deliver P this2 id d w))).
Proof.
  split; [|split].
  - now apply LogFacts.sbc_handleHttp.
  - now apply LogFacts.sbc_onConnection.
  - now apply LogFacts.sbc_deliver.
Qed.

(** X2. With [logAll] off, serving an HTTP request, accepting or
    refusing a socket connection and answering a socket message print
    nothing: every log call of these paths is unforced. *)
Theorem quiet_server_prints_nothing (this : MockServer) (req : Request)
    (id : nat) (url : option string) (d : json) (w : World) :
  logAll this = false ->
  console (snd (handleHttp P this req w)) = console w
  /\ console (snd (onConnection this id url w)) = console w
  /\ console (snd (deliver P this id d w)) = console w.
Proof.
  intros off. split; [|split].
  - now apply LogFacts.silent_handleHttp.
  - now apply LogFacts.silent_onConnection.
  - now apply LogFacts.silent_deliver.
Qed.

End Logging.
(* ================================================================== *)
(** ** What a save leaves in the file system *)
(* ================================================================== *)

Module StoreFacts.
Import StringFacts FsFacts Run Orchestrator.

Lemma mkdirs_inside (l : list string) (f : gmap string Fs.node) (q : string) :
  In q l -> List.fold_left (fun m d => <[d := Fs.Dir]> m) l f !! q = Some Fs.Dir.
Proof.
  revert f. induction l as [|d l IH]; intros f; [intros []|].
  cbn [In fold_left]. destruct (in_dec string_dec q l) as [Hin|Hout].
  - intros _. now apply IH.
  - intros [->|Hin]; [|contradiction]. clear IH.
    assert (G : forall g : gmap string Fs.node, g !! q = Some Fs.Dir ->
                  List.fold_left (fun m d => <[d := Fs.Dir]> m) l g !! q = Some Fs.Dir).
    { induction l as [|x l IHl]; intros g Hg; [exact Hg|].
      cbn [fold_left]. apply IHl; [intros H; apply Hout; now right|].
      rewrite lookup_insert_ne; [exact Hg|]. intros ->. apply Hout. now left. }
    apply G. now rewrite lookup_insert_eq.
Qed.

Lemma mkdirs_outside (l : list string) (f : gmap string Fs.node) (q : string) :
  ~ In q l -> List.fold_left (fun m d => <[d := Fs.Dir]> m) l f !! q = f !! q.
Proof.
  revert f. induction l as [|d l IH]; intros f Hout; [reflexivity|].
  cbn [fold_left]. rewrite IH by (intros H; apply Hout; now right).
  apply lookup_insert_ne. intros ->. apply Hout. now left.
Qed.

Lemma mkdirSync_lookup (f f' : gmap string Fs.node) (p q : string) :
  Fs.mkdirSync f p = Some f' ->
  f' !! q = if in_dec string_dec q (Path.ancestors p) then Some Fs.Dir else f !! q.
Proof.
  unfold Fs.mkdirSync. destruct (Fs.too_long p); [discriminate|].
  destruct (existsb _ _); [discriminate|]. intros [= <-].
  destruct (in_dec string_dec q (Path.ancestors p)) as [Hin|Hout].
  - now apply mkdirs_inside.
  - now apply mkdirs_outside.
Qed.

Lemma mkdirSync_ok (f : gmap string Fs.node) (p : string) :
  Fs.too_long p = false ->
  (forall q, In q (Path.ancestors p) -> Fs.is_file f q = false) ->
  exists f', Fs.mkdirSync f p = Some f'.
Proof.
  intros Hs H. unfold Fs.mkdirSync. rewrite Hs.
  destruct (existsb (Fs.is_file f) (Path.ancestors p)) eqn:E; [|eauto].
  apply existsb_exists in E as (q & Hin & Hq). rewrite (H q Hin) in Hq. discriminate.
Qed.

Lemma writeFileSync_lookup (f f' : gmap string Fs.node) (p q : string) (b : Buffer.t) :
  Fs.writeFileSync f p b = Some f' ->
  Fs.is_dir f p = false /\ Fs.is_dir f (Path.dirname p) = true
  /\ f' !! q = if string_dec q p then Some (Fs.File b) else f !! q.
Proof.
  unfold Fs.writeFileSync. destruct (Fs.too_long p); [discriminate|].
  destruct (Fs.is_dir f p); [discriminate|].
  destruct (Fs.is_dir f (Path.dirname p)); [|discriminate].
  intros [= <-]. split; [reflexivity|]. split; [reflexivity|].
  destruct (string_dec q p) as [->|Hne].
  - now rewrite lookup_insert_eq.
  - now rewrite lookup_insert_ne by congruence.
Qed.

Lemma is_dir_Dir (f : gmap string Fs.node) (p : string) :
  f !! p = Some Fs.Dir -> Fs.is_dir f p = true.
Proof. unfold Fs.is_dir. now intros ->. Qed.

Lemma is_dir_File (f : gmap string Fs.node) (p : string) (b : Buffer.t) :
  f !! p = Some (Fs.File b) -> Fs.is_dir f p = false.
Proof. unfold Fs.is_dir. now intros ->. Qed.

Lemma is_dir_same (f g : gmap string Fs.node) (p : string) :
  g !! p = f !! p -> Fs.is_dir g p = Fs.is_dir f p.
Proof. unfold Fs.is_dir. now intros ->. Qed.

Lemma saveSnapshot_saved (this : MockServer) (s : snapshotData) (w w' : World) :
  saveSnapshot this s w = (Ok tt, w') -> saved_state s (fs w) (fs w').
Proof.
  rewrite saveSnapshot_run. cbv zeta.
  set (key := getSnapshotFiles (request s)).
  destruct (Fs.mkdirSync (fs w) (directory key)) as [f1|] eqn:E1; [|discriminate].
  destruct (Fs.writeFileSync f1 _ _) as [f2|] eqn:E2; [|discriminate].
  destruct (Fs.writeFileSync f2 _ _) as [f3|] eqn:E3; [|discriminate].
  intros [= <-]. rewrite logw_fs. cbn [fs set_fs].
  pose proof (fun q => mkdirSync_lookup _ _ _ q E1) as L1.
  destruct (writeFileSync_lookup _ _ _ (info_file key) _ E2) as (Di & Pi & _).
  pose proof (fun q => proj2 (proj2 (writeFileSync_lookup _ _ _ q _ E2))) as L2.
  destruct (writeFileSync_lookup _ _ _ (data_file key) _ E3) as (Dd & Pd & _).
  pose proof (fun q => proj2 (proj2 (writeFileSync_lookup _ _ _ q _ E3))) as L3.
  destruct (artifacts_in_directory (request s)) as [Ai Ad]. fold key in Ai, Ad.
  rewrite Ai in Pi. rewrite Ad in Pd.
  assert (Hid : info_file key <> data_file key) by apply info_is_not_data.
  assert (Ni : ~ In (info_file key) (Path.ancestors (directory key))).
  { intros Hin. specialize (L1 (info_file key)).
    destruct (in_dec string_dec (info_file key) _); [|contradiction].
    apply is_dir_Dir in L1. congruence. }
  assert (Nd : ~ In (data_file key) (Path.ancestors (directory key))).
  { intros Hin. pose proof (L2 (data_file key)) as L. specialize (L1 (data_file key)).
    destruct (string_dec (data_file key) (info_file key)); [congruence|].
    destruct (in_dec string_dec (data_file key) _); [|contradiction].
    rewrite L1 in L. apply is_dir_Dir in L. congruence. }
  assert (L : forall q,
            f3 !! q
            = if string_dec q (data_file key) then Some (Fs.File (data s))
              else if string_dec q (info_file key)
                   then Some (Fs.File (Buffer.of_string (Json.stringify (info s))))
                   else if in_dec string_dec q (Path.ancestors (directory key))
                        then Some Fs.Dir else fs w !! q).
  { intros q. rewrite L3. destruct (string_dec q (data_file key)); [reflexivity|].
    rewrite L2. destruct (string_dec q (info_file key)); [reflexivity|]. apply L1. }
  split; fold key.
  - rewrite L. destruct (string_dec (info_file key) (data_file key)); [congruence|].
    destruct (string_dec (info_file key) (info_file key)); [reflexivity|congruence].
  - rewrite L. destruct (string_dec (data_file key) (data_file key)); [reflexivity|congruence].
  - intros q Hq. rewrite L.
    destruct (string_dec q (data_file key)) as [->|_]; [contradiction|].
    destruct (string_dec q (info_file key)) as [->|_]; [contradiction|].
    destruct (in_dec string_dec q _); [reflexivity|contradiction].
  - rewrite <- Pd. apply is_dir_same. rewrite L3.
    destruct (string_dec (directory key) (data_file key)) as [E|_]; [|reflexivity].
    exfalso. rewrite E in Pd. congruence.
  - split.
    + unfold Fs.mkdirSync in E1.
      destruct (Fs.too_long (directory key)); [discriminate E1|reflexivity].
    + unfold Fs.writeFileSync in E2.
      destruct (Fs.too_long (info_file key)); [discriminate E2|reflexivity].
  - intros q Hi Hd Ha. rewrite L.
    destruct (string_dec q (data_file key)); [contradiction|].
    destruct (string_dec q (info_file key)); [contradiction|].
    destruct (in_dec string_dec q _); [contradiction|reflexivity].
Qed.

(** Over a snapshot of the same key a save goes through. *)
Lemma saveSnapshot_again (this : MockServer) (s1 s2 : snapshotData)
    (f f' : gmap string Fs.node) (w : World) :
  saved_state s1 f f' -> fs w = f' -> request s2 = request s1 ->
  exists w', saveSnapshot this s2 w = (Ok tt, w').
Proof.
  intros [Hi Hd Hdirs Hpar [Sd Si] _] Hw Hreq. rewrite saveSnapshot_run. cbv zeta.
  rewrite Hreq, Hw. pose proof (too_long_artifacts (request s1)) as Sa.
  set (key := getSnapshotFiles (request s1)) in *. rewrite Si in Sa.
  destruct (artifacts_in_directory (request s1)) as [Ai Ad]. fold key in Ai, Ad.
  destruct (mkdirSync_ok f' (directory key) Sd) as (f1 & E1).
  { intros q Hq. unfold Fs.is_file. rewrite (Hdirs q Hq). reflexivity. }
  rewrite E1. pose proof (fun q => mkdirSync_lookup _ _ _ q E1) as L1.
  assert (Ni : ~ In (info_file key) (Path.ancestors (directory key)))
    by (intros H; apply Hdirs in H; congruence).
  assert (Nd : ~ In (data_file key) (Path.ancestors (directory key)))
    by (intros H; apply Hdirs in H; congruence).
  assert (P1 : Fs.is_dir f1 (directory key) = true).
  { destruct (in_dec string_dec (directory key) (Path.ancestors (directory key))) as [Hin|Hout].
    - apply is_dir_Dir. rewrite L1.
      destruct (in_dec string_dec (directory key) _); [reflexivity|contradiction].
    - rewrite <- Hpar. apply is_dir_same. rewrite L1.
      destruct (in_dec string_dec (directory key) _); [contradiction|reflexivity]. }
  assert (I1 : f1 !! info_file key
               = Some (Fs.File (Buffer.of_string (Json.stringify (info s1))))).
  { rewrite L1. destruct (in_dec string_dec (info_file key) _); [contradiction|exact Hi]. }
  assert (D1 : f1 !! data_file key = Some (Fs.File (data s1))).
  { rewrite L1. destruct (in_dec string_dec (data_file key) _); [contradiction|exact Hd]. }
  unfold Fs.writeFileSync at 1. rewrite Si, (is_dir_File _ _ _ I1), Ai, P1.
  unfold Fs.writeFileSync. rewrite Sa.
  assert (Hid : info_file key <> data_file key) by apply info_is_not_data.
  assert (Hdi : directory key <> info_file key).
  { intros E. rewrite E in P1. rewrite (is_dir_File _ _ _ I1) in P1. discriminate. }
  rewrite (is_dir_same f1) by (apply lookup_insert_ne; exact Hid).
  rewrite (is_dir_File _ _ _ D1), Ad.
  rewrite (is_dir_same f1) by (apply lookup_insert_ne; intros E; apply Hdi; symmetry; exact E).
  rewrite P1. eauto.
Qed.

Lemma can_save_ok (this : MockServer) (s : snapshotData) (w : World) :
  can_save (fs w) s = true -> exists w', saveSnapshot this s w = (Ok tt, w').
Proof.
  unfold can_save. rewrite saveSnapshot_run. cbv zeta.
  destruct (Fs.mkdirSync (fs w) _) as [f1|]; [|discriminate].
  destruct (Fs.writeFileSync f1 _ _) as [f2|]; [|discriminate].
  destruct (Fs.writeFileSync f2 _ _) as [f3|]; [|discriminate].
  eauto.
Qed.

Lemma read_of_dir (f : gmap string Fs.node) (p : string) :
  Fs.is_dir f p = true -> Fs.readFileSync f p = None.
Proof.
  unfold Fs.is_dir, Fs.readFileSync. destruct (f !! p) as [[]|]; [discriminate| |]; reflexivity.
Qed.

Lemma load_without_data (f : gmap string Fs.node) (key : snapshotFiles) :
  Fs.readFileSync f (data_file key) = None -> Store.load f key = None.
Proof.
  intros H. unfold Store.load. rewrite H.
  destruct (Fs.readFileSync f (info_file key)); [|reflexivity].
  destruct (Json.parse _); reflexivity.
Qed.

(** A save that fails gives no snapshot where there was none. *)
Lemma can_save_fail (this : MockServer) (s : snapshotData) (w : World) :
  can_save (fs w) s = false ->
  fst (saveSnapshot this s w) <> Ok tt
  /\ (Store.load (fs w) (getSnapshotFiles (request s)) = None ->
      Store.load (fs (snd (saveSnapshot this s w))) (getSnapshotFiles (request s)) = None).
Proof.
  unfold can_save. rewrite saveSnapshot_run. cbv zeta.
  set (key := getSnapshotFiles (request s)).
  destruct (Fs.mkdirSync (fs w) (directory key)) as [f1|] eqn:E1.
  2:{ intros _. split; [discriminate|]. intros H. exact H. }
  destruct (Fs.writeFileSync f1 _ _) as [f2|] eqn:E2.
  2:{ intros _. split; [discriminate|]. intros H. cbn [snd fs set_fs].
      rewrite <- H. apply load_agree; apply (read_after_mkdir _ _ _ _ E1). }
  destruct (Fs.writeFileSync f2 _ _) as [f3|] eqn:E3; [discriminate|].
  intros _. split; [discriminate|]. intros _. cbn [snd fs set_fs].
  apply load_without_data, read_of_dir.
  destruct (writeFileSync_lookup _ _ _ (directory key) _ E2) as (Di & Pi & L2).
  destruct (artifacts_in_directory (request s)) as [Ai Ad]. fold key in Ai, Ad.
  rewrite Ai in Pi.
  assert (P2 : Fs.is_dir f2 (directory key) = true).
  { rewrite <- Pi. apply is_dir_same. rewrite L2.
    destruct (string_dec (directory key) (info_file key)) as [E|_]; [|reflexivity].
    exfalso. rewrite E in Pi. congruence. }
  assert (Sa : Fs.too_long (data_file key) = false).
  { unfold key. rewrite too_long_artifacts. fold key. unfold Fs.writeFileSync in E2.
    destruct (Fs.too_long (info_file key)); [discriminate E2|reflexivity]. }
  unfold Fs.writeFileSync in E3. rewrite Sa, Ad, P2 in E3.
  destruct (Fs.is_dir f2 (data_file key)); [reflexivity|discriminate E3].
Qed.

Lemma assoc_delete_same {A : Type} (o : list (string * A)) (k : string) :
  Json.assoc k (obj_delete o k) = None.
Proof.
  induction o as [|[k' v] o IH]; [reflexivity|].
  unfold obj_delete in *. cbn [List.filter fst].
  destruct (String.eqb_spec k k') as [->|Hne]; cbn [negb]; [exact IH|].
  cbn [Json.assoc]. destruct (String.eqb_spec k k'); [contradiction|exact IH].
Qed.

Lemma assoc_delete_other {A : Type} (o : list (string * A)) (k k' : string) :
  k' <> k -> Json.assoc k' (obj_delete o k) = Json.assoc k' o.
Proof.
  intros Hne. induction o as [|[x v] o IH]; [reflexivity|].
  unfold obj_delete in *. cbn [List.filter fst Json.assoc].
  destruct (String.eqb_spec k x) as [->|Hx]; cbn [negb].
  - destruct (String.eqb_spec k' x); [contradiction|exact IH].
  - cbn [Json.assoc]. now rewrite IH.
Qed.

(** Names without a separator, and the directory of a path that ends
    in one. *)
Lemma no_slash_Forall (s : string) :
  no_slash s = true ->
  Forall (fun c => (c =? "/")%char = false) (list_ascii_of_string s).
Proof.
  induction s as [|c s IH]; cbn [no_slash list_ascii_of_string]; [constructor|].
  intros H. apply andb_prop in H as [Hc Hs]. constructor; [|now apply IH].
  now apply negb_true_iff.
Qed.

Lemma no_slash_app (a b : string) : no_slash (a ++ b) = no_slash a && no_slash b.
Proof.
  induction a as [|c a IH]; [reflexivity|].
  rewrite app_cons. cbn [no_slash]. now rewrite IH, andb_assoc.
Qed.

Lemma no_slash_hex (l : list Z) : no_slash (Md5.hex l) = true.
Proof.
  induction l as [|b l IH]; [reflexivity|].
  cbn [Md5.hex]. rewrite no_slash_app, IH, andb_true_r.
  unfold Md5.hex_byte. cbn [no_slash].
  rewrite !hex_digit_not_slash; [reflexivity| |].
  - assert (0 <= b mod 16 < 16) by (apply Z.mod_pos_bound; lia). lia.
  - assert (0 <= (b / 16) mod 16 < 16) by (apply Z.mod_pos_bound; lia). lia.
Qed.

Lemma no_slash_fingerprint (r : requestData) : no_slash (uniqueReqId r) = true.
Proof. unfold uniqueReqId, Md5.md5. apply no_slash_hex. Qed.

Lemma slice_last_no_slash (s : string) :
  no_slash s = true -> (slice_last s =? "/")%string = false.
Proof.
  induction s as [|c s IH]; [reflexivity|].
  cbn [no_slash]. intros H. apply andb_prop in H as [Hc Hs].
  destruct s as [|c' s]; [|exact (IH Hs)].
  cbn [slice_last]. apply negb_true_iff in Hc.
  apply String.eqb_neq. intros [= ->]. discriminate Hc.
Qed.

Lemma take_all (s : string) : take (String.length s) s = s.
Proof. induction s as [|c s IH]; [reflexivity|]. cbn [String.length take]. now rewrite IH. Qed.

Lemma dirname_leaf (c0 : ascii) (pre leaf : string) :
  (c0 =? "/")%char = false -> leaf <> EmptyString -> no_slash leaf = true ->
  Path.dirname (String c0 pre ++ "/" ++ leaf) = String c0 pre.
Proof.
  intros Hc Hne Hleaf. rewrite app_cons. unfold Path.dirname. rewrite Hc.
  cbn [andb].
  rewrite chars_app, List.rev_app_distr.
  change (list_ascii_of_string ("/" ++ leaf)) with ("/"%char :: list_ascii_of_string leaf).
  cbn [rev]. rewrite <- List.app_assoc.
  rewrite dirname_scan_skips by (apply Forall_rev, no_slash_Forall, Hleaf).
  assert (Hrev : rev (list_ascii_of_string leaf) <> []).
  { destruct leaf as [|c leaf]; [contradiction|]. cbn [list_ascii_of_string rev].
    now destruct (rev (list_ascii_of_string leaf)). }
  destruct (rev (list_ascii_of_string leaf)) as [|x e] eqn:E; [contradiction|].
  rewrite <- E. cbn [app Path.dirname_scan]. cbn [Ascii.eqb Bool.eqb].
  rewrite length_rev, length_chars. unfold len.
  rewrite length_cons, length_app, length_app.
  change (String.length "/") with 1%nat.
  set (n := String.length pre). set (k := String.length leaf).
  replace (Z.of_nat (S (n + (1 + k))) - 1 - Z.of_nat k) with (Z.of_nat (S n)) by lia.
  destruct (Z.eqb_spec (Z.of_nat (S n)) (-1)); [lia|].
  unfold slice0. rewrite Nat2Z.id. cbn [take]. f_equal.
  rewrite take_app by (unfold n; lia). apply take_all.
Qed.

Lemma no_dot_hex (l : list Z) : no_dot (Md5.hex l) = true.
Proof.
  assert (D : forall n, (n < 16)%N -> (hex_digit n =? ".")%char = false).
  { intros n H. apply Ascii.eqb_neq. intros E. apply (f_equal N_of_ascii) in E.
    unfold hex_digit in E. destruct (n <? 10)%N eqn:L.
    - rewrite N_ascii_embedding in E by lia. simpl in E. lia.
    - rewrite N_ascii_embedding in E by lia. simpl in E. lia. }
  assert (A : forall a b, no_dot (a ++ b) = no_dot a && no_dot b).
  { intros a b. induction a as [|c a IH]; [reflexivity|].
    rewrite app_cons. cbn [no_dot]. now rewrite IH, andb_assoc. }
  induction l as [|b l IH]; [reflexivity|].
  cbn [Md5.hex]. rewrite A, IH, andb_true_r.
  unfold Md5.hex_byte. cbn [no_dot].
  rewrite !D; [reflexivity| |].
  - assert (0 <= b mod 16 < 16) by (apply Z.mod_pos_bound; lia). lia.
  - assert (0 <= (b / 16) mod 16 < 16) by (apply Z.mod_pos_bound; lia). lia.
Qed.

(** A string is cut in one way only at its last dot, and at its first
    slash. *)
Lemma last_dot_unique (x1 x2 s1 s2 : string) :
  no_dot s1 = true -> no_dot s2 = true ->
  x1 ++ "." ++ s1 = x2 ++ "." ++ s2 -> x1 = x2 /\ s1 = s2.
Proof.
  intros H1 H2. assert (D : forall a b, no_dot (a ++ "." ++ b) = false).
  { intros a b. induction a as [|c a IH]; [reflexivity|].
    rewrite app_cons. cbn [no_dot]. rewrite IH. apply andb_false_r. }
  revert x2. induction x1 as [|c x1 IH]; intros [|c' x2] E.
  - rewrite !app_nil_l in E. injection E as E. rewrite !app_nil_l in E. auto.
  - rewrite app_nil_l, app_cons in E. injection E as _ E. rewrite app_nil_l in E.
    rewrite E, D in H1. discriminate.
  - rewrite app_nil_l, app_cons in E. injection E as _ E. rewrite app_nil_l in E.
    rewrite <- E, D in H2. discriminate.
  - rewrite !app_cons in E. injection E as -> E. destruct (IH _ E) as [-> ->]. auto.
Qed.

Lemma first_slash_unique (s1 s2 y1 y2 : string) :
  no_slash s1 = true -> no_slash s2 = true ->
  s1 ++ "/" ++ y1 = s2 ++ "/" ++ y2 -> s1 = s2 /\ y1 = y2.
Proof.
  revert s2. induction s1 as [|c s1 IH]; intros [|c' s2] H1 H2 E.
  - rewrite !app_nil_l in E. injection E as E. rewrite !app_nil_l in E. auto.
  - rewrite app_nil_l, app_cons in E. injection E as <- E.
    cbn [no_slash] in H2. discriminate.
  - rewrite app_nil_l, app_cons in E. injection E as -> E.
    cbn [no_slash] in H1. discriminate.
  - rewrite !app_cons in E. injection E as -> E.
    cbn [no_slash] in H1, H2. apply andb_prop in H1 as [_ H1]. apply andb_prop in H2 as [_ H2].
    destruct (IH _ H1 H2 E) as [-> ->]. auto.
Qed.

Lemma dirname_under_root (x leaf : string) :
  leaf <> EmptyString -> no_slash leaf = true ->
  Path.dirname ((SNAPSHOT_DIR ++ x) ++ "/" ++ leaf) = SNAPSHOT_DIR ++ x.
Proof.
  intros Hne Hleaf. unfold SNAPSHOT_DIR. rewrite (app_cons "_").
  now apply dirname_leaf.
Qed.

Lemma string_app_inv_head (a x y : string) : a ++ x = a ++ y -> x = y.
Proof.
  induction a as [|c a IH]; [now rewrite !app_nil_l|].
  rewrite !app_cons. intros [= E]. now apply IH.
Qed.

Lemma no_dot_fingerprint (r : requestData) : no_dot (uniqueReqId r) = true.
Proof. unfold uniqueReqId, Md5.md5. apply no_dot_hex. Qed.

(** The base of a key tells the host, the method and the fingerprint. *)
Lemma base_tells (r1 r2 : requestData) (p1 p2 : string) :
  no_slash (host r1) = true -> no_slash (host r2) = true ->
  pathname r1 = "/" ++ p1 -> pathname r2 = "/" ++ p2 ->
  no_dot (method r1) = true -> no_dot (method r2) = true ->
  snapshotBase r1 = snapshotBase r2 ->
  host r1 = host r2 /\ method r1 = method r2 /\ uniqueReqId r1 = uniqueReqId r2.
Proof.
  intros Hh1 Hh2 Hp1 Hp2 Hm1 Hm2.
  assert (B : forall r,
            snapshotBase r
            = ((SNAPSHOT_DIR ++ "/" ++ host r
                ++ (if (slice_last (pathname r) =? "/")%string
                    then pathname r ++ "index" else pathname r))
               ++ "." ++ method r) ++ "." ++ uniqueReqId r).
  { intros r. unfold snapshotBase. rewrite !app_assoc. reflexivity. }
  rewrite !B. intros E.
  apply last_dot_unique in E as [E Hid]; try apply no_dot_fingerprint.
  apply last_dot_unique in E as [E Hm]; try assumption.
  apply string_app_inv_head in E. apply string_app_inv_head in E.
  assert (S : forall r p, pathname r = "/" ++ p ->
                exists q, (if (slice_last (pathname r) =? "/")%string
                           then pathname r ++ "index" else pathname r) = "/" ++ q).
  { intros r p ->. destruct (slice_last ("/" ++ p) =? "/")%string.
    - exists (p ++ "index"). apply app_assoc.
    - exists p. reflexivity. }
  destruct (S r1 p1 Hp1) as (q1 & Q1). destruct (S r2 p2 Hp2) as (q2 & Q2).
  rewrite Q1, Q2 in E. apply first_slash_unique in E as [Hh _]; try assumption.
  auto.
Qed.

End StoreFacts.

Section Store.

Import StringFacts FsFacts Run Orchestrator StoreFacts.

Variable P : Platform.
Variable this : MockServer.

(** X3. What a completed save leaves behind: the metadata file holds
    the JSON text of the metadata and the payload file the payload
    bytes, the snapshot directory and the directories above it exist,
    and every other path of the file system is as it was; no origin is
    called and nothing is sent to a client. *)
Theorem save_writes_only_its_snapshot (s : snapshotData) (w w' : World) :
  saveSnapshot this s w = (Ok tt, w') ->
  let key := getSnapshotFiles (request s) in
  fs w' !! info_file key = Some (Fs.File (Buffer.of_string (Json.stringify (info s))))
  /\ fs w' !! data_file key = Some (Fs.File (data s))
  /\ Fs.is_dir (fs w') (directory key) = true
  /\ (forall q, In q (Path.ancestors (directory key)) -> fs w' !! q = Some Fs.Dir)
  /\ (forall q, q <> info_file key -> q <> data_file key ->
                ~ In q (Path.ancestors (directory key)) -> fs w' !! q = fs w !! q)
  /\ upstream w' = upstream w
  /\ response w' = response w.
Proof.
  intros H key. destruct (saveSnapshot_saved this s w w' H) as [Hi Hd Hdirs Hpar Hframe].
  pose proof (saveSnapshot_upstream this s w) as U.
  pose proof (saveSnapshot_response this s w) as R.
  rewrite H in U, R. cbn [snd] in U, R. auto 10.
Qed.

(** X4. The last save wins: where a record has been saved, a second
    record for the same request is saved without error over it, and the
    next lookup returns the second record. *)
Theorem resave_replaces_the_snapshot (s1 s2 : snapshotData) (w w1 : World) :
  saveSnapshot this s1 w = (Ok tt, w1) ->
  request s2 = request s1 ->
  exists w2 w3,
    saveSnapshot this s2 w1 = (Ok tt, w2)
    /\ fetchFromSnapshot this (request s1) w2 = (Ok (Some s2), w3).
Proof.
  intros H1 Hreq.
  destruct (saveSnapshot_again this s1 s2 (fs w) (fs w1) w1
              (saveSnapshot_saved this s1 w w1 H1) eq_refl Hreq) as (w2 & H2).
  exists w2. eexists. split; [exact H2|].
  rewrite fetchFromSnapshot_run, <- Hreq, (load_after_save _ _ _ _ H2).
  destruct s2. reflexivity.
Qed.

(** X5. What [fetchFromServer] records: the record it returns holds the
    body of the response as payload and, as metadata, the other fields
    of the response without [request]; this is also what the store
    holds under the key of the request afterwards. *)
Theorem recorded_metadata_drops_the_request (r : requestData) (s : snapshotData)
    (w w' : World) :
  fetchFromServer P this r w = (Ok (Some s), w') ->
  exists resp fields,
    axios P (upstream w) (options_of r) = inr resp
    /\ request s = r
    /\ data s = resp_data resp
    /\ info s = JObj fields
    /\ Json.assoc "request" fields = None
    /\ (forall k, k <> "request" -> Json.assoc k fields = Json.assoc k (resp_fields resp))
    /\ Store.load (fs w') (getSnapshotFiles r) = Some (JObj fields, resp_data resp).
Proof.
  rewrite fetchFromServer_run. cbv zeta.
  destruct (axios P (upstream w) (options_of r)) as [e|resp]; [discriminate|].
  destruct (saveSnapshot this (record_of r resp) _) as [[[]|e|] w2] eqn:Hs; try discriminate.
  intros [= <- <-]. exists resp, (obj_delete (resp_fields resp) "request").
  split; [reflexivity|]. split; [reflexivity|]. split; [reflexivity|].
  split; [reflexivity|]. split; [apply assoc_delete_same|].
  split; [intros k Hk; now apply assoc_delete_other|].
  exact (load_after_save _ _ _ _ Hs).
Qed.

(** X6. A failed fetch is not recorded: when the store has no snapshot
    for the canonical request of a call and the upstream call fails,
    [recordReplayData] yields no record and writes nothing, and the same
    call goes upstream again. *)
Theorem failed_fetch_is_not_recorded (req : Request) (r : requestData) (e : error)
    (w : World) :
  canonical req = inr r ->
  Store.load (fs w) (getSnapshotFiles r) = None ->
  axios P (upstream w) (options_of r) = inl e ->
  let w1 := snd (recordReplayData P this req w) in
  fst (recordReplayData P this req w) = Ok None
  /\ fs w1 = fs w
  /\ upstream w1 = (upstream w ++ [HttpCall (options_of r)])%list
  /\ upstream (snd (recordReplayData P this req w1))
     = (upstream w1 ++ [HttpCall (options_of r)])%list.
Proof.
  intros Hc Hl Ha. cbv zeta. rewrite !recordReplayData_run, Hc.
  set (m := Msg ("[http] a client connected proxying " ++ href r)).
  assert (E : engine P this (ViaHttp r) (logw this m w)
              = (Ok None,
                 logw this (Err e)
                   (add_upstream (HttpCall (options_of r))
                      (logw this (Msg ("[warning] no snapshot file found for path "
                                       ++ href r ++ " fetching from remote"))
                         (logw this m w))))).
  { rewrite engine_run. cbn [canonical_of live]. rewrite logw_fs, Hl, fetchFromServer_run.
    cbv zeta. now rewrite !logw_upstream, Ha. }
  rewrite E. cbn [fst snd]. split; [reflexivity|].
  set (w1 := logw this (Err e) _).
  assert (F : fs w1 = fs w).
  { unfold w1. rewrite logw_fs. cbn [fs add_upstream]. now rewrite !logw_fs. }
  split; [exact F|]. split.
  - unfold w1. rewrite logw_upstream. cbn [upstream add_upstream]. now rewrite !logw_upstream.
  - rewrite engine_run. cbn [canonical_of]. rewrite logw_fs, F, Hl.
    rewrite (live_upstream P this (ViaHttp r)). now rewrite !logw_upstream.
Qed.

(** X7. The directory of a snapshot mirrors the URL: for a request
    whose pathname is a directory part, a slash and a last segment, and
    whose method holds no slash, the snapshot directory is the root
    directory, the host and the directory part, and the two files are
    named after the last segment ("index" when it is empty), the method
    and the fingerprint. *)
Theorem directory_mirrors_the_path (r : requestData) (d name : string) :
  pathname r = d ++ "/" ++ name ->
  no_slash name = true ->
  no_slash (method r) = true ->
  let dir := SNAPSHOT_DIR ++ "/" ++ host r ++ d in
  let leaf := (if is_empty name then "index" else name)
              ++ "." ++ method r ++ "." ++ uniqueReqId r in
  getSnapshotFiles r
  = {| directory := dir;
       info_file := dir ++ "/" ++ leaf ++ ".json";
       data_file := dir ++ "/" ++ leaf ++ ".data" |}
  /\ no_slash leaf = true.
Proof.
  intros Hp Hname Hmethod dir leaf.
  assert (Hleaf : no_slash leaf = true).
  { unfold leaf. rewrite !no_slash_app, Hmethod, no_slash_fingerprint.
    destruct name as [|c name]; cbn [is_empty]; [reflexivity|].
    rewrite Hname. reflexivity. }
  assert (Hbase : snapshotBase r = dir ++ "/" ++ leaf).
  { unfold snapshotBase, dir, leaf. destruct name as [|c name].
    - rewrite app_nil_r in Hp. rewrite Hp, slice_last_app by discriminate.
      change (slice_last "/" =? "/")%string with true. cbv iota. cbn [is_empty].
      rewrite !app_assoc. reflexivity.
    - assert (E : (slice_last (pathname r) =? "/")%string = false).
      { rewrite Hp, <- app_assoc, slice_last_app by discriminate.
        apply slice_last_no_slash, Hname. }
      rewrite E, Hp. cbn [is_empty]. rewrite !app_assoc. reflexivity. }
  split; [|exact Hleaf].
  assert (Hne : leaf <> EmptyString) by (unfold leaf; destruct name; discriminate).
  unfold getSnapshotFiles. rewrite Hbase, !app_assoc. f_equal.
  exact (dirname_under_root ("/" ++ host r ++ d) leaf Hne Hleaf).
Qed.

(** X8. The files of a snapshot tell whose it is: for requests whose
    host holds no slash, whose pathname starts with a slash and whose
    method holds no dot, two requests that share the metadata file or
    the payload file have the same host, the same method and the same
    fingerprint, and then share both files and the directory; so a
    snapshot recorded for one host or method is never replayed for
    another. *)
Theorem snapshot_files_tell_host_and_method (r1 r2 : requestData) (p1 p2 : string) :
  no_slash (host r1) = true -> no_slash (host r2) = true ->
  pathname r1 = "/" ++ p1 -> pathname r2 = "/" ++ p2 ->
  no_dot (method r1) = true -> no_dot (method r2) = true ->
  info_file (getSnapshotFiles r1) = info_file (getSnapshotFiles r2)
  \/ data_file (getSnapshotFiles r1) = data_file (getSnapshotFiles r2) ->
  host r1 = host r2 /\ method r1 = method r2 /\ uniqueReqId r1 = uniqueReqId r2
  /\ getSnapshotFiles r1 = getSnapshotFiles r2.
Proof.
  intros Hh1 Hh2 Hp1 Hp2 Hm1 Hm2 H.
  assert (E : snapshotBase r1 = snapshotBase r2).
  { destruct H as [H|H]; cbn [getSnapshotFiles info_file data_file] in H;
      exact (app_inv_tail _ _ _ H). }
  destruct (base_tells r1 r2 p1 p2 Hh1 Hh2 Hp1 Hp2 Hm1 Hm2 E) as (A & B & C).
  split; [exact A|]. split; [exact B|]. split; [exact C|]. exact (files_of_base r1 r2 E).
Qed.

End Store.
(* ================================================================== *)
(** ** Serving a record over HTTP *)
(* ================================================================== *)

Module HttpFacts.
Import StringFacts FsFacts Run Orchestrator StoreFacts.

Lemma serveResolved_run (P : Platform) (this : MockServer) (req : Request) (w : World) :
  serveResolved P this req w =
    match recordReplayData P this req w with
    | (Ok (Some s), w1) =>
        match contentType_of (info s) with
        | inr ct =>
            (Ok tt,
             add_response (ResSend (Some (data s)))
               (logw this (Msg "[http] serving data to client")
                  (add_response (ResSet "Content-Type" ct) w1)))
        | inl e => (Ok tt, add_response (ResSend None) (logw this (Err e) w1))
        end
    | (Ok None, w1) =>
        (Ok tt,
         add_response (ResSend None)
           (logw this (Err (TypeError "Cannot destructure property 'data' of undefined")) w1))
    | (Throw e, w1) => (Ok tt, add_response (ResSend None) (logw this (Err e) w1))
    | (Pending, w1) => (Pending, w1)
    end.
Proof.
  unfold serveResolved, try_catch, bind.
  destruct (recordReplayData P this req w) as [[[s|]|e|] w1].
  - unfold contentType_of, get_prop, res_set, res_send, log, logw, ret, throw.
    destruct (info s) as [|b|z|t|l|l]; try (destruct (logAll this); reflexivity).
    destruct (Json.assoc "headers" l) as [[|b|z|t|l'|l']|];
      destruct (logAll this); reflexivity.
  - unfold throw, log, logw, res_send. destruct (logAll this); reflexivity.
  - unfold log, logw, res_send. destruct (logAll this); reflexivity.
  - reflexivity.
Qed.

Lemma logw_console_free (this : MockServer) (m : log_item) (w : World) :
  fs (logw this m w) = fs w /\ upstream (logw this m w) = upstream w
  /\ response (logw this m w) = response w.
Proof. unfold logw. now destruct (logAll this). Qed.

(** What one HTTP call does, by the state of the store for its canonical
    request. *)
Lemma recordReplayData_hit (P : Platform) (this : MockServer) (req : Request)
    (r : requestData) (i : json) (d : Buffer.t) (w : World) :
  canonical req = inr r ->
  Store.load (fs w) (getSnapshotFiles r) = Some (i, d) ->
  exists w1,
    recordReplayData P this req w = (Ok (Some {| data := d; info := i; request := r |}), w1)
    /\ fs w1 = fs w /\ upstream w1 = upstream w /\ response w1 = response w.
Proof.
  intros Hc Hl. rewrite recordReplayData_run, Hc, engine_run. cbn [canonical_of].
  rewrite logw_fs, Hl. eexists. split; [reflexivity|].
  now rewrite !logw_fs, !logw_upstream, !logw_response.
Qed.

Lemma serveResolved_hit (P : Platform) (this : MockServer) (req : Request)
    (r : requestData) (i : json) (d : Buffer.t) (ct : option json) (w : World) :
  canonical req = inr r ->
  Store.load (fs w) (getSnapshotFiles r) = Some (i, d) ->
  contentType_of i = inr ct ->
  exists w',
    serveResolved P this req w = (Ok tt, w')
    /\ response w' = (response w ++ served ct d)%list
    /\ upstream w' = upstream w /\ fs w' = fs w.
Proof.
  intros Hc Hl Hct. destruct (recordReplayData_hit P this req r i d w Hc Hl)
    as (w1 & E & F & U & R).
  rewrite serveResolved_run, E. cbn [info data]. rewrite Hct. eexists. split; [reflexivity|].
  cbn [response add_response upstream fs]. rewrite logw_response, logw_upstream, logw_fs.
  cbn [response add_response upstream fs]. rewrite R, U, F, <- List.app_assoc. auto.
Qed.

Lemma serveResolved_upstream (P : Platform) (this : MockServer) (req : Request) (w : World) :
  upstream (snd (serveResolved P this req w))
  = upstream (snd (recordReplayData P this req w)).
Proof.
  rewrite serveResolved_run.
  destruct (recordReplayData P this req w) as [[[s|]|e|] w1]; cbn [snd];
    try destruct (contentType_of (info s));
    cbn [snd upstream add_response]; now rewrite ?logw_upstream.
Qed.

(** A response that ends in a body comes from a record, which is in the
    store afterwards. *)
Lemma serveResolved_served (P : Platform) (this : MockServer) (req : Request)
    (ct : option json) (d : Buffer.t) (w : World) :
  response (snd (serveResolved P this req w)) = (response w ++ served ct d)%list ->
  exists r i,
    canonical req = inr r
    /\ contentType_of i = inr ct
    /\ Store.load (fs (snd (serveResolved P this req w))) (getSnapshotFiles r) = Some (i, d).
Proof.
  rewrite serveResolved_run, recordReplayData_run.
  destruct (canonical req) as [e|r] eqn:Hc.
  - cbn [snd response add_response]. rewrite logw_response. intros H.
    apply app_inv_head in H. discriminate H.
  - destruct (http_engine_settles P this r
                (logw this (Msg ("[http] a client connected proxying " ++ href r)) w))
      as (o & w1 & E & R).
    rewrite logw_response in R. rewrite E.
    destruct o as [s|].
    2:{ cbn [snd response add_response]. rewrite logw_response, R. intros H.
        apply app_inv_head in H. discriminate H. }
    destruct (contentType_of (info s)) as [e|ct'] eqn:Hct.
    { cbn [snd response add_response]. rewrite logw_response, R. intros H.
      apply app_inv_head in H. discriminate H. }
    cbn [snd response add_response fs]. rewrite logw_response, logw_fs.
    cbn [response add_response fs]. rewrite R, <- List.app_assoc. intros H.
    apply app_inv_head in H. unfold served in H. cbn [app] in H.
    injection H as Ect Ed. subst ct' d.
    exists r, (info s). split; [reflexivity|]. split; [exact Hct|].
    rewrite engine_run in E. cbn [canonical_of] in E. rewrite logw_fs in E.
    destruct (Store.load (fs w) (getSnapshotFiles r)) as [[i0 d0]|] eqn:Hl.
    + injection E as <- <-. cbn [info data]. now rewrite !logw_fs.
    + apply (live_saved P this (ViaHttp r)) in E. now destruct E as [_ E].
Qed.

End HttpFacts.

Section Serving.

Import StringFacts FsFacts Run Orchestrator StoreFacts HttpFacts.

Variable P : Platform.
Variable this : MockServer.

(** X10. A stored record is served as it is: when the store holds a
    snapshot for the canonical request of an inbound call, and its
    metadata has a [headers] object, the handler sets Content-Type to
    the [content-type] entry of these headers (or to [undefined] when
    there is none), sends the stored payload, calls no origin and leaves
    the file system alone. *)
Theorem stored_record_is_served (req : Request) (target : string) (r : requestData)
    (fields hs : list (string * json)) (d : Buffer.t) (w : World) :
  resolveTarget P req = inr target ->
  canonical (with_url req target) = inr r ->
  Store.load (fs w) (getSnapshotFiles r) = Some (JObj fields, d) ->
  Json.assoc "headers" fields = Some (JObj hs) ->
  let w' := snd (handleHttp P this req w) in
  fst (handleHttp P this req w) = Ok tt
  /\ response w'
     = (response w ++ [ResSet "Content-Type" (Json.assoc "content-type" hs);
                       ResSend (Some d)])%list
  /\ upstream w' = upstream w
  /\ fs w' = fs w.
Proof.
  intros Ht Hc Hl Hh w'. subst w'. rewrite handleHttp_run, Ht.
  destruct (serveResolved_hit P this (with_url req target) r (JObj fields) d
              (Json.assoc "content-type" hs) w Hc Hl) as (w' & -> & R & U & F).
  { cbn [contentType_of]. now rewrite Hh. }
  cbn [fst snd]. auto.
Qed.

(** X11. A served response can be had again: once a call has been
    answered with a Content-Type and a body, whether replayed or fetched
    and recorded, the same call gets the same Content-Type and the same
    body, with no further upstream call and no change to the file
    system. *)
Theorem served_response_is_repeatable (req : Request) (ct : option json) (d : Buffer.t)
    (w : World) :
  let w1 := snd (handleHttp P this req w) in
  response w1 = (response w ++ [ResSet "Content-Type" ct; ResSend (Some d)])%list ->
  let w2 := snd (handleHttp P this req w1) in
  fst (handleHttp P this req w1) = Ok tt
  /\ response w2 = (response w1 ++ [ResSet "Content-Type" ct; ResSend (Some d)])%list
  /\ upstream w2 = upstream w1
  /\ fs w2 = fs w1.
Proof.
  cbv zeta. rewrite (handleHttp_run P this req w).
  destruct (resolveTarget P req) as [[e|status]|target] eqn:Ht.
  - cbn [snd]. intros H. exfalso. apply (f_equal (@List.length _)) in H.
    rewrite List.length_app in H. cbn in H. lia.
  - cbn [snd response add_response]. intros H. exfalso.
    apply (f_equal (@List.length _)) in H. rewrite !List.length_app in H. cbn in H. lia.
  - intros H. destruct (serveResolved_served P this _ ct d w H) as (r & i & Hc & Hct & Hl).
    rewrite handleHttp_run, Ht.
    destruct (serveResolved_hit P this (with_url req target) r i d ct _ Hc Hl Hct)
      as (w' & -> & R & U & F).
    cbn [fst snd]. auto.
Qed.

(** X12. What an origin sees of an inbound call: the handler makes at
    most one upstream call, and that call carries the resolved URL, the
    inbound method and body, and of the inbound headers only the
    allow-listed ones that are set; a cookie, the Host or the Referer
    header is never passed on. *)
Theorem upstream_sees_allow_listed_headers (req : Request) (w : World) :
  let w' := snd (handleHttp P this req w) in
  (upstream w' = upstream w
   \/ exists target r,
        resolveTarget P req = inr target
        /\ canonical (with_url req target) = inr r
        /\ upstream w'
           = (upstream w
              ++ [HttpCall {| opt_url := href r;
                              opt_method := req_method req;
                              opt_headers := Some (pickHeaders (req_headers req));
                              opt_data := Some (req_body req);
                              opt_responseType := "arraybuffer" |}])%list)
  /\ forall k v,
       In (k, v) (pickHeaders (req_headers req)) ->
       In k allowList /\ Json.assoc k (req_headers req) = Some v.
Proof.
  cbv zeta. split.
  - rewrite handleHttp_run.
    destruct (resolveTarget P req) as [[e|status]|target] eqn:Ht; [now left|now left|].
    rewrite serveResolved_upstream, recordReplayData_run.
    destruct (canonical (with_url req target)) as [e|r] eqn:Hc; [now left|].
    set (w0 := logw this (Msg ("[http] a client connected proxying " ++ href r)) w).
    rewrite engine_run. cbn [canonical_of].
    destruct (Store.load (fs w0) (getSnapshotFiles r)) as [[i d]|].
    { left. cbn [snd]. unfold w0. now rewrite !logw_upstream. }
    right. exists target, r. split; [reflexivity|]. split; [exact Hc|].
    rewrite live_upstream. unfold w0. rewrite !logw_upstream. cbn [call_of].
    unfold canonical in Hc.
    destruct (Url.decodeURIComponent _) as [t|]; [|discriminate].
    destruct (Url.parse t) as [u|]; [|discriminate].
    injection Hc as <-. reflexivity.
  - intros k v Hin. rewrite pickHeaders_flat_map in Hin.
    apply in_flat_map in Hin. destruct Hin as (name & Hname & Hk).
    unfold kept in Hk. destruct (Json.assoc name (req_headers req)) as [x|] eqn:Hx; [|destruct Hk].
    destruct (is_empty x); [destruct Hk|]. destruct Hk as [[= <- <-]|[]]. auto.
Qed.

(** X13. A response that is fetched is recorded and served: when the
    store has no snapshot for the canonical request of a call, the
    origin answers, and the snapshot can be written, the handler makes
    the one upstream call, stores the body as payload and the other
    fields of the response without [request] as metadata, sets
    Content-Type from the [content-type] entry of the response headers
    and sends the body. *)
Theorem live_response_is_recorded_and_served (req : Request) (target : string)
    (r : requestData) (resp : axiosResponse) (hs : list (string * json)) (w : World) :
  resolveTarget P req = inr target ->
  canonical (with_url req target) = inr r ->
  Store.load (fs w) (getSnapshotFiles r) = None ->
  axios P (upstream w) (options_of r) = inr resp ->
  Json.assoc "headers" (resp_fields resp) = Some (JObj hs) ->
  can_save (fs w) (record_of r resp) = true ->
  let w' := snd (handleHttp P this req w) in
  fst (handleHttp P this req w) = Ok tt
  /\ response w'
     = (response w ++ [ResSet "Content-Type" (Json.assoc "content-type" hs);
                       ResSend (Some (resp_data resp))])%list
  /\ upstream w' = (upstream w ++ [HttpCall (options_of r)])%list
  /\ Store.load (fs w') (getSnapshotFiles r)
     = Some (JObj (obj_delete (resp_fields resp) "request"), resp_data resp).
Proof.
  intros Ht Hc Hl Ha Hh Hs. cbv zeta.
  rewrite handleHttp_run, Ht, serveResolved_run, recordReplayData_run, Hc, engine_run.
  cbn [canonical_of live]. rewrite logw_fs, Hl, fetchFromServer_run. cbv zeta.
  rewrite !logw_upstream, Ha.
  set (w1 := logw this (Msg ("[http] fetched data from " ++ href r)) _).
  assert (F1 : fs w1 = fs w).
  { unfold w1. rewrite logw_fs. cbn [fs add_upstream]. now rewrite !logw_fs. }
  assert (R1 : response w1 = response w).
  { unfold w1. rewrite logw_response. cbn [response add_upstream]. now rewrite !logw_response. }
  assert (U1 : upstream w1 = (upstream w ++ [HttpCall (options_of r)])%list).
  { unfold w1. rewrite logw_upstream. cbn [upstream add_upstream]. now rewrite !logw_upstream. }
  pose proof (saveSnapshot_response this (record_of r resp) w1) as R.
  pose proof (saveSnapshot_upstream this (record_of r resp) w1) as U.
  destruct (can_save_ok this (record_of r resp) w1) as (w2 & E); [now rewrite F1|].
  rewrite E in R, U |- *. cbn [snd] in R, U.
  assert (Hct : contentType_of (info (record_of r resp))
                = inr (Json.assoc "content-type" hs)).
  { cbn [info record_of contentType_of].
    rewrite assoc_delete_other by discriminate. now rewrite Hh. }
  rewrite Hct. cbn [fst snd data record_of response upstream fs add_response].
  rewrite logw_response, logw_upstream, logw_fs.
  cbn [response upstream fs add_response]. rewrite R, U, R1, U1, <- List.app_assoc.
  split; [reflexivity|]. split; [reflexivity|]. split; [reflexivity|].
  exact (load_after_save _ _ _ _ E).
Qed.

(** X14. A fetched response that cannot be saved is lost to the
    client: when the store has no snapshot for the canonical request,
    the origin answers and the snapshot cannot be written, the client
    gets an empty body after the one upstream call, and the store still
    has no snapshot for the request. *)
Theorem unsaved_response_is_an_empty_body (req : Request) (target : string)
    (r : requestData) (resp : axiosResponse) (w : World) :
  resolveTarget P req = inr target ->
  canonical (with_url req target) = inr r ->
  Store.load (fs w) (getSnapshotFiles r) = None ->
  axios P (upstream w) (options_of r) = inr resp ->
  can_save (fs w) (record_of r resp) = false ->
  let w' := snd (handleHttp P this req w) in
  fst (handleHttp P this req w) = Ok tt
  /\ response w' = (response w ++ [ResSend None])%list
  /\ upstream w' = (upstream w ++ [HttpCall (options_of r)])%list
  /\ Store.load (fs w') (getSnapshotFiles r) = None.
Proof.
  intros Ht Hc Hl Ha Hs. cbv zeta.
  rewrite handleHttp_run, Ht, serveResolved_run, recordReplayData_run, Hc, engine_run.
  cbn [canonical_of live]. rewrite logw_fs, Hl, fetchFromServer_run. cbv zeta.
  rewrite !logw_upstream, Ha.
  set (w1 := logw this (Msg ("[http] fetched data from " ++ href r)) _).
  assert (F1 : fs w1 = fs w).
  { unfold w1. rewrite logw_fs. cbn [fs add_upstream]. now rewrite !logw_fs. }
  assert (R1 : response w1 = response w).
  { unfold w1. rewrite logw_response. cbn [response add_upstream]. now rewrite !logw_response. }
  assert (U1 : upstream w1 = (upstream w ++ [HttpCall (options_of r)])%list).
  { unfold w1. rewrite logw_upstream. cbn [upstream add_upstream]. now rewrite !logw_upstream. }
  pose proof (saveSnapshot_response this (record_of r resp) w1) as R.
  pose proof (saveSnapshot_upstream this (record_of r resp) w1) as U.
  pose proof (saveSnapshot_settles this (record_of r resp) w1) as T.
  destruct (can_save_fail this (record_of r resp) w1) as [N L]; [now rewrite F1|].
  cbn [request record_of] in L. rewrite F1 in L. specialize (L Hl).
  destruct (saveSnapshot this (record_of r resp) w1) as [[[]|e|] w2];
    cbn [fst snd] in *; [now elim N| |now elim T].
  cbn [response upstream fs add_response].
  rewrite !logw_response, !logw_upstream, !logw_fs, R, U, R1, U1. auto.
Qed.

(** X15. A record without headers is not served: when the store holds
    a snapshot for the canonical request of a call and its metadata is
    an object with no [headers] field, the client gets an empty body,
    whatever the payload, and no origin is called. *)
Theorem record_without_headers_is_an_empty_body (req : Request) (target : string)
    (r : requestData) (fields : list (string * json)) (d : Buffer.t) (w : World) :
  resolveTarget P req = inr target ->
  canonical (with_url req target) = inr r ->
  Store.load (fs w) (getSnapshotFiles r) = Some (JObj fields, d) ->
  Json.assoc "headers" fields = None ->
  let w' := snd (handleHttp P this req w) in
  fst (handleHttp P this req w) = Ok tt
  /\ response w' = (response w ++ [ResSend None])%list
  /\ upstream w' = upstream w
  /\ fs w' = fs w.
Proof.
  intros Ht Hc Hl Hh. cbv zeta. rewrite handleHttp_run, Ht, serveResolved_run.
  destruct (recordReplayData_hit P this _ r (JObj fields) d w Hc Hl) as (w1 & -> & F & U & R).
  cbn [info contentType_of]. rewrite Hh. cbn [fst snd response upstream fs add_response].
  rewrite logw_response, logw_upstream, logw_fs, R, U, F. auto.
Qed.

End Serving.
(* ================================================================== *)
(** ** The socket.io surface *)
(* ================================================================== *)

Module SocketFacts.
Import StringFacts FsFacts Run Orchestrator StoreFacts.

Lemma onMessage_run (P : Platform) (this : MockServer) (id : nat) (l : listener)
    (d : json) (w : World) :
  onMessage P this id l d w =
    match engine P this (ViaSocket (socket_request l d))
            (logw this (Msg ("[socket.io] received message from client proxying "
                             ++ l_url l)) w) with
    | (Ok (Some s), w1) =>
        match Json.parse (Buffer.toString (data s)) with
        | Some v =>
            (Ok tt,
             add_reply id v
               (logw this (Msg ("[socket.io] sending response to client proxying "
                                ++ l_url l)) w1))
        | None =>
            (Throw (SyntaxError "Unexpected token in JSON"),
             logw this (Msg ("[socket.io] sending response to client proxying "
                             ++ l_url l)) w1)
        end
    | (Ok None, w1) => (Throw (TypeError "Cannot destructure property 'data' of null"), w1)
    | (Throw e, w1) => (Throw e, w1)
    | (Pending, w1) => (Pending, w1)
    end.
Proof.
  unfold onMessage, bind. rewrite log_run. fold (socket_request l d).
  change (recordReplaySocketIO P this (socket_request l d))
    with (engine P this (ViaSocket (socket_request l d))).
  destruct (engine P this (ViaSocket (socket_request l d)) _) as [[[s|]|e|] w1];
    try reflexivity.
  rewrite log_run. unfold JSON_parse.
  destruct (Json.parse (Buffer.toString (data s))); reflexivity.
Qed.

Lemma logw_replies (this : MockServer) (m : log_item) (w : World) :
  replies (logw this m w) = replies w.
Proof. unfold logw. now destruct (logAll this). Qed.

Lemma saveSnapshot_replies (this : MockServer) (s : snapshotData) (w : World) :
  replies (snd (saveSnapshot this s w)) = replies w.
Proof.
  rewrite saveSnapshot_run. cbv zeta.
  destruct (Fs.mkdirSync (fs w) _) as [f1|]; [|reflexivity].
  destruct (Fs.writeFileSync f1 _ _) as [f2|]; [|reflexivity].
  destruct (Fs.writeFileSync f2 _ _) as [f3|]; [|reflexivity].
  cbn [snd]. now rewrite logw_replies.
Qed.

Lemma socket_engine_replies (P : Platform) (this : MockServer) (r : requestData)
    (w : World) :
  replies (snd (engine P this (ViaSocket r) w)) = replies w.
Proof.
  rewrite engine_run. cbn [canonical_of live].
  destruct (Store.load (fs w) (getSnapshotFiles r)) as [[i d]|].
  - cbn [snd]. apply logw_replies.
  - rewrite fetchFromSocketIOServer_run. cbv zeta.
    destruct (emit P _ (href r) (message_of r)) as [resp|].
    + pose proof (saveSnapshot_replies this (reply_of r resp)
                    (logw this (Msg "[socket.io] got response from proxied server")
                       (add_upstream (SocketCall (href r) (message_of r))
                          (logw this (Msg ("[warning] no snapshot file found for path "
                                           ++ href r ++ " fetching from remote")) w))))
        as R.
      destruct (saveSnapshot this (reply_of r resp) _) as [[[]|e|] w2];
        cbn [snd] in *; rewrite R, logw_replies; cbn [replies add_upstream];
        apply logw_replies.
    + cbn [snd replies add_upstream]. apply logw_replies.
Qed.

(** After a call that returned a record, the store holds its payload. *)
Lemma engine_stores (P : Platform) (this : MockServer) (c : inbound) (s : snapshotData)
    (w w1 : World) :
  engine P this c w = (Ok (Some s), w1) ->
  exists i, Store.load (fs w1) (getSnapshotFiles (canonical_of c)) = Some (i, data s).
Proof.
  rewrite engine_run.
  destruct (Store.load (fs w) (getSnapshotFiles (canonical_of c))) as [[i d]|] eqn:Hl.
  - intros [= <- <-]. exists i. cbn [data]. now rewrite logw_fs.
  - intros E. apply live_saved in E. destruct E as [_ E]. eauto.
Qed.

Lemma engine_hit (P : Platform) (this : MockServer) (c : inbound) (i : json)
    (d : Buffer.t) (w : World) :
  Store.load (fs w) (getSnapshotFiles (canonical_of c)) = Some (i, d) ->
  exists w1,
    engine P this c w = (Ok (Some {| data := d; info := i; request := canonical_of c |}), w1)
    /\ fs w1 = fs w /\ upstream w1 = upstream w /\ replies w1 = replies w.
Proof.
  intros Hl. rewrite engine_run, Hl. eexists. split; [reflexivity|].
  now rewrite logw_fs, logw_upstream, logw_replies.
Qed.

(** A message that misses the store. *)
Lemma onMessage_miss (P : Platform) (this : MockServer) (id : nat) (l : listener)
    (d : json) (w : World) :
  Store.load (fs w) (getSnapshotFiles (socket_request l d)) = None ->
  onMessage P this id l d w =
    let r := socket_request l d in
    let w1 :=
      add_upstream (SocketCall (l_href l) d)
        (logw this (Msg ("[warning] no snapshot file found for path " ++ l_href l
                         ++ " fetching from remote"))
           (logw this (Msg ("[socket.io] received message from client proxying "
                            ++ l_url l)) w)) in
    match emit P (upstream w) (l_href l) d with
    | None => (Pending, w1)
    | Some resp =>
        match saveSnapshot this (reply_of r resp)
                (logw this (Msg "[socket.io] got response from proxied server") w1) with
        | (Ok _, w2) =>
            match Json.parse (Buffer.toString (data (reply_of r resp))) with
            | Some v =>
                (Ok tt,
                 add_reply id v
                   (logw this (Msg ("[socket.io] sending response to client proxying "
                                    ++ l_url l)) w2))
            | None =>
                (Throw (SyntaxError "Unexpected token in JSON"),
                 logw this (Msg ("[socket.io] sending response to client proxying "
                                 ++ l_url l)) w2)
            end
        | (Throw e, w2) => (Pending, w2)
        | (Pending, w2) => (Pending, w2)
        end
    end.
Proof.
  intros Hl. rewrite onMessage_run, engine_run. cbn [canonical_of live].
  rewrite logw_fs, Hl, fetchFromSocketIOServer_run. cbv zeta.
  rewrite !logw_upstream.
  change (href (socket_request l d)) with (l_href l).
  change (message_of (socket_request l d)) with d.
  destruct (emit P (upstream w) (l_href l) d) as [resp|]; [|reflexivity].
  destruct (saveSnapshot this (reply_of (socket_request l d) resp) _) as [[[]|e|] w2];
    reflexivity.
Qed.

Lemma byte_of_code (c : ascii) : Buffer.byte_of_N (code c) = byte_of_ascii c.
Proof. each_char c; reflexivity. Qed.

Lemma latin1_ascii (s : string) :
  ascii_only s = true -> Buffer.latin1 s = list_byte_of_string s.
Proof.
  induction s as [|c s IH]; [reflexivity|].
  cbn [ascii_only]. intros H. apply andb_prop in H as [Hc Hs].
  cbn [Buffer.latin1]. rewrite Hc, (IH Hs), byte_of_code. reflexivity.
Qed.

Lemma reply_round_trip (resp : json) :
  ascii_only (Json.stringify resp) = true ->
  Json.parse (Buffer.toString (Buffer.from_binary (Buffer.OfString (Json.stringify resp))))
  = Some resp.
Proof.
  intros H. cbn [Buffer.from_binary]. rewrite (latin1_ascii _ H).
  unfold Buffer.toString. rewrite string_of_list_byte_of_string.
  apply JsonFacts.parse_stringify.
Qed.

(** Where the snapshot of a message lies. *)
Lemma socket_layout (l : listener) (d : json) :
  directory (getSnapshotFiles (socket_request l d))
  = SNAPSHOT_DIR ++ "/" ++ l_host l ++ "/socket.io"
  /\ info_file (getSnapshotFiles (socket_request l d))
     = SNAPSHOT_DIR ++ "/" ++ l_host l ++ "/socket.io/index.websocket."
       ++ uniqueReqId (socket_request l d) ++ ".json".
Proof.
  set (r := socket_request l d).
  assert (Hbase : snapshotBase r
                  = (SNAPSHOT_DIR ++ "/" ++ l_host l ++ "/socket.io")
                    ++ "/" ++ ("index.websocket." ++ uniqueReqId r)).
  { unfold snapshotBase. cbn [pathname host method socket_request r].
    change (slice_last "/socket.io/" =? "/")%string with true. cbv iota.
    rewrite !app_assoc. reflexivity. }
  unfold getSnapshotFiles. cbn [directory info_file]. rewrite Hbase. split.
  - apply (dirname_under_root ("/" ++ l_host l ++ "/socket.io")); [discriminate|].
    rewrite no_slash_app, no_slash_fingerprint. reflexivity.
  - rewrite !app_assoc. reflexivity.
Qed.

Lemma bind_ret_unit (m : M unit) (w : World) : bind m (fun _ => ret tt) w = m w.
Proof. unfold bind, ret. now destruct (m w) as [[[]|e|] w1]. Qed.

Lemma deliver_to_fresh (P : Platform) (this : MockServer) (id : nat) (d : json)
    (ls : list (nat * listener)) (l : listener) (w : World) :
  List.existsb (fun x => Nat.eqb id (fst x)) ls = false ->
  deliver_to P this id d (ls ++ [(id, l)]) w = onMessage P this id l d w.
Proof.
  induction ls as [|[id' l'] ls IH]; cbn [existsb app deliver_to fst].
  - intros _. rewrite Nat.eqb_refl. apply bind_ret_unit.
  - intros H. apply orb_false_elim in H as [H1 H2]. rewrite H1. now apply IH.
Qed.

End SocketFacts.

Section Socket.

Import StringFacts FsFacts Run Orchestrator StoreFacts SocketFacts.

Variable P : Platform.
Variable this : MockServer.

(** X16. A connection with a usable url: when the [url] of the
    handshake is not blank and decodes to a URL that parses, the socket
    is not disconnected and gets one [message] listener for that URL;
    on a socket that had none and is connected, a message is then
    handled by this listener, as a request for host and href of the URL,
    the path /socket.io/ and the method websocket.  Nothing is fetched
    or stored at connection time. *)
Theorem connection_registers_a_listener (id : nat) (url target : string) (u : Url.t)
    (w : World) :
  url <> EmptyString ->
  Url.decodeURIComponent (Some url) = Some target ->
  Url.parse target = Some u ->
  let l := {| l_url := url; l_href := Url.href u; l_host := Url.host u |} in
  let w' := snd (onConnection this id (Some url) w) in
  fst (onConnection this id (Some url) w) = Ok tt
  /\ listeners w' = (listeners w ++ [(id, l)])%list
  /\ disconnected w' = disconnected w
  /\ fs w' = fs w
  /\ upstream w' = upstream w
  /\ (List.existsb (Nat.eqb id) (disconnected w) = false ->
      List.existsb (fun x => Nat.eqb id (fst x)) (listeners w) = false ->
      forall d, deliver P this id d w' = onMessage P this id l d w')
  /\ forall d,
       directory (getSnapshotFiles (socket_request l d))
       = SNAPSHOT_DIR ++ "/" ++ Url.host u ++ "/socket.io"
       /\ info_file (getSnapshotFiles (socket_request l d))
          = SNAPSHOT_DIR ++ "/" ++ Url.host u ++ "/socket.io/index.websocket."
            ++ uniqueReqId (socket_request l d) ++ ".json".
Proof.
  intros Hne Hd Hp l w'.
  assert (E : onConnection this id (Some url) w
              = (Ok tt,
                 add_listener id l
                   (logw this (Msg ("[socket.io] a client connected proxying " ++ url)) w))).
  { unfold onConnection, bind, decodeURIComponent, new_URL.
    destruct url as [|c url]; [contradiction|].
    cbn [ret]. rewrite Hd. cbn [ret]. rewrite Hp. cbn [ret]. now rewrite log_run. }
  subst w'. rewrite E. cbn [fst snd listeners disconnected fs upstream add_listener].
  assert (Hlis : listeners (logw this (Msg ("[socket.io] a client connected proxying "
                                            ++ url)) w) = listeners w)
    by (unfold logw; now destruct (logAll this)).
  assert (Hdis : disconnected (logw this (Msg ("[socket.io] a client connected proxying "
                                               ++ url)) w) = disconnected w)
    by (unfold logw; now destruct (logAll this)).
  rewrite Hlis, Hdis, logw_fs, logw_upstream.
  split; [reflexivity|]. split; [reflexivity|]. split; [reflexivity|].
  split; [reflexivity|]. split; [reflexivity|]. split.
  - intros Hc Hf d. unfold deliver. cbn [disconnected listeners add_listener].
    rewrite Hdis, Hc, Hlis. now apply deliver_to_fresh.
  - intros d. exact (socket_layout l d).
Qed.

(** X17. An answered message can be asked again: once a message on a
    socket has been answered (replayed, or fetched and recorded), the
    same message to the same target, on this or another socket, gets
    the same answer from the store, with no upstream call and no change
    to the file system. *)
Theorem answered_message_is_replayed (id : nat) (l : listener) (d : json) (w w1 : World) :
  onMessage P this id l d w = (Ok tt, w1) ->
  exists v,
    replies w1 = (replies w ++ [(id, v)])%list
    /\ forall id' l',
         l_href l' = l_href l -> l_host l' = l_host l ->
         exists w2,
           onMessage P this id' l' d w1 = (Ok tt, w2)
           /\ replies w2 = (replies w1 ++ [(id', v)])%list
           /\ upstream w2 = upstream w1
           /\ fs w2 = fs w1.
Proof.
  rewrite onMessage_run.
  set (w0 := logw this _ w).
  pose proof (socket_engine_replies P this (socket_request l d) w0) as R.
  destruct (engine P this (ViaSocket (socket_request l d)) w0) as [[[s|]|e|] w1'] eqn:E;
    try discriminate.
  destruct (Json.parse (Buffer.toString (data s))) as [v|] eqn:Hv; [|discriminate].
  intros [= <-]. exists v. cbn [snd] in R. split.
  { cbn [replies add_reply]. rewrite logw_replies, R. unfold w0. now rewrite logw_replies. }
  intros id' l' Hh Hho.
  assert (Hr : socket_request l' d = socket_request l d)
    by (unfold socket_request; now rewrite Hh, Hho).
  destruct (engine_stores _ _ _ _ _ _ E) as (i & Hl). cbn [canonical_of] in Hl.
  rewrite onMessage_run, Hr.
  set (w2 := logw this _ (add_reply id v _)).
  assert (F : fs w2 = fs w1').
  { unfold w2. rewrite logw_fs. cbn [fs add_reply]. apply logw_fs. }
  destruct (engine_hit P this (ViaSocket (socket_request l d)) i (data s) w2)
    as (w3 & -> & F3 & U3 & R3).
  { cbn [canonical_of]. now rewrite F. }
  cbn [data]. rewrite Hv. eexists. split; [reflexivity|].
  cbn [replies upstream fs add_reply].
  rewrite logw_replies, logw_upstream, logw_fs, R3, U3, F3.
  unfold w2. rewrite logw_replies, logw_upstream, logw_fs.
  cbn [replies upstream fs add_reply]. auto.
Qed.

(** X18. A live answer is the origin's: when the store has no snapshot
    for a message, the origin acknowledges it with a response whose
    JSON text is ASCII, and the snapshot can be written, the handler
    completes, the client's callback receives that response, one
    upstream call has been made, and the store holds the request as
    metadata and the JSON text of the response as payload. *)
Theorem live_reply_is_the_origin_response (id : nat) (l : listener) (d resp : json)
    (w : World) :
  let r := socket_request l d in
  Store.load (fs w) (getSnapshotFiles r) = None ->
  emit P (upstream w) (l_href l) d = Some resp ->
  ascii_only (Json.stringify resp) = true ->
  can_save (fs w) (reply_of r resp) = true ->
  let w' := snd (onMessage P this id l d w) in
  fst (onMessage P this id l d w) = Ok tt
  /\ replies w' = (replies w ++ [(id, resp)])%list
  /\ upstream w' = (upstream w ++ [SocketCall (l_href l) d])%list
  /\ Store.load (fs w') (getSnapshotFiles r)
     = Some (json_of_requestData r, list_byte_of_string (Json.stringify resp)).
Proof.
  intros r Hl He Ha Hc. cbv zeta. rewrite (onMessage_miss P this id l d w Hl). cbv zeta.
  rewrite He. fold r.
  set (w1 := logw this (Msg "[socket.io] got response from proxied server") _).
  pose proof (saveSnapshot_replies this (reply_of r resp) w1) as R.
  pose proof (saveSnapshot_upstream this (reply_of r resp) w1) as U.
  assert (F1 : fs w1 = fs w).
  { unfold w1. rewrite logw_fs. cbn [fs add_upstream]. now rewrite !logw_fs. }
  destruct (can_save_ok this (reply_of r resp) w1) as (w2 & Hs); [now rewrite F1|].
  rewrite Hs in R, U |- *.
  cbn [data reply_of]. rewrite (reply_round_trip resp Ha).
  cbn [fst snd replies upstream fs add_reply] in *.
  rewrite logw_replies, logw_upstream, logw_fs, R, U.
  unfold w1. rewrite logw_replies, logw_upstream. cbn [replies upstream add_upstream].
  rewrite !logw_replies, !logw_upstream.
  split; [reflexivity|]. split; [reflexivity|]. split; [reflexivity|].
  pose proof (load_after_save _ _ _ _ Hs) as L.
  cbn [request info data reply_of Buffer.from_binary] in L.
  rewrite (latin1_ascii _ Ha) in L. exact L.
Qed.

(** X19. An origin that does not acknowledge leaves the message
    unanswered: when the store has no snapshot for a message and the
    acknowledgement never arrives, the handler never completes, the
    client's callback is not called, and nothing is written; the one
    upstream call has been made. *)
Theorem unacknowledged_message_stays_pending (id : nat) (l : listener) (d : json)
    (w : World) :
  Store.load (fs w) (getSnapshotFiles (socket_request l d)) = None ->
  emit P (upstream w) (l_href l) d = None ->
  let w' := snd (onMessage P this id l d w) in
  fst (onMessage P this id l d w) = Pending
  /\ replies w' = replies w
  /\ fs w' = fs w
  /\ upstream w' = (upstream w ++ [SocketCall (l_href l) d])%list.
Proof.
  intros Hl He. cbv zeta. rewrite (onMessage_miss P this id l d w Hl). cbv zeta.
  rewrite He. cbn [fst snd replies fs upstream add_upstream].
  rewrite !logw_replies, !logw_fs, !logw_upstream. auto.
Qed.

(** X20. A record that cannot be saved is not answered on a socket:
    when the store has no snapshot for a message, the origin
    acknowledges it, and the snapshot cannot be written, the handler
    does not complete and the client's callback is not called, although
    the upstream call has been made; the store still has no snapshot
    for the message. *)
Theorem unsaved_socket_record_is_not_answered (id : nat) (l : listener) (d resp : json)
    (w : World) :
  let r := socket_request l d in
  Store.load (fs w) (getSnapshotFiles r) = None ->
  emit P (upstream w) (l_href l) d = Some resp ->
  can_save (fs w) (reply_of r resp) = false ->
  let w' := snd (onMessage P this id l d w) in
  fst (onMessage P this id l d w) <> Ok tt
  /\ replies w' = replies w
  /\ upstream w' = (upstream w ++ [SocketCall (l_href l) d])%list
  /\ Store.load (fs w') (getSnapshotFiles r) = None.
Proof.
  intros r Hl He Hc. cbv zeta. rewrite (onMessage_miss P this id l d w Hl). cbv zeta.
  rewrite He. fold r.
  set (w1 := logw this (Msg "[socket.io] got response from proxied server") _).
  pose proof (saveSnapshot_replies this (reply_of r resp) w1) as R.
  pose proof (saveSnapshot_upstream this (reply_of r resp) w1) as U.
  assert (F1 : fs w1 = fs w).
  { unfold w1. rewrite logw_fs. cbn [fs add_upstream]. now rewrite !logw_fs. }
  destruct (can_save_fail this (reply_of r resp) w1) as [N L]; [now rewrite F1|].
  cbn [request reply_of] in L. rewrite F1 in L. specialize (L Hl).
  assert (R1 : replies w1 = replies w).
  { unfold w1. rewrite logw_replies. cbn [replies add_upstream]. now rewrite !logw_replies. }
  assert (U1 : upstream w1 = (upstream w ++ [SocketCall (l_href l) d])%list).
  { unfold w1. rewrite logw_upstream. cbn [upstream add_upstream].
    now rewrite !logw_upstream. }
  destruct (saveSnapshot this (reply_of r resp) w1) as [[[]|e|] w2];
    cbn [fst snd] in *; [now elim N| |]; rewrite R, U, R1, U1;
    (split; [discriminate|]); auto.
Qed.

(** X21. A stored payload that is no JSON text is not answered: when
    the store holds a snapshot for a message whose payload does not
    parse, the handler fails after the lookup; the client's callback is
    not called, no origin is asked and nothing is written. *)
Theorem corrupt_payload_is_not_answered (id : nat) (l : listener) (d i : json)
    (payload : Buffer.t) (w : World) :
  Store.load (fs w) (getSnapshotFiles (socket_request l d)) = Some (i, payload) ->
  Json.parse (Buffer.toString payload) = None ->
  let w' := snd (onMessage P this id l d w) in
  (exists e, fst (onMessage P this id l d w) = Throw e)
  /\ replies w' = replies w
  /\ upstream w' = upstream w
  /\ fs w' = fs w.
Proof.
  intros Hl Hp. cbv zeta. rewrite onMessage_run.
  set (w0 := logw this _ w).
  destruct (engine_hit P this (ViaSocket (socket_request l d)) i payload w0)
    as (w1 & -> & F & U & R).
  { cbn [canonical_of]. unfold w0. now rewrite logw_fs. }
  cbn [data]. rewrite Hp. cbn [fst snd].
  rewrite logw_replies, logw_upstream, logw_fs, R, U, F. unfold w0.
  rewrite logw_replies, logw_upstream, logw_fs. eauto.
Qed.

(** X22. A url that does not parse leaves the socket deaf: when the
    [url] of the handshake is not blank but does not decode, or decodes
    to a text that is no URL, the connection listener throws; the
    socket is not disconnected and gets no listener, so a message on it
    is not handled if it had none. *)
Theorem unparsable_url_leaves_the_socket_deaf (id : nat) (url : string) (w : World) :
  url <> EmptyString ->
  Url.decodeURIComponent (Some url) = None
  \/ (exists target, Url.decodeURIComponent (Some url) = Some target
                     /\ Url.parse target = None) ->
  let w' := snd (onConnection this id (Some url) w) in
  (exists e, fst (onConnection this id (Some url) w) = Throw e)
  /\ w' = w
  /\ (List.existsb (fun x => Nat.eqb id (fst x)) (listeners w) = false ->
      forall d, deliver P this id d w' = (Ok tt, w')).
Proof.
  intros Hne H. cbv zeta.
  assert (E : exists e, onConnection this id (Some url) w = (Throw e, w)).
  { unfold onConnection, bind, decodeURIComponent, new_URL.
    destruct url as [|c url]; [contradiction|]. cbn [ret].
    destruct H as [Hd|(target & Hd & Hp)]; rewrite Hd; cbn [throw ret]; [eauto|].
    rewrite Hp. cbn [throw]. eauto. }
  destruct E as (e & ->). cbn [fst snd]. split; [eauto|]. split; [reflexivity|].
  intros Hf d. unfold deliver. destruct (existsb (Nat.eqb id) (disconnected w)); [reflexivity|].
  induction (listeners w) as [|[id' l'] ls IH]; [reflexivity|].
  cbn [existsb fst] in Hf. apply orb_false_elim in Hf as [H1 H2].
  cbn [deliver_to]. rewrite H1. exact (IH H2).
Qed.

End Socket.
(* ================================================================== *)
(** ** The root route and the allow-list *)
(* ================================================================== *)

Module RouteFacts.
Import StringFacts FsFacts Run Orchestrator.

Lemma indexOf_from_bound (needle s : string) (i : Z) :
  indexOf_from needle s i = -1 \/ i <= indexOf_from needle s i.
Proof.
  revert i. induction s as [|c s IH]; intros i; cbn [indexOf_from].
  - destruct (startsWith EmptyString needle); [right; lia|now left].
  - destruct (startsWith (String c s) needle); [right; lia|].
    destruct (IH (i + 1)) as [->|H]; [now left|right; lia].
Qed.

(** The first piece of a split ends at the first occurrence of the
    separator. *)
Lemma split_go_head (a : ascii) (p t cur : string) (i : Z) :
  0 <= i ->
  List.hd EmptyString (split_go (String a p) t O cur)
  = cur ++ (if indexOf_from (String a p) t i =? -1 then t
            else take (Z.to_nat (indexOf_from (String a p) t i - i)) t).
Proof.
  revert cur i. induction t as [|c t IH]; intros cur i Hi.
  - cbn [split_go indexOf_from startsWith hd]. cbn [Z.eqb]. now rewrite app_nil_r.
  - cbn [split_go indexOf_from].
    destruct (startsWith (String c t) (String a p)) eqn:E.
    + cbn [hd]. destruct (Z.eqb_spec i (-1)); [lia|].
      rewrite Z.sub_diag. cbn [Z.to_nat take]. now rewrite app_nil_r.
    + rewrite (IH _ (i + 1)) by lia.
      destruct (indexOf_from_bound (String a p) t (i + 1)) as [H|H].
      * rewrite H. cbn [Z.eqb]. now rewrite app_assoc.
      * destruct (Z.eqb_spec (indexOf_from (String a p) t (i + 1)) (-1)); [lia|].
        replace (Z.to_nat (indexOf_from (String a p) t (i + 1) - i))
          with (S (Z.to_nat (indexOf_from (String a p) t (i + 1) - (i + 1)))) by lia.
        cbn [take]. now rewrite app_assoc.
Qed.

Lemma root_parameter (t : string) :
  List.nth 1 (split ("/?url=" ++ t) "/?url=") EmptyString = url_parameter t.
Proof.
  assert (E : split ("/?url=" ++ t) "/?url="
              = EmptyString :: split_go "/?url=" t O EmptyString) by reflexivity.
  rewrite E. cbn [nth]. unfold url_parameter, indexOf, slice0.
  rewrite <- (app_nil_l (if _ =? -1 then t else _)).
  rewrite <- (Z.sub_0_r (indexOf_from "/?url=" t 0)) at 2.
  rewrite <- (split_go_head "/" "?url=" t EmptyString 0) by lia.
  now destruct (split_go "/?url=" t 0 EmptyString).
Qed.

(** A target that starts with "/?" is on the root path, on the fast path
    of parseurl and off it. *)
Lemma root_with_query (other : string -> option string) (t : string) :
  Express.route_of (Express.pathname other ("/?" ++ t)) = Express.Root.
Proof.
  unfold Express.pathname. destruct (Express.fast_path _); reflexivity.
Qed.

(** What the allow-list keeps of a header is nothing, or the header with
    a value that is not empty. *)
Lemma kept_cases_value (fullHeaders : list (string * string)) (name : string) :
  kept fullHeaders name = []
  \/ exists c x, kept fullHeaders name = [(name, String c x)].
Proof.
  unfold kept. destruct (Json.assoc name fullHeaders) as [[|c x]|]; cbn [is_empty]; eauto.
Qed.

End RouteFacts.

Section Routes.

Import StringFacts FsFacts Run Orchestrator RouteFacts.

Variable P : Platform.
Variable this : MockServer.

(** X23. The url parameter of the root route: a call to "/?url="
    followed by a text is served for that text up to the next "/?url="
    in it, and for all of it when there is none; what follows a second
    "/?url=" is dropped. *)
Theorem root_route_reads_the_url_parameter (req : Request) (t : string) (w : World) :
  req_url req = "/?url=" ++ t ->
  handleHttp P this req w = serveHttpData P this (with_url req (url_parameter t)) w
  /\ (indexOf t "/?url=" = -1 -> url_parameter t = t)
  /\ forall a b,
       indexOf (a ++ "/?url=" ++ b) "/?url=" = len a ->
       url_parameter (a ++ "/?url=" ++ b) = a.
Proof.
  intros Hu. split; [|split].
  - unfold handleHttp, rootRoute. rewrite Hu.
    change ("/?url=" ++ t) with ("/?" ++ "url=" ++ t) at 1.
    rewrite (root_with_query (url_parse P) ("url=" ++ t)).
    change (indexOf ("/?url=" ++ t) "/?url=") with 0. cbn [Z.eqb negb].
    now rewrite root_parameter.
  - intros H. unfold url_parameter. now rewrite H.
  - intros a b H. unfold url_parameter, slice0. rewrite H. unfold len.
    destruct (Z.eqb_spec (Z.of_nat (String.length a)) (-1)); [lia|].
    rewrite Nat2Z.id, take_app by lia. apply StoreFacts.take_all.
Qed.

(** X24. The allow-list is idempotent: the headers of a canonical
    request pass the allow-list unchanged. *)
Theorem allow_list_is_idempotent (fullHeaders : list (string * string)) :
  pickHeaders (pickHeaders fullHeaders) = pickHeaders fullHeaders.
Proof.
  rewrite (pickHeaders_flat_map fullHeaders). unfold allowList. cbn [flat_map].
  destruct (kept_cases_value fullHeaders "Content-Type") as [->|(c1 & x1 & ->)];
    destruct (kept_cases_value fullHeaders "user-agent") as [->|(c2 & x2 & ->)];
    destruct (kept_cases_value fullHeaders "Authorization") as [->|(c3 & x3 & ->)];
    reflexivity.
Qed.

End Routes.
(* ================================================================== *)
(** ** The further properties at the sample requests *)
(* ================================================================== *)

(** A quiet server at a root request, a blank connection and a message. *)
Lemma quiet_server_at_the_samples :
  console (snd (handleHttp Sample.P Scene.quiet_server Sample.on_root Sample.empty))
  = console Sample.empty
  /\ console (snd (onConnection Scene.quiet_server 7 None Sample.empty))
     = console Sample.empty
  /\ console (snd (deliver Sample.P Scene.quiet_server 7 Scene.ping_msg Sample.empty))
     = console Sample.empty.
Proof.
  exact (quiet_server_prints_nothing Sample.P Scene.quiet_server Sample.on_root 7 None
           Scene.ping_msg Sample.empty eq_refl).
Defined.

(** The file system after the save of [Sample.record] on an empty store. *)
Lemma save_of_the_users_record :
  let key := getSnapshotFiles (request Sample.record) in
  fs Sample.saved !! info_file key
  = Some (Fs.File (Buffer.of_string (Json.stringify (info Sample.record))))
  /\ fs Sample.saved !! data_file key = Some (Fs.File (data Sample.record))
  /\ Fs.is_dir (fs Sample.saved) (directory key) = true
  /\ (forall q, In q (Path.ancestors (directory key)) -> fs Sample.saved !! q = Some Fs.Dir)
  /\ (forall q, q <> info_file key -> q <> data_file key ->
                ~ In q (Path.ancestors (directory key)) ->
                fs Sample.saved !! q = fs Sample.empty !! q)
  /\ upstream Sample.saved = upstream Sample.empty
  /\ response Sample.saved = response Sample.empty.
Proof.
  assert (H : saveSnapshot Sample.server Sample.record Sample.empty
              = (Ok tt, Sample.saved)) by (vm_compute; reflexivity).
  exact (save_writes_only_its_snapshot Sample.server Sample.record Sample.empty
           Sample.saved H).
Defined.

(** A second record for the users, saved over the first. *)
Lemma newer_record_replaces_the_users_record :
  exists w2 w3,
    saveSnapshot Sample.server Scene.newer Sample.saved = (Ok tt, w2)
    /\ fetchFromSnapshot Sample.server (request Sample.record) w2
       = (Ok (Some Scene.newer), w3).
Proof.
  assert (H : saveSnapshot Sample.server Sample.record Sample.empty
              = (Ok tt, Sample.saved)) by (vm_compute; reflexivity).
  exact (resave_replaces_the_snapshot Sample.server Sample.record Scene.newer
           Sample.empty Sample.saved H eq_refl).
Defined.

(** The record of the first call for the users. *)
Lemma users_record_has_no_request_field :
  exists resp fields,
    axios Sample.P (upstream Sample.empty) (options_of Sample.get_users) = inr resp
    /\ request Sample.record = Sample.get_users
    /\ data Sample.record = resp_data resp
    /\ info Sample.record = JObj fields
    /\ Json.assoc "request" fields = None
    /\ (forall k, k <> "request" -> Json.assoc k fields = Json.assoc k (resp_fields resp))
    /\ Store.load (fs Sample.recorded) (getSnapshotFiles Sample.get_users)
       = Some (JObj fields, resp_data resp).
Proof.
  assert (H : fetchFromServer Sample.P Sample.server Sample.get_users Sample.empty
              = (Ok (Some Sample.record), Sample.recorded)) by (vm_compute; reflexivity).
  exact (recorded_metadata_drops_the_request Sample.P Sample.server Sample.get_users
           Sample.record Sample.empty Sample.recorded H).
Defined.

(** Two calls for a page of an origin that refuses the connection. *)
Lemma refused_page_is_fetched_again :
  let req := with_url Sample.on_root "https://example.com/a" in
  let w1 := snd (recordReplayData Sample.P Sample.server req Sample.empty) in
  fst (recordReplayData Sample.P Sample.server req Sample.empty) = Ok None
  /\ fs w1 = fs Sample.empty
  /\ upstream w1 = (upstream Sample.empty ++ [HttpCall (options_of Scene.page)])%list
  /\ upstream (snd (recordReplayData Sample.P Sample.server req w1))
     = (upstream w1 ++ [HttpCall (options_of Scene.page)])%list.
Proof.
  intros req.
  assert (Hc : canonical req = inr Scene.page) by (vm_compute; reflexivity).
  assert (Hl : Store.load (fs Sample.empty) (getSnapshotFiles Scene.page) = None)
    by (vm_compute; reflexivity).
  exact (failed_fetch_is_not_recorded Sample.P Sample.server req Scene.page
           (NetworkError "connect ECONNREFUSED") Sample.empty Hc Hl eq_refl).
Defined.

(** The layout for the users. *)
Lemma directory_of_the_users :
  let dir := SNAPSHOT_DIR ++ "/" ++ host Sample.get_users ++ "/v1" in
  let leaf := "users" ++ "." ++ method Sample.get_users ++ "."
              ++ uniqueReqId Sample.get_users in
  getSnapshotFiles Sample.get_users
  = {| directory := dir;
       info_file := dir ++ "/" ++ leaf ++ ".json";
       data_file := dir ++ "/" ++ leaf ++ ".data" |}
  /\ no_slash leaf = true.
Proof.
  exact (directory_mirrors_the_path Sample.get_users "/v1" "users" eq_refl eq_refl eq_refl).
Defined.

(** The files of the users' snapshot and what they tell. *)
Lemma files_of_the_users_tell :
  host Sample.get_users = host Sample.get_users
  /\ method Sample.get_users = method Sample.get_users
  /\ uniqueReqId Sample.get_users = uniqueReqId Sample.get_users
  /\ getSnapshotFiles Sample.get_users = getSnapshotFiles Sample.get_users.
Proof.
  exact (snapshot_files_tell_host_and_method Sample.get_users Sample.get_users
           "v1/users" "v1/users" eq_refl eq_refl eq_refl eq_refl eq_refl eq_refl
           (or_introl eq_refl)).
Defined.

(** The stored users, served to a client with a cookie. *)
Lemma stored_users_are_served :
  let w' := snd (handleHttp Sample.P Sample.server Scene.browser Sample.recorded) in
  fst (handleHttp Sample.P Sample.server Scene.browser Sample.recorded) = Ok tt
  /\ response w'
     = (response Sample.recorded
        ++ [ResSet "Content-Type"
              (Json.assoc "content-type"
                 [("content-type", JStr "application/octet-stream")]);
            ResSend (Some (resp_data Sample.users))])%list
  /\ upstream w' = upstream Sample.recorded
  /\ fs w' = fs Sample.recorded.
Proof.
  assert (Ht : resolveTarget Sample.P Scene.browser
               = inr "http://api.example.com/v1/users") by (vm_compute; reflexivity).
  assert (Hc : canonical (with_url Scene.browser "http://api.example.com/v1/users")
               = inr Sample.get_users) by (vm_compute; reflexivity).
  assert (Hl : Store.load (fs Sample.recorded) (getSnapshotFiles Sample.get_users)
               = Some (JObj Scene.users_info, resp_data Sample.users))
    by (vm_compute; reflexivity).
  exact (stored_record_is_served Sample.P Sample.server Scene.browser
           "http://api.example.com/v1/users" Sample.get_users Scene.users_info
           [("content-type", JStr "application/octet-stream")] (resp_data Sample.users)
           Sample.recorded Ht Hc Hl eq_refl).
Defined.

(** The users, asked twice on an empty store. *)
Lemma users_are_served_twice_alike :
  let w1 := snd (handleHttp Sample.P Sample.server Scene.browser Sample.empty) in
  let w2 := snd (handleHttp Sample.P Sample.server Scene.browser w1) in
  fst (handleHttp Sample.P Sample.server Scene.browser w1) = Ok tt
  /\ response w2
     = (response w1
        ++ [ResSet "Content-Type" (Some (JStr "application/octet-stream"));
            ResSend (Some (resp_data Sample.users))])%list
  /\ upstream w2 = upstream w1
  /\ fs w2 = fs w1.
Proof.
  assert (H : response (snd (handleHttp Sample.P Sample.server Scene.browser Sample.empty))
              = (response Sample.empty
                 ++ [ResSet "Content-Type" (Some (JStr "application/octet-stream"));
                     ResSend (Some (resp_data Sample.users))])%list)
    by (vm_compute; reflexivity).
  exact (served_response_is_repeatable Sample.P Sample.server Scene.browser
           (Some (JStr "application/octet-stream")) (resp_data Sample.users)
           Sample.empty H).
Defined.

(** The users, fetched, recorded and served on an empty store. *)
Lemma users_are_recorded_and_served :
  let w' := snd (handleHttp Sample.P Sample.server Scene.browser Sample.empty) in
  fst (handleHttp Sample.P Sample.server Scene.browser Sample.empty) = Ok tt
  /\ response w'
     = (response Sample.empty
        ++ [ResSet "Content-Type"
              (Json.assoc "content-type"
                 [("content-type", JStr "application/octet-stream")]);
            ResSend (Some (resp_data Sample.users))])%list
  /\ upstream w' = (upstream Sample.empty ++ [HttpCall (options_of Sample.get_users)])%list
  /\ Store.load (fs w') (getSnapshotFiles Sample.get_users)
     = Some (JObj (obj_delete (resp_fields Sample.users) "request"),
             resp_data Sample.users).
Proof.
  assert (Ht : resolveTarget Sample.P Scene.browser
               = inr "http://api.example.com/v1/users") by (vm_compute; reflexivity).
  assert (Hc : canonical (with_url Scene.browser "http://api.example.com/v1/users")
               = inr Sample.get_users) by (vm_compute; reflexivity).
  assert (Hl : Store.load (fs Sample.empty) (getSnapshotFiles Sample.get_users) = None)
    by (vm_compute; reflexivity).
  assert (Hs : can_save (fs Sample.empty) (record_of Sample.get_users Sample.users) = true)
    by (vm_compute; reflexivity).
  exact (live_response_is_recorded_and_served Sample.P Sample.server Scene.browser
           "http://api.example.com/v1/users" Sample.get_users Sample.users
           [("content-type", JStr "application/octet-stream")] Sample.empty
           Ht Hc Hl eq_refl eq_refl Hs).
Defined.

(** A connection for the socket origin. *)
Lemma connection_for_the_socket_origin :
  let w' := snd (onConnection Sample.server 7 (Some "https://ws.example.com/") Sample.empty) in
  fst (onConnection Sample.server 7 (Some "https://ws.example.com/") Sample.empty) = Ok tt
  /\ listeners w' = (listeners Sample.empty ++ [(7%nat, Scene.chat)])%list
  /\ disconnected w' = disconnected Sample.empty
  /\ fs w' = fs Sample.empty
  /\ upstream w' = upstream Sample.empty
  /\ (List.existsb (Nat.eqb 7) (disconnected Sample.empty) = false ->
      List.existsb (fun x => Nat.eqb 7 (fst x)) (listeners Sample.empty) = false ->
      forall d, deliver Sample.P Sample.server 7 d w'
                = onMessage Sample.P Sample.server 7 Scene.chat d w')
  /\ forall d,
       directory (getSnapshotFiles (socket_request Scene.chat d))
       = SNAPSHOT_DIR ++ "/" ++ Url.host Scene.ws ++ "/socket.io"
       /\ info_file (getSnapshotFiles (socket_request Scene.chat d))
          = SNAPSHOT_DIR ++ "/" ++ Url.host Scene.ws ++ "/socket.io/index.websocket."
            ++ uniqueReqId (socket_request Scene.chat d) ++ ".json".
Proof.
  assert (Hn : "https://ws.example.com/" <> EmptyString) by discriminate.
  assert (Hd : Url.decodeURIComponent (Some "https://ws.example.com/")
               = Some "https://ws.example.com/") by (vm_compute; reflexivity).
  assert (Hp : Url.parse "https://ws.example.com/" = Some Scene.ws)
    by (vm_compute; reflexivity).
  exact (connection_registers_a_listener Sample.P Sample.server 7
           "https://ws.example.com/" "https://ws.example.com/" Scene.ws Sample.empty
           Hn Hd Hp).
Defined.

(** The ping, asked again on another socket. *)
Lemma ping_is_replayed :
  exists v,
    replies Scene.answered = (replies Sample.empty ++ [(7%nat, v)])%list
    /\ forall id' l',
         l_href l' = l_href Scene.chat -> l_host l' = l_host Scene.chat ->
         exists w2,
           onMessage Sample.P Sample.server id' l' Scene.ping_msg Scene.answered = (Ok tt, w2)
           /\ replies w2 = (replies Scene.answered ++ [(id', v)])%list
           /\ upstream w2 = upstream Scene.answered
           /\ fs w2 = fs Scene.answered.
Proof.
  assert (H : onMessage Sample.P Sample.server 7 Scene.chat Scene.ping_msg Sample.empty
              = (Ok tt, Scene.answered)) by (vm_compute; reflexivity).
  exact (answered_message_is_replayed Sample.P Sample.server 7 Scene.chat Scene.ping_msg
           Sample.empty Scene.answered H).
Defined.

(** The first ping on an empty store. *)
Lemma ping_is_answered_with_the_echo :
  let r := socket_request Scene.chat Scene.ping_msg in
  let w' := snd (onMessage Sample.P Sample.server 7 Scene.chat Scene.ping_msg Sample.empty) in
  fst (onMessage Sample.P Sample.server 7 Scene.chat Scene.ping_msg Sample.empty) = Ok tt
  /\ replies w' = (replies Sample.empty ++ [(7%nat, Scene.pong)])%list
  /\ upstream w' = (upstream Sample.empty ++ [SocketCall (l_href Scene.chat) Scene.ping_msg])%list
  /\ Store.load (fs w') (getSnapshotFiles r)
     = Some (json_of_requestData r, list_byte_of_string (Json.stringify Scene.pong)).
Proof.
  intros r.
  assert (Hl : Store.load (fs Sample.empty) (getSnapshotFiles r) = None)
    by (vm_compute; reflexivity).
  assert (Ha : ascii_only (Json.stringify Scene.pong) = true) by (vm_compute; reflexivity).
  assert (Hs : can_save (fs Sample.empty) (reply_of r Scene.pong) = true)
    by (vm_compute; reflexivity).
  exact (live_reply_is_the_origin_response Sample.P Sample.server 7 Scene.chat Scene.ping_msg
           Scene.pong Sample.empty Hl eq_refl Ha Hs).
Defined.

(** A ping to an origin that never acknowledges. *)
Lemma ping_to_a_deaf_origin :
  let w' := snd (onMessage Scene.deaf Sample.server 7 Scene.chat Scene.ping_msg Sample.empty) in
  fst (onMessage Scene.deaf Sample.server 7 Scene.chat Scene.ping_msg Sample.empty) = Pending
  /\ replies w' = replies Sample.empty
  /\ fs w' = fs Sample.empty
  /\ upstream w' = (upstream Sample.empty ++ [SocketCall (l_href Scene.chat) Scene.ping_msg])%list.
Proof.
  assert (Hl : Store.load (fs Sample.empty)
                 (getSnapshotFiles (socket_request Scene.chat Scene.ping_msg)) = None)
    by (vm_compute; reflexivity).
  exact (unacknowledged_message_stays_pending Scene.deaf Sample.server 7 Scene.chat
           Scene.ping_msg Sample.empty Hl eq_refl).
Defined.

(** A ping where a regular file stands for the snapshot directory. *)
Lemma ping_on_a_blocked_store :
  let r := socket_request Scene.chat Scene.ping_msg in
  let w' := snd (onMessage Sample.P Sample.server 7 Scene.chat Scene.ping_msg Sample.blocked) in
  fst (onMessage Sample.P Sample.server 7 Scene.chat Scene.ping_msg Sample.blocked) <> Ok tt
  /\ replies w' = replies Sample.blocked
  /\ upstream w' = (upstream Sample.blocked ++ [SocketCall (l_href Scene.chat) Scene.ping_msg])%list
  /\ Store.load (fs w') (getSnapshotFiles r) = None.
Proof.
  intros r.
  assert (Hl : Store.load (fs Sample.blocked) (getSnapshotFiles r) = None)
    by (vm_compute; reflexivity).
  assert (Hs : can_save (fs Sample.blocked) (reply_of r Scene.pong) = false)
    by (vm_compute; reflexivity).
  exact (unsaved_socket_record_is_not_answered Sample.P Sample.server 7 Scene.chat
           Scene.ping_msg Scene.pong Sample.blocked Hl eq_refl Hs).
Defined.

(** The root request for a page. *)
Lemma root_request_for_a_page :
  handleHttp Sample.P Sample.server Sample.on_root Sample.empty
  = serveHttpData Sample.P Sample.server
      (with_url Sample.on_root (url_parameter "https://example.com/a")) Sample.empty
  /\ (indexOf "https://example.com/a" "/?url=" = -1 ->
      url_parameter "https://example.com/a" = "https://example.com/a")
  /\ forall a b,
       indexOf (a ++ "/?url=" ++ b) "/?url=" = len a ->
       url_parameter (a ++ "/?url=" ++ b) = a.
Proof.
  exact (root_route_reads_the_url_parameter Sample.P Sample.server Sample.on_root
           "https://example.com/a" Sample.empty eq_refl).
Defined.

(** The users' response where a regular file stands for the snapshot
    directory. *)
Lemma users_on_a_blocked_store :
  let w' := snd (handleHttp Sample.P Sample.server Scene.browser Sample.blocked) in
  fst (handleHttp Sample.P Sample.server Scene.browser Sample.blocked) = Ok tt
  /\ response w' = (response Sample.blocked ++ [ResSend None])%list
  /\ upstream w' = (upstream Sample.blocked ++ [HttpCall (options_of Sample.get_users)])%list
  /\ Store.load (fs w') (getSnapshotFiles Sample.get_users) = None.
Proof.
  assert (Ht : resolveTarget Sample.P Scene.browser
               = inr "http://api.example.com/v1/users") by (vm_compute; reflexivity).
  assert (Hc : canonical (with_url Scene.browser "http://api.example.com/v1/users")
               = inr Sample.get_users) by (vm_compute; reflexivity).
  assert (Hl : Store.load (fs Sample.blocked) (getSnapshotFiles Sample.get_users) = None)
    by (vm_compute; reflexivity).
  assert (Hs : can_save (fs Sample.blocked) (record_of Sample.get_users Sample.users) = false)
    by (vm_compute; reflexivity).
  exact (unsaved_response_is_an_empty_body Sample.P Sample.server Scene.browser
           "http://api.example.com/v1/users" Sample.get_users Sample.users Sample.blocked
           Ht Hc Hl eq_refl Hs).
Defined.

(** The users' snapshot without headers in its metadata. *)
Lemma headless_users_are_an_empty_body :
  let w' := snd (handleHttp Sample.P Sample.server Scene.browser Scene.headless) in
  fst (handleHttp Sample.P Sample.server Scene.browser Scene.headless) = Ok tt
  /\ response w' = (response Scene.headless ++ [ResSend None])%list
  /\ upstream w' = upstream Scene.headless
  /\ fs w' = fs Scene.headless.
Proof.
  assert (Ht : resolveTarget Sample.P Scene.browser
               = inr "http://api.example.com/v1/users") by (vm_compute; reflexivity).
  assert (Hc : canonical (with_url Scene.browser "http://api.example.com/v1/users")
               = inr Sample.get_users) by (vm_compute; reflexivity).
  assert (Hl : Store.load (fs Scene.headless) (getSnapshotFiles Sample.get_users)
               = Some (JObj [("status", JNum 200)], [Byte.x41]))
    by (vm_compute; reflexivity).
  exact (record_without_headers_is_an_empty_body Sample.P Sample.server Scene.browser
           "http://api.example.com/v1/users" Sample.get_users [("status", JNum 200)]
           [Byte.x41] Scene.headless Ht Hc Hl eq_refl).
Defined.

(** The ping over a payload cut short. *)
Lemma cut_payload_is_not_answered :
  let w' := snd (onMessage Sample.P Sample.server 7 Scene.chat Scene.ping_msg
                   Scene.cut_short) in
  (exists e, fst (onMessage Sample.P Sample.server 7 Scene.chat Scene.ping_msg
                    Scene.cut_short) = Throw e)
  /\ replies w' = replies Scene.cut_short
  /\ upstream w' = upstream Scene.cut_short
  /\ fs w' = fs Scene.cut_short.
Proof.
  assert (Hl : Store.load (fs Scene.cut_short)
                 (getSnapshotFiles (socket_request Scene.chat Scene.ping_msg))
               = Some (JObj [("host", JStr "ws.example.com")],
                       Buffer.of_string (dq "[{'op':")))
    by (vm_compute; reflexivity).
  assert (Hp : Json.parse (Buffer.toString (Buffer.of_string (dq "[{'op':"))) = None)
    by (vm_compute; reflexivity).
  exact (corrupt_payload_is_not_answered Sample.P Sample.server 7 Scene.chat
           Scene.ping_msg (JObj [("host", JStr "ws.example.com")])
           (Buffer.of_string (dq "[{'op':")) Scene.cut_short Hl Hp).
Defined.

(** A connection whose url is no URL. *)
Lemma connection_without_a_scheme :
  let w' := snd (onConnection Sample.server 7 (Some "ws.example.com") Sample.empty) in
  (exists e, fst (onConnection Sample.server 7 (Some "ws.example.com") Sample.empty)
             = Throw e)
  /\ w' = Sample.empty
  /\ (List.existsb (fun x => Nat.eqb 7 (fst x)) (listeners Sample.empty) = false ->
      forall d, deliver Sample.P Sample.server 7 d w' = (Ok tt, w')).
Proof.
  assert (Hn : "ws.example.com" <> EmptyString) by discriminate.
  assert (H : Url.decodeURIComponent (Some "ws.example.com") = None
              \/ (exists target,
                    Url.decodeURIComponent (Some "ws.example.com") = Some target
                    /\ Url.parse target = None)).
  { right. exists "ws.example.com". split; vm_compute; reflexivity. }
  exact (unparsable_url_leaves_the_socket_deaf Sample.P Sample.server 7 "ws.example.com"
           Sample.empty Hn H).
Defined.

Example nested_url_parameter_is_cut :
  url_parameter "https://a.example/x/?url=https://b.example/y" = "https://a.example/x".
Proof. reflexivity. Qed.

Example quiet_first_call_prints_nothing_and_serves :
  console (snd (handleHttp Sample.P Scene.quiet_server Scene.browser Sample.empty)) = []
  /\ response (snd (handleHttp Sample.P Scene.quiet_server Scene.browser Sample.empty))
     = [ResSet "Content-Type" (Some (JStr "application/octet-stream"));
        ResSend (Some [Byte.x00; Byte.xff; Byte.x80; Byte.x41])].
Proof. split; vm_compute; reflexivity. Qed.
